(** * Home affordability calculator (calculator.js)

    A shallow embedding of [calculator.js]: the financial core,
    [getFederalTaxRate], [getTaxRates], [validateInputs],
    [calculateMonthlyMortgagePayment] and [calculateHomeNetCost], and the
    page script around it, [formatCurrency], [formatPercentage],
    [displayResults] and the listener of the form.

    JavaScript numbers are IEEE 754 binary64 values.  The program is written
    once, over an interface [Arith] of the arithmetic it uses, and read at
    the instance [Binary64]: the operations of [SpecFloat] at precision 53,
    the numbers the script computes with.
    The two library functions of the host that the core calls, [Math.pow]
    and the number-to-string conversion of template literals, form the
    interface [Host].

    The page script is a sequence of statements on the browser window.  It
    is written in a state-and-error monad [Script] over three more
    interfaces: [Builtins] and [Intl] for the functions that turn numbers
    into text and back, and [Dom] for the document.  Each has a reference
    instance, on which the script runs. *)

From Stdlib Require Import ZArith QArith Qround Qpower Qfield Qabs Lia Lqa.
From Stdlib Require Import Bool List String Ascii DecimalString.
From Stdlib Require Import SpecFloat.
Import ListNotations.

Set Implicit Arguments.

(** ** The arithmetic of the script *)

Class Arith (num : Type) : Type := {
  lit : Q -> num;                 (* a numeric literal of the source text *)
  add : num -> num -> num;        (* x + y *)
  sub : num -> num -> num;        (* x - y *)
  mul : num -> num -> num;        (* x * y *)
  div : num -> num -> num;        (* x / y *)
  leb : num -> num -> bool;       (* x <= y *)
  ltb : num -> num -> bool;       (* x < y *)
  strict_eqb : num -> num -> bool;(* x === y *)
  Math_min : num -> num -> num    (* Math.min(x, y) *)
}.

Class Host (num : Type) : Type := {
  Math_pow : num -> num -> num;       (* Math.pow(x, y) *)
  Number_toString : num -> string     (* `${x}` *)
}.

Arguments lit {num Arith} _%_Q.

Declare Scope js_scope.
Delimit Scope js_scope with js.
Notation "x + y" := (add x y) : js_scope.
Notation "x - y" := (sub x y) : js_scope.
Notation "x * y" := (mul x y) : js_scope.
Notation "x / y" := (div x y) : js_scope.
Notation "x <= y" := (leb x y) : js_scope.
Notation "x < y" := (ltb x y) : js_scope.
Notation "x > y" := (ltb y x) : js_scope.
Notation "x === y" := (strict_eqb x y)
  (at level 70, no associativity) : js_scope.

(** ** Records of the script *)

(** The argument of [calculateHomeNetCost].  A property the caller leaves out
    is [None]; the destructuring pattern then supplies its default. *)
Module Params.
Record t (num : Type) : Type := mk {
  housePrice : num;
  userIncome : num;
  mortgageRate : num;
  homeAppreciation : num;
  filingStatus : string;
  insurancePercent : option num;
  downPaymentPercent : option num;
  closingCostsPercent : option num;
  opportunityCostRate : option num;
  mortgageYears : option num;
  maintenanceCostRate : option num;
  propertyTaxRate : option num
}.
End Params.

(** The object returned by [getTaxRates]. *)
Module TaxRates.
Record t (num : Type) : Type := mk {
  federal : num;
  state : num;
  property : num
}.
End TaxRates.

(** The [breakdown] object of the result. *)
Module Breakdown.
Record t (num : Type) : Type := mk {
  annualMortgagePayment : num;
  propertyTax : num;
  insurance : num;
  maintenance : num;
  opportunityCostUpfront : num;
  opportunityCostMortgagePayments : num;
  totalOpportunityCost : num;
  homeAppreciationValue : num;
  mortgageInterestTaxSavings : num;
  propertyTaxTaxSavings : num;
  downPayment : num;
  closingCosts : num;
  totalUpfrontCosts : num;
  monthlyMortgagePayment : num;
  federalTaxRate : num;
  stateTaxRate : num
}.
End Breakdown.

(** The object returned by [calculateHomeNetCost]. *)
Module Result.
Record t (num : Type) : Type := mk {
  totalNetCost : num;
  monthlyPayment : num;
  frontEndRatio : num;
  isAffordable : bool;
  totalTaxRate : num;
  breakdown : Breakdown.t num;
  warnings : list string
}.
End Result.

(** ** The enumeration of filing statuses *)

Module FilingStatus.
Definition SINGLE : string := "single".
Definition MARRIED_FILING_JOINTLY : string := "married".
End FilingStatus.

(** ** The functions of the script *)

Section Calculator.
Context {num : Type} {A : Arith num} {H : Host num}.
Local Open Scope js_scope.
Local Open Scope string_scope.

Definition getFederalTaxRate (income : num) (filingStatus : string) : num :=
  if String.eqb filingStatus FilingStatus.SINGLE then
    if income <= lit 11000 then lit 0.10 else
    if income <= lit 44725 then lit 0.12 else
    if income <= lit 95375 then lit 0.22 else
    if income <= lit 182050 then lit 0.24 else
    if income <= lit 231250 then lit 0.32 else
    if income <= lit 578125 then lit 0.35 else
    lit 0.37
  else
    if income <= lit 22000 then lit 0.10 else
    if income <= lit 89450 then lit 0.12 else
    if income <= lit 190750 then lit 0.22 else
    if income <= lit 364200 then lit 0.24 else
    if income <= lit 462500 then lit 0.32 else
    if income <= lit 693750 then lit 0.35 else
    lit 0.37.

Definition getTaxRates (income : num) (filingStatus : string)
    (propertyTaxRate : num) : TaxRates.t num :=
  let federalRate := getFederalTaxRate income filingStatus in
  {| TaxRates.federal := federalRate;
     TaxRates.state := lit 0.0;
     TaxRates.property := propertyTaxRate |}.

(** [warnings.push(w)] when the condition holds: the array grows at its end. *)
Definition push_if (c : bool) (w : string) (warnings : list string)
    : list string :=
  if c then warnings ++ [w] else warnings.

Definition validateInputs
    (housePrice userIncome mortgageRate homeAppreciation downPayment : num)
    : list string :=
  let warnings := [] in
  let warnings := push_if (housePrice <= lit 0)
    "House price must be positive" warnings in
  let warnings := push_if (userIncome <= lit 0)
    "User income must be positive" warnings in
  let warnings :=
    push_if ((mortgageRate < lit 0) || (mortgageRate > lit 20))
      ("Mortgage rate seems unrealistic ("
         ++ Number_toString mortgageRate ++ "%)")
      warnings in
  let warnings :=
    push_if ((homeAppreciation < lit (-10)) || (homeAppreciation > lit 20))
      ("Home appreciation rate seems extreme ("
         ++ Number_toString homeAppreciation ++ "%)")
      warnings in
  let warnings :=
    push_if ((downPayment < lit 3) || (downPayment > lit 50))
      ("Down payment percentage seems unusual ("
         ++ Number_toString downPayment ++ "%)")
      warnings in
  let warnings := push_if (housePrice > userIncome * lit 10)
    "House price is more than 10x annual income - may not be affordable"
    warnings in
  warnings.

(** A destructured property, or a parameter, with a default value: the
    default applies when the caller leaves the value out. *)
Definition with_default (d : num) (x : option num) : num :=
  match x with Some v => v | None => d end.

Definition calculateMonthlyMortgagePayment
    (loanAmount annualRate : num) (years : option num) : num :=
  let years := with_default (lit 30) years in
  let monthlyRate := annualRate / lit 12 in
  let numPayments := years * lit 12 in
  if monthlyRate === lit 0 then
    loanAmount / numPayments
  else
    loanAmount * (monthlyRate * Math_pow (lit 1 + monthlyRate) numPayments) /
      (Math_pow (lit 1 + monthlyRate) numPayments - lit 1).

(** The body of [calculateHomeNetCost]: each [const] of the function is a
    definition over its argument [params], in the order of the source. *)
Section calculateHomeNetCost.
Variable params : Params.t num.

Definition housePrice := Params.housePrice params.
Definition userIncome := Params.userIncome params.
Definition mortgageRate := Params.mortgageRate params.
Definition homeAppreciation := Params.homeAppreciation params.
Definition filingStatus := Params.filingStatus params.
Definition insurancePercent :=
  with_default (lit 0.005) (Params.insurancePercent params).
Definition downPaymentPercent :=
  with_default (lit 0.20) (Params.downPaymentPercent params).
Definition closingCostsPercent :=
  with_default (lit 0.03) (Params.closingCostsPercent params).
Definition opportunityCostRate :=
  with_default (lit 0.08) (Params.opportunityCostRate params).
Definition mortgageYears :=
  with_default (lit 30) (Params.mortgageYears params).
Definition maintenanceCostRate :=
  with_default (lit 0.01) (Params.maintenanceCostRate params).
Definition propertyTaxRate :=
  with_default (lit 0.01) (Params.propertyTaxRate params).

(* Convert percentages *)
Definition mortgageRateDecimal := mortgageRate / lit 100.
Definition homeAppreciationDecimal := homeAppreciation / lit 100.
Definition downPaymentDecimal := downPaymentPercent / lit 100.
Definition opportunityCostDecimal := opportunityCostRate / lit 100.
Definition maintenanceCostRateDecimal := maintenanceCostRate / lit 100.
Definition propertyTaxRateDecimal := propertyTaxRate / lit 100.

Definition warnings :=
  validateInputs housePrice userIncome mortgageRate homeAppreciation
    downPaymentPercent.
Definition taxRates :=
  getTaxRates userIncome filingStatus propertyTaxRateDecimal.
Definition totalTaxRate :=
  TaxRates.federal taxRates + TaxRates.state taxRates.

(* Upfront costs *)
Definition downPayment := housePrice * downPaymentDecimal.
Definition closingCosts := housePrice * closingCostsPercent.
Definition totalUpfrontCosts := downPayment + closingCosts.
Definition opportunityCostUpfront :=
  totalUpfrontCosts * opportunityCostDecimal.

(* Mortgage calculations *)
Definition loanAmount := housePrice - downPayment.
Definition monthlyMortgagePayment :=
  calculateMonthlyMortgagePayment loanAmount mortgageRateDecimal
    (Some mortgageYears).
Definition annualMortgagePayment := monthlyMortgagePayment * lit 12.
Definition opportunityCostMortgagePayments :=
  annualMortgagePayment * opportunityCostDecimal.
Definition totalOpportunityCost :=
  opportunityCostUpfront + opportunityCostMortgagePayments.

(* Other annual costs *)
Definition propertyTax := housePrice * TaxRates.property taxRates.
Definition propertyTaxDeduction := Math_min propertyTax (lit 10000).
Definition insurance := housePrice * insurancePercent.
Definition maintenance := housePrice * maintenanceCostRateDecimal.

(* Tax benefits *)
Definition mortgagePrincipalForDeduction := Math_min loanAmount (lit 750000).
Definition annualMortgageInterest :=
  mortgagePrincipalForDeduction * mortgageRateDecimal.
Definition mortgageInterestTaxSavings :=
  annualMortgageInterest * totalTaxRate.
Definition propertyTaxTaxSavings := propertyTaxDeduction * totalTaxRate.

(* Home appreciation *)
Definition homeAppreciationValue := housePrice * homeAppreciationDecimal.

(* Net cost calculation *)
Definition totalAnnualCosts :=
  annualMortgagePayment + propertyTax + insurance + maintenance
    + totalOpportunityCost.
Definition totalAnnualBenefits :=
  homeAppreciationValue + mortgageInterestTaxSavings
    + propertyTaxTaxSavings.
Definition totalNetCost := totalAnnualCosts - totalAnnualBenefits.

(* Affordability analysis *)
Definition monthlyPayment :=
  (annualMortgagePayment + propertyTax + insurance + maintenance) / lit 12.
Definition monthlyIncome := userIncome / lit 12.
Definition frontEndRatio := monthlyPayment / monthlyIncome.
Definition isAffordable := frontEndRatio <= lit 0.28.

Definition calculateHomeNetCost : Result.t num :=
  {| Result.totalNetCost := totalNetCost;
     Result.monthlyPayment := monthlyPayment;
     Result.frontEndRatio := frontEndRatio;
     Result.isAffordable := isAffordable;
     Result.totalTaxRate := totalTaxRate;
     Result.breakdown :=
       {| Breakdown.annualMortgagePayment := annualMortgagePayment;
          Breakdown.propertyTax := propertyTax;
          Breakdown.insurance := insurance;
          Breakdown.maintenance := maintenance;
          Breakdown.opportunityCostUpfront := opportunityCostUpfront;
          Breakdown.opportunityCostMortgagePayments :=
            opportunityCostMortgagePayments;
          Breakdown.totalOpportunityCost := totalOpportunityCost;
          Breakdown.homeAppreciationValue := homeAppreciationValue;
          Breakdown.mortgageInterestTaxSavings :=
            mortgageInterestTaxSavings;
          Breakdown.propertyTaxTaxSavings := propertyTaxTaxSavings;
          Breakdown.downPayment := downPayment;
          Breakdown.closingCosts := closingCosts;
          Breakdown.totalUpfrontCosts := totalUpfrontCosts;
          Breakdown.monthlyMortgagePayment := monthlyMortgagePayment;
          Breakdown.federalTaxRate := TaxRates.federal taxRates;
          Breakdown.stateTaxRate := TaxRates.state taxRates |};
     Result.warnings := warnings |}.
End calculateHomeNetCost.
End Calculator.


(** ** IEEE 754 binary64, the numbers of JavaScript *)

Module Binary64.
Definition prec : Z := 53.
Definition emax : Z := 1024.
Definition float : Type := spec_float.

Definition NaN : float := S754_nan.

(** An integer, rounded to the nearest float. *)
Definition of_Z (z : Z) : float := binary_normalize prec emax z 0 false.

(** A decimal literal [n / 10^k]: numerator and denominator are below 2^53
    for every literal of the script, so both convert exactly and the
    correctly rounded quotient is the float the literal denotes. *)
Definition of_Q (q : Q) : float :=
  SFdiv prec emax (of_Z (Qnum q)) (of_Z (Zpos (Qden q))).

(** [Math.min]: NaN if an argument is NaN, and -0 below +0. *)
Definition min (x y : float) : float :=
  match SFcompare x y with
  | None => NaN
  | Some Lt => x
  | Some Gt => y
  | Some Eq => match x with S754_zero true => x | _ => y end
  end.

#[global] Instance arith : Arith float := {|
  lit := of_Q;
  add := SFadd prec emax;
  sub := SFsub prec emax;
  mul := SFmul prec emax;
  div := SFdiv prec emax;
  leb := SFleb;
  ltb := SFltb;
  strict_eqb := SFeqb;
  Math_min := min
|}.

(** The rational a float stands for (0 for NaN and the infinities). *)
Definition to_Q (x : float) : Q :=
  match x with
  | S754_finite s m e =>
      (if s then Qopp else fun q => q) (inject_Z (Zpos m) * Qpower 2 e)
  | _ => 0
  end.

(** The integer a float stands for, when it stands for one. *)
Definition to_Z (x : float) : option Z :=
  match x with
  | S754_zero _ => Some 0%Z
  | S754_finite s m e =>
      let q := Qred (to_Q x) in
      if Pos.eqb (Qden q) 1 then Some (Qnum q) else None
  | _ => None
  end.
End Binary64.

(** ** A reference host for binary64

    ECMAScript fixes the number-to-string conversion (the shortest decimal
    that reads back as the same float) and the special cases of [Math.pow],
    and leaves the precision of [Math.pow] to the engine.  The reference host
    takes the correctly rounded power for an integral exponent, the case the
    calculator reaches for a whole number of payments.  The results on
    [calculateHomeNetCost] below are stated for every [Host]; this one lets
    the functions run on concrete inputs. *)

Module ReferenceHost.
Import Binary64.
Local Open Scope string_scope.
Local Open Scope Q_scope.

(** [Math.pow(x, y)] for a finite [x] and an integral [y]; NaN outside the
    modelled cases. *)
Definition pow (x y : float) : float :=
  match y with
  | S754_nan => NaN
  | S754_zero _ => of_Z 1
  | _ =>
      match x, to_Z y with
      | S754_finite s m e, Some n =>
          let p := Z.to_pos (Z.abs n) in
          let sign := s && Z.odd n in
          if (0 <? n)%Z
          then binary_round prec emax sign (Pos.pow m p) (e * n)
          else SFdiv prec emax (of_Z 1)
                 (S754_finite sign (Pos.pow m p) (e * Z.abs n))
      | S754_zero s, Some n =>
          if (0 <? n)%Z then S754_zero (s && Z.odd n)
          else S754_infinity (s && Z.odd n)
      | _, _ => NaN
      end
  end.

(** The decimal digits of a natural number. *)
Definition digits (z : Z) : string :=
  NilZero.string_of_uint (N.to_uint (Z.to_N z)).

Fixpoint zeros (n : nat) : string :=
  match n with O => EmptyString | S n' => String "0" (zeros n') end.

(** The least [n >= n0] with [v < 10^n]. *)
Fixpoint decimal_exponent (fuel : nat) (v : Q) (n0 : Z) : Z :=
  match fuel with
  | O => n0
  | S fuel' =>
      if Qle_bool (Qpower 10 n0) v
      then decimal_exponent fuel' v (n0 + 1) else n0
  end.

(** The [k]-digit decimal [s * 10^(n-k)] nearest to [v] among those that
    round to the float, if there is one. *)
Definition candidate (v lo hi : Q) (closed : bool) (n k : Z)
    : option (Z * Z) :=
  let scale := Qpower 10 (n - k) in
  let s := Qfloor (v / scale) in
  let ok c :=
    if closed then Qle_bool lo c && Qle_bool c hi
    else negb (Qle_bool c lo) && negb (Qle_bool hi c) in
  let c1 := inject_Z s * scale in
  let c2 := inject_Z (s + 1) * scale in
  let chosen :=
    match ok c1, ok c2 with
    | true, true =>
        match Qcompare (v - c1) (c2 - v) with
        | Lt => Some s
        | Gt => Some (s + 1)%Z
        | Eq => Some (if Z.even s then s else s + 1)%Z
        end
    | true, false => Some s
    | false, true => Some (s + 1)%Z
    | false, false => None
    end in
  match chosen with
  | Some s' =>
      if (s' =? 10 ^ k)%Z then Some (10 ^ (k - 1), n + 1)%Z
      else Some (s', n)
  | None => None
  end.

Fixpoint shortest (fuel : nat) (v lo hi : Q) (closed : bool) (n k : Z)
    : Z * Z :=
  match fuel with
  | O => (Qfloor (v / Qpower 10 (n - k)), n)
  | S fuel' =>
      match candidate v lo hi closed n k with
      | Some r => r
      | None => shortest fuel' v lo hi closed n (k + 1)
      end
  end.

(** The digits [s] and the decimal position [n] of a positive finite float
    [m * 2^e]: the float is printed as [0.s * 10^n]. *)
Definition shortest_decimal (m : positive) (e : Z) : Z * Z :=
  let v := inject_Z (Zpos m) * Qpower 2 e in
  let ulp := Qpower 2 e in
  let below :=
    if Pos.eqb m (Pos.pow 2 52) && (-1074 <? e)%Z then ulp / 2 else ulp in
  let lo := v - below / 2 in
  let hi := v + ulp / 2 in
  let t := (Zpos (digits2_pos m) - 1 + e)%Z in
  let n := decimal_exponent 4 v (t * 30103 / 100000)%Z in
  shortest 17 v lo hi (Z.even (Zpos m)) n 1.

Definition format (s n : Z) : string :=
  let ds := digits s in
  let k := Z.of_nat (String.length ds) in
  if ((-5 <=? n) && (n <=? 21))%Z then
    if (k <=? n)%Z then ds ++ zeros (Z.to_nat (n - k))
    else if (0 <? n)%Z then
      substring 0 (Z.to_nat n) ds ++ "." ++
      substring (Z.to_nat n) (Z.to_nat (k - n)) ds
    else "0." ++ zeros (Z.to_nat (- n)) ++ ds
  else
    let e := (n - 1)%Z in
    let exponent := (if (e <? 0)%Z then "-" else "+") ++ digits (Z.abs e) in
    if (k =? 1)%Z then ds ++ "e" ++ exponent
    else substring 0 1 ds ++ "." ++ substring 1 (Z.to_nat (k - 1)) ds
           ++ "e" ++ exponent.

Definition toString (x : float) : string :=
  match x with
  | S754_nan => "NaN"
  | S754_zero _ => "0"
  | S754_infinity s => if s then "-Infinity" else "Infinity"
  | S754_finite s m e =>
      let '(d, n) := shortest_decimal m e in
      (if s then "-" else "") ++ format d n
  end.

#[global] Instance host : Host float := {|
  Math_pow := pow;
  Number_toString := toString
|}.
End ReferenceHost.

(** ** The lookup and the validation as the specification words them *)

(** The 2023 bracket tables: (upper bound, rate) pairs in ascending order;
    above the last bound the top rate applies. *)
Definition single_brackets : list (Q * Q) :=
  [(11000, 0.10); (44725, 0.12); (95375, 0.22); (182050, 0.24);
   (231250, 0.32); (578125, 0.35)]%Q.

Definition married_brackets : list (Q * Q) :=
  [(22000, 0.10); (89450, 0.12); (190750, 0.22); (364200, 0.24);
   (462500, 0.32); (693750, 0.35)]%Q.

Definition top_rate : Q := 0.37%Q.

Definition federal_rates : list Q :=
  [0.10; 0.12; 0.22; 0.24; 0.32; 0.35; 0.37]%Q.

Definition brackets_of (filingStatus : string) : list (Q * Q) :=
  if String.eqb filingStatus FilingStatus.SINGLE
  then single_brackets else married_brackets.




Section Specification.
Context {num : Type} {A : Arith num} {H : Host num}.
Local Open Scope js_scope.
Local Open Scope string_scope.

(** The rate of the first bracket whose upper bound is at least the
    income. *)
Fixpoint bracket_lookup (table : list (Q * Q)) (income : num) : num :=
  match table with
  | [] => lit top_rate
  | (bound, rate) :: rest =>
      if income <= lit bound then lit rate else bracket_lookup rest income
  end.

(** The arguments of [validateInputs]. *)
Record Inputs : Type := {
  in_housePrice : num;
  in_userIncome : num;
  in_mortgageRate : num;
  in_homeAppreciation : num;
  in_downPayment : num
}.

Definition validate (i : Inputs) : list string :=
  validateInputs (in_housePrice i) (in_userIncome i) (in_mortgageRate i)
    (in_homeAppreciation i) (in_downPayment i).



End Specification.

Arguments Inputs num : clear implicits.

(** ** Inputs and tables used by the statements below *)

Section Scenarios.
Context {num : Type} {A : Arith num}.
Local Open Scope js_scope.

(** The same argument object with another house price. *)
Definition with_housePrice (params : Params.t num) (price : num)
    : Params.t num :=
  {| Params.housePrice := price;
     Params.userIncome := Params.userIncome params;
     Params.mortgageRate := Params.mortgageRate params;
     Params.homeAppreciation := Params.homeAppreciation params;
     Params.filingStatus := Params.filingStatus params;
     Params.insurancePercent := Params.insurancePercent params;
     Params.downPaymentPercent := Params.downPaymentPercent params;
     Params.closingCostsPercent := Params.closingCostsPercent params;
     Params.opportunityCostRate := Params.opportunityCostRate params;
     Params.mortgageYears := Params.mortgageYears params;
     Params.maintenanceCostRate := Params.maintenanceCostRate params;
     Params.propertyTaxRate := Params.propertyTaxRate params |}.

(** The example scenario of the specification: a house of 500000, an income
    of 120000, a 6.5% mortgage, 3% appreciation, filing single, 20% down
    and the defaults for the rest. *)
Definition spec_scenario : Params.t num :=
  {| Params.housePrice := lit 500000;
     Params.userIncome := lit 120000;
     Params.mortgageRate := lit 6.5;
     Params.homeAppreciation := lit 3;
     Params.filingStatus := FilingStatus.SINGLE;
     Params.insurancePercent := None;
     Params.downPaymentPercent := Some (lit 20);
     Params.closingCostsPercent := None;
     Params.opportunityCostRate := None;
     Params.mortgageYears := None;
     Params.maintenanceCostRate := None;
     Params.propertyTaxRate := None |}.

(** The scenario with the down payment left out too. *)
Definition all_defaults : Params.t num :=
  {| Params.housePrice := lit 500000;
     Params.userIncome := lit 120000;
     Params.mortgageRate := lit 6.5;
     Params.homeAppreciation := lit 3;
     Params.filingStatus := FilingStatus.SINGLE;
     Params.insurancePercent := None;
     Params.downPaymentPercent := None;
     Params.closingCostsPercent := None;
     Params.opportunityCostRate := None;
     Params.mortgageYears := None;
     Params.maintenanceCostRate := None;
     Params.propertyTaxRate := None |}.

(** The scenario with every rate given as a percentage, the way the form
    handler of the page gives the rates it reads: insurance 0.5%, closing
    costs 3%, property tax 1%, maintenance 1%, opportunity cost 8%. *)
Definition percent_inputs : Params.t num :=
  {| Params.housePrice := lit 500000;
     Params.userIncome := lit 120000;
     Params.mortgageRate := lit 6.5;
     Params.homeAppreciation := lit 3;
     Params.filingStatus := FilingStatus.SINGLE;
     Params.insurancePercent := Some (lit 0.5);
     Params.downPaymentPercent := Some (lit 20);
     Params.closingCostsPercent := Some (lit 3);
     Params.opportunityCostRate := Some (lit 8);
     Params.mortgageYears := Some (lit 30);
     Params.maintenanceCostRate := Some (lit 1);
     Params.propertyTaxRate := Some (lit 1) |}.

(** The scenario with percentages and an interest-free loan. *)
Definition interest_free : Params.t num :=
  {| Params.housePrice := lit 500000;
     Params.userIncome := lit 120000;
     Params.mortgageRate := lit 0;
     Params.homeAppreciation := lit 3;
     Params.filingStatus := FilingStatus.SINGLE;
     Params.insurancePercent := None;
     Params.downPaymentPercent := Some (lit 20);
     Params.closingCostsPercent := None;
     Params.opportunityCostRate := Some (lit 8);
     Params.mortgageYears := Some (lit 30);
     Params.maintenanceCostRate := Some (lit 1);
     Params.propertyTaxRate := Some (lit 1) |}.

(** A mortgage rate and a property tax rate of -1%: [validateInputs] warns
    about the first and nothing checks the second. *)
Definition negative_rates : Params.t num :=
  {| Params.housePrice := lit 100000;
     Params.userIncome := lit 120000;
     Params.mortgageRate := lit (-1);
     Params.homeAppreciation := lit 3;
     Params.filingStatus := FilingStatus.SINGLE;
     Params.insurancePercent := None;
     Params.downPaymentPercent := Some (lit 20);
     Params.closingCostsPercent := None;
     Params.opportunityCostRate := None;
     Params.mortgageYears := None;
     Params.maintenanceCostRate := None;
     Params.propertyTaxRate := Some (lit (-1)) |}.

(** A down payment of 79% on a house of 663655.6962025316, the scenario's
    rates otherwise. *)
Definition high_down_payment : Params.t num :=
  {| Params.housePrice := lit 663655.6962025316;
     Params.userIncome := lit 120000;
     Params.mortgageRate := lit 6.5;
     Params.homeAppreciation := lit 3;
     Params.filingStatus := FilingStatus.SINGLE;
     Params.insurancePercent := None;
     Params.downPaymentPercent := Some (lit 79);
     Params.closingCostsPercent := None;
     Params.opportunityCostRate := Some (lit 8);
     Params.mortgageYears := Some (lit 30);
     Params.maintenanceCostRate := Some (lit 1);
     Params.propertyTaxRate := Some (lit 1) |}.



End Scenarios.

(** A rate is at most every rate of the table and the top rate, as floats. *)
Definition rate_below (r : Q) (table : list (Q * Q)) : bool :=
  forallb (fun br => leb (lit r : Binary64.float) (lit (snd br))) table
  && leb (lit r : Binary64.float) (lit top_rate).

(** The rates of a table go up along the table, up to the top rate. *)
Fixpoint rates_ascending (table : list (Q * Q)) : bool :=
  match table with
  | [] => leb (lit top_rate : Binary64.float) (lit top_rate)
  | (_, r) :: rest =>
      leb (lit r : Binary64.float) (lit r) && rate_below r rest
      && rates_ascending rest
  end.

Definition is_finite (x : Binary64.float) : bool :=
  match x with S754_finite _ _ _ => true | _ => false end.

(** ** Rounding on binary64

    The notions in which the rounding of [SpecFloat] is described below: the
    start of the right shift, rounding to nearest even on integers, and the
    normalised result. *)

Module Round.
Local Open Scope Z_scope.

(** A float that is canonical and in range (zeros, infinities and NaN
    are). *)
Definition valid (x : Binary64.float) : bool :=
  valid_binary Binary64.prec Binary64.emax x.

(** The record the right shift starts from: no bit shifted out yet. *)
Definition shr_start (M : Z) : shr_record :=
  {| shr_m := M; shr_r := false; shr_s := false |}.

(** Rounding [M / P] to the nearest integer, ties to even. *)
Definition rne (M P : Z) : Z :=
  M / P + (if (P <? 2 * (M mod P)) || ((2 * (M mod P) =? P) && Z.odd (M / P))
           then 1 else 0).

(** The float of sign [s] with mantissa [m <= 2^53] at exponent [e]: a
    mantissa of [2^53] moves to the next exponent, an exponent above 971
    overflows. *)
Definition norm (s : bool) (m e : Z) : spec_float :=
  match m with
  | Z0 => S754_zero s
  | Zpos p =>
      if m <? 2 ^ 53 then
        if e <=? 971 then S754_finite s p e else S754_infinity s
      else
        if e + 1 <=? 971 then S754_finite s (2 ^ 52)%positive (e + 1)
        else S754_infinity s
  | Zneg _ => S754_nan
  end.

(** The sign of a float that is not NaN. *)
Definition signed (s : bool) (x : spec_float) : Prop :=
  match x with
  | S754_zero s' | S754_infinity s' | S754_finite s' _ _ => s' = s
  | S754_nan => False
  end.

Definition finite_or_zero (x : spec_float) : bool :=
  match x with
  | S754_zero _ | S754_finite _ _ _ => true
  | _ => false
  end.

Definition finite_not_negative (x : spec_float) : bool :=
  match x with
  | S754_zero _ | S754_finite false _ _ => true
  | _ => false
  end.
End Round.

(** ** Magnitudes and tolerances

    The notions in which the rounding errors of the script are measured:
    the magnitude of a float as a whole number of units [2^-1074], the
    float nearest to a whole number of units [2^-2148], the place of an
    exact quotient between two whole numbers, the numbers far from
    underflow and overflow, and closeness within [2^-51]. *)

Module Units.
Import Binary64.
Local Open Scope Z_scope.

(** The magnitude of a float as a multiple of [2^-1074], the least positive
    float (0 for NaN and the infinities). *)
Definition units (x : float) : Z :=
  match x with
  | S754_finite _ m e => Zpos m * 2 ^ (e + 1074)
  | _ => 0
  end.

(** The float of sign [s] nearest to [W * 2^-2148]: products of two floats
    are multiples of [2^-2148]. *)
Definition rounded (s : bool) (W : Z) : float :=
  binary_round_aux prec emax s W (-2148) loc_Exact.
End Units.

Module Quotient.
Import Binary64.
Local Open Scope Z_scope.

(** Where the exact quotient lies between [q] and [q + 1], in quarters:
    at [q], below the middle, at the middle, above the middle. *)
Definition quarter (l : location) : Z :=
  match l with
  | loc_Exact => 0
  | loc_Inexact Lt => 1
  | loc_Inexact Eq => 2
  | loc_Inexact Gt => 3
  end.

(** A normal number neither tiny nor huge: its magnitude is at least
    [2^-448] and below [2^453]. *)
Definition moderate (x : float) : bool :=
  match x with
  | S754_finite _ m e => bounded prec emax m e && (-500 <=? e) && (e <=? 400)
  | _ => false
  end.
End Quotient.

Module Tolerance.
Import Binary64.
Local Open Scope Q_scope.

(** [x] is within [2^-51] of [y], in proportion to [y]. *)
Definition close_to (x y : float) : Prop :=
  Qabs (to_Q x - to_Q y) <= (1 # 2251799813685248) * Qabs (to_Q y).
End Tolerance.

(** ** More inputs for the statements below *)

Section MoreScenarios.
Context {num : Type} {A : Arith num}.

(** The same argument object with another income. *)
Definition with_userIncome (params : Params.t num) (income : num)
    : Params.t num :=
  {| Params.housePrice := Params.housePrice params;
     Params.userIncome := income;
     Params.mortgageRate := Params.mortgageRate params;
     Params.homeAppreciation := Params.homeAppreciation params;
     Params.filingStatus := Params.filingStatus params;
     Params.insurancePercent := Params.insurancePercent params;
     Params.downPaymentPercent := Params.downPaymentPercent params;
     Params.closingCostsPercent := Params.closingCostsPercent params;
     Params.opportunityCostRate := Params.opportunityCostRate params;
     Params.mortgageYears := Params.mortgageYears params;
     Params.maintenanceCostRate := Params.maintenanceCostRate params;
     Params.propertyTaxRate := Params.propertyTaxRate params |}.
End MoreScenarios.

(** [narrow] and [wide] list the same rates, each bound of [narrow] at most
    the bound of [wide] beside it, as floats. *)
Fixpoint bounds_at_most (narrow wide : list (Q * Q)) : bool :=
  match narrow, wide with
  | [], [] => true
  | (b1, r1) :: narrow', (b2, r2) :: wide' =>
      leb (lit b1 : Binary64.float) (lit b2)
      && (Qnum r1 =? Qnum r2)%Z && (Qden r1 =? Qden r2)%positive
      && bounds_at_most narrow' wide'
  | _, _ => false
  end.

(** ** The page: built-in functions, formatter and document *)

(** The built-in functions of ECMAScript that the rendering and the form
    handler call, besides those of [Host]. *)
Class Builtins (num : Type) : Type := {
  neg : num -> num;                       (* -x *)
  Math_abs : num -> num;                  (* Math.abs(x) *)
  Number_toFixed : num -> nat -> string;  (* x.toFixed(digits) *)
  parseFloat : string -> num              (* parseFloat(s) *)
}.

(** [new Intl.NumberFormat(locales, options)]: the formatter is the record
    of what it was constructed with. *)
Module NumberFormat.
Record t : Type := mk {
  locales : string;
  style : string;
  currency : string;
  minimumFractionDigits : nat;
  maximumFractionDigits : nat
}.
End NumberFormat.

(** [formatter.format(x)]: the text depends on the locale data of the
    engine. *)
Class Intl (num : Type) : Type := {
  NumberFormat_format : NumberFormat.t -> num -> string
}.

(** The part of the DOM that the script uses, as functions on the state
    [window] of the browser window: the document and the event being
    dispatched.  [getElementById] is [None] where the method returns
    [null]. *)
Class Dom (window node : Type) : Type := {
  getElementById : string -> window -> option node;
  createElement : string -> window -> node * window;
  set_style_display : node -> string -> window -> window;
  set_textContent : node -> string -> window -> window;
  set_className : node -> string -> window -> window;
  set_innerHTML : node -> string -> window -> window;
  appendChild : node -> node -> window -> window;
  scrollIntoView : node -> string -> window -> window;
  get_value : node -> window -> string;
  preventDefault : window -> window
}.

(** How a statement completes: normally, or by the [TypeError] that reading
    or writing a property of [null] throws. *)
Inductive completion (X : Type) : Type :=
  | normal (x : X)
  | TypeError.
Arguments TypeError {X}.

(** A piece of script: it runs on a window, completes, and leaves a
    window. *)
Definition Script (window X : Type) : Type := window -> completion X * window.

Definition ret {window X : Type} (x : X) : Script window X :=
  fun w => (normal x, w).

Definition bind {window X Y : Type} (m : Script window X)
    (k : X -> Script window Y) : Script window Y :=
  fun w =>
    match m w with
    | (normal x, w') => k x w'
    | (TypeError, w') => (TypeError, w')
    end.

Declare Scope script_scope.
Delimit Scope script_scope with script.
Notation "x <- m ;; k" := (bind m (fun x => k))
  (at level 61, m at next level, right associativity) : script_scope.
Notation "m ;; k" := (bind m (fun _ => k))
  (at level 61, right associativity) : script_scope.

(** [array.forEach(callback)] *)
Fixpoint forEach {window X : Type} (array : list X)
    (callback : X -> Script window unit) : Script window unit :=
  match array with
  | [] => ret tt
  | x :: rest => bind (callback x) (fun _ => forEach rest callback)
  end.

Definition quote : string := String "034"%char EmptyString.
Definition newline : string := String "010"%char EmptyString.

(** An entry of the array [breakdownItems]. *)
Module Item.
Record t (num : Type) : Type := mk {
  label : string;
  value : num;
  type : string
}.
End Item.

Section Page.
Context {num : Type} {A : Arith num} {H : Host num}.
Context {B : Builtins num} {I : Intl num}.
Context {window node : Type} {D : Dom window node}.
Local Open Scope js_scope.
Local Open Scope string_scope.
Local Open Scope script_scope.

Definition formatCurrency (amount : num) : string :=
  NumberFormat_format
    {| NumberFormat.locales := "en-US";
       NumberFormat.style := "currency";
       NumberFormat.currency := "USD";
       NumberFormat.minimumFractionDigits := 0;
       NumberFormat.maximumFractionDigits := 0 |}
    amount.

Definition formatPercentage (value : num) : string :=
  Number_toFixed (value * lit 100) 1 ++ "%".

(** [document.getElementById(id)], kept in a [const]. *)
Definition document_getElementById (id : string)
    : Script window (option node) :=
  fun w => (normal (getElementById id w), w).

(** A value whose property is read or written: [null] throws. *)
Definition object (x : option node) : Script window node :=
  fun w =>
    match x with
    | Some n => (normal n, w)
    | None => (TypeError, w)
    end.

(** [document.getElementById(id)] with a property access on the result. *)
Definition element (id : string) : Script window node :=
  x <- document_getElementById id;; object x.

(** An assignment to a property, or a method called for its effect. *)
Definition effect (f : window -> window) : Script window unit :=
  fun w => (normal tt, f w).

Definition document_createElement (tagName : string) : Script window node :=
  fun w => let (n, w') := createElement tagName w in (normal n, w').

Definition breakdownItems (result : Result.t num) : list (Item.t num) :=
  let breakdown := Result.breakdown result in
  [ {| Item.label := "Annual Mortgage Payment";
       Item.value := Breakdown.annualMortgagePayment breakdown;
       Item.type := "negative" |};
    {| Item.label := "Property Tax";
       Item.value := Breakdown.propertyTax breakdown;
       Item.type := "negative" |};
    {| Item.label := "Insurance";
       Item.value := Breakdown.insurance breakdown;
       Item.type := "negative" |};
    {| Item.label := "Maintenance";
       Item.value := Breakdown.maintenance breakdown;
       Item.type := "negative" |};
    {| Item.label := "Stock gains lost from down payment";
       Item.value := Breakdown.opportunityCostUpfront breakdown;
       Item.type := "negative" |};
    {| Item.label := "Stock gains lost from mortage payment";
       Item.value := Breakdown.opportunityCostMortgagePayments breakdown;
       Item.type := "negative" |};
    {| Item.label := "Home Appreciation";
       Item.value := neg (Breakdown.homeAppreciationValue breakdown);
       Item.type := "positive" |};
    {| Item.label := "Mortgage Interest Tax Savings";
       Item.value := neg (Breakdown.mortgageInterestTaxSavings breakdown);
       Item.type := "positive" |};
    {| Item.label := "Property Tax Tax Savings";
       Item.value := neg (Breakdown.propertyTaxTaxSavings breakdown);
       Item.type := "positive" |} ].

(** The template literal assigned to [div.innerHTML]. *)
Definition item_markup (item : Item.t num) : string :=
  newline
  ++ "            <span class=" ++ quote ++ "breakdown-label" ++ quote ++ ">"
  ++ Item.label item ++ "</span>" ++ newline
  ++ "            <span class=" ++ quote ++ "breakdown-value" ++ quote ++ ">"
  ++ formatCurrency (Math_abs (Item.value item)) ++ "</span>" ++ newline
  ++ "        ".

Definition displayResults (result : Result.t num) : Script window unit :=
  results <- element "results";;
  effect (set_style_display results "block");;

  (* Main results *)
  totalCost <- element "totalCost";;
  effect (set_textContent totalCost
            (formatCurrency (Result.totalNetCost result)));;
  monthlyPayment <- element "monthlyPayment";;
  effect (set_textContent monthlyPayment
            (formatCurrency (Result.monthlyPayment result)));;
  frontEndRatio <- element "frontEndRatio";;
  effect (set_textContent frontEndRatio
            (formatPercentage (Result.frontEndRatio result)));;
  downPaymentResult <- element "downPaymentResult";;
  effect (set_textContent downPaymentResult
            (formatCurrency
               (Breakdown.downPayment (Result.breakdown result))));;

  (* Affordability status *)
  statusElement <- document_getElementById "affordabilityStatus";;
  (if Result.isAffordable result then
     statusElement <- object statusElement;;
     effect (set_textContent statusElement "Affordable (≤28%)");;
     effect (set_className statusElement "status affordable")
   else
     statusElement <- object statusElement;;
     effect (set_textContent statusElement "Above 28% Rule");;
     effect (set_className statusElement "status unaffordable"));;

  (* Breakdown *)
  breakdownContainer <- document_getElementById "breakdown";;
  breakdownContainer <- object breakdownContainer;;
  effect (set_innerHTML breakdownContainer "");;
  forEach (breakdownItems result) (fun item =>
    div <- document_createElement "div";;
    effect (set_className div ("breakdown-item " ++ Item.type item));;
    effect (set_innerHTML div (item_markup item));;
    effect (appendChild breakdownContainer div));;

  (* Warnings *)
  warningsSection <- document_getElementById "warnings";;
  warningsList <- document_getElementById "warningsList";;
  (if (0 <? List.length (Result.warnings result))%nat then
     warningsSection <- object warningsSection;;
     effect (set_style_display warningsSection "block");;
     warningsList <- object warningsList;;
     effect (set_innerHTML warningsList "");;
     forEach (Result.warnings result) (fun warning =>
       li <- document_createElement "li";;
       effect (set_textContent li warning);;
       effect (appendChild warningsList li))
   else
     warningsSection <- object warningsSection;;
     effect (set_style_display warningsSection "none"));;

  (* Scroll to results *)
  results <- element "results";;
  effect (scrollIntoView results "smooth").

(** [document.getElementById(id).value] *)
Definition input_value (id : string) : Script window string :=
  input <- element id;;
  fun w => (normal (get_value input w), w).

(** The object [params] that the form handler builds. *)
Definition formParams : Script window (Params.t num) :=
  housePrice <- input_value "housePrice";;
  userIncome <- input_value "userIncome";;
  propertyTaxRate <- input_value "propertyTaxRate";;
  mortgageRate <- input_value "mortgageRate";;
  homeAppreciation <- input_value "homeAppreciation";;
  filingStatus <- input_value "filingStatus";;
  downPayment <- input_value "downPayment";;
  opportunityCost <- input_value "opportunityCost";;
  maintenanceCost <- input_value "maintenanceCost";;
  ret {| Params.housePrice := parseFloat housePrice;
         Params.userIncome := parseFloat userIncome;
         Params.mortgageRate := parseFloat mortgageRate;
         Params.homeAppreciation := parseFloat homeAppreciation;
         Params.filingStatus := filingStatus;
         Params.insurancePercent := None;
         Params.downPaymentPercent := Some (parseFloat downPayment);
         Params.closingCostsPercent := None;
         Params.opportunityCostRate := Some (parseFloat opportunityCost);
         Params.mortgageYears := None;
         Params.maintenanceCostRate := Some (parseFloat maintenanceCost);
         Params.propertyTaxRate := Some (parseFloat propertyTaxRate) |}.

(** The listener of the form's [submit] event. *)
Definition onSubmit : Script window unit :=
  effect preventDefault;;
  params <- formParams;;
  let result := calculateHomeNetCost params in
  displayResults result.
End Page.

(** ** The built-in functions on binary64

    [Number.prototype.toFixed] and [parseFloat] as ECMAScript defines them,
    on the exact value of the float and of the decimal text. *)

Module ReferenceBuiltins.
Import Binary64.
Local Open Scope string_scope.
Local Open Scope Z_scope.

(** The integer [n] for which [n / 10^f] is nearest to [m * 2^e], the
    larger one of two. *)
Definition nearest_fixed (m : positive) (e : Z) (f : nat) : Z :=
  let scaled := Zpos m * 10 ^ Z.of_nat f in
  if 0 <=? e then scaled * 2 ^ e
  else (2 * scaled + 2 ^ (- e)) / 2 ^ (1 - e).

(** [m * 2^e >= 10^21] *)
Definition at_least_1e21 (m : positive) (e : Z) : bool :=
  if 0 <=? e then 10 ^ 21 <=? Zpos m * 2 ^ e
  else 10 ^ 21 * 2 ^ (- e) <=? Zpos m.

(** The digits of [n] with a decimal point before the last [f] of them:
    the integer part and the fraction. *)
Definition fixed_parts (n : Z) (f : nat) : string * string :=
  let m := ReferenceHost.digits n in
  let k := String.length m in
  let m := if (k <=? f)%nat then ReferenceHost.zeros (f + 1 - k) ++ m else m in
  let k := if (k <=? f)%nat then (f + 1)%nat else k in
  (substring 0 (k - f) m, substring (k - f) f m).

Definition fixed (n : Z) (f : nat) : string :=
  let (a, b) := fixed_parts n f in
  match f with
  | O => a
  | S _ => a ++ "." ++ b
  end.

(** [x.toFixed(f)] for [0 <= f <= 100], the digits the method accepts. *)
Definition toFixed (x : float) (f : nat) : string :=
  match x with
  | S754_zero _ => fixed 0 f
  | S754_finite s m e =>
      (if s then "-" else "")
      ++ (if at_least_1e21 m e
          then ReferenceHost.toString (S754_finite false m e)
          else fixed (nearest_fixed m e f) f)
  | _ => ReferenceHost.toString x
  end.

(** White space and line terminators, in UTF-8. *)
Definition bytes (l : list nat) : string :=
  string_of_list_ascii (map ascii_of_nat l).

Definition white_space : list string :=
  map bytes
    [ [9]; [10]; [11]; [12]; [13]; [32]; [194; 160]; [225; 154; 128];
      [226; 128; 128]; [226; 128; 129]; [226; 128; 130]; [226; 128; 131];
      [226; 128; 132]; [226; 128; 133]; [226; 128; 134]; [226; 128; 135];
      [226; 128; 136]; [226; 128; 137]; [226; 128; 138]; [226; 128; 168];
      [226; 128; 169]; [226; 128; 175]; [226; 129; 159]; [227; 128; 128];
      [239; 187; 191] ]%nat.

Fixpoint trim_start (fuel : nat) (s : string) : string :=
  match fuel with
  | O => s
  | S fuel' =>
      match find (fun ws => prefix ws s) white_space with
      | Some ws =>
          trim_start fuel'
            (substring (String.length ws)
               (String.length s - String.length ws) s)
      | None => s
      end
  end.

Definition is_digit (c : ascii) : bool :=
  ((48 <=? nat_of_ascii c) && (nat_of_ascii c <=? 57))%nat.

(** The leading decimal digits of [s], read after the digits [acc]: their
    value, their number, and the rest of [s]. *)
Fixpoint read_digits (s : string) (acc : Z) (count : nat)
    : Z * nat * string :=
  match s with
  | String c rest =>
      if is_digit c
      then read_digits rest (10 * acc + (Z.of_nat (nat_of_ascii c) - 48))
             (S count)
      else (acc, count, s)
  | EmptyString => (acc, count, s)
  end.

(** The exponent part at the head of [s], if there is a complete one. *)
Definition read_exponent (s : string) : Z :=
  match s with
  | String c rest =>
      if (Ascii.eqb c "e" || Ascii.eqb c "E")%bool then
        let '(negative, rest) :=
          match rest with
          | String "+" r => (false, r)
          | String "-" r => (true, r)
          | _ => (false, rest)
          end in
        let '(n, count, _) := read_digits rest 0 0 in
        match count with
        | O => 0
        | S _ => if negative then - n else n
        end
      else 0
  | EmptyString => 0
  end.

(** The float nearest to [digits * 10^k], with the sign given. *)
Definition decimal (negative : bool) (digits k : Z) : float :=
  match digits with
  | Zpos d =>
      let ratio (n den : positive) :=
        SFdiv prec emax (S754_finite negative n 0) (S754_finite false den 0) in
      if 0 <=? k then ratio (d * Z.to_pos (10 ^ k))%positive 1%positive
      else ratio d (Z.to_pos (10 ^ (- k)))
  | _ => S754_zero negative
  end.

(** [parseFloat(s)]: the longest prefix of the trimmed text that is a
    decimal literal, or NaN if there is none. *)
Definition parseFloat (s : string) : float :=
  let s := trim_start (String.length s) s in
  let '(negative, s) :=
    match s with
    | String "+" r => (false, r)
    | String "-" r => (true, r)
    | _ => (false, s)
    end in
  if prefix "Infinity" s then S754_infinity negative else
  let '(int, int_count, s) := read_digits s 0 0 in
  let '(digits, fraction_count, s) :=
    match s with
    | String "." r => read_digits r int 0
    | _ => (int, O, s)
    end in
  match (int_count + fraction_count)%nat with
  | O => NaN
  | S _ => decimal negative digits (read_exponent s - Z.of_nat fraction_count)
  end.

End ReferenceBuiltins.

#[global] Instance builtins : Builtins Binary64.float := {|
  neg := SFopp;
  Math_abs := SFabs;
  Number_toFixed := ReferenceBuiltins.toFixed;
  parseFloat := ReferenceBuiltins.parseFloat
|}.

(** ** A reference formatter

    The text of [Intl.NumberFormat] comes from the locale data of the
    engine.  The reference renders the formatter that the script constructs,
    for US English and US dollars: the sign, the dollar sign, and the amount
    rounded half away from zero to the formatter's fraction digits, in groups
    of three. *)

Module ReferenceIntl.
Import Binary64.
Local Open Scope string_scope.

Fixpoint grouped (first : bool) (s : string) : string :=
  match s with
  | EmptyString => EmptyString
  | String c rest =>
      (if negb first && (S (String.length rest) mod 3 =? 0)%nat
       then "," else "")
      ++ String c (grouped false rest)
  end.

(** The fraction without the trailing zeros beyond its first [least]
    digits. *)
Fixpoint fraction (least : nat) (s : string) : string :=
  match s with
  | EmptyString => EmptyString
  | String c rest =>
      match least, fraction (Nat.pred least) rest with
      | O, EmptyString => if Ascii.eqb c "0" then "" else String c ""
      | _, tail => String c tail
      end
  end.

Definition amount (f : NumberFormat.t) (m : positive) (e : Z) : string :=
  let digits := NumberFormat.maximumFractionDigits f in
  let (a, b) :=
    ReferenceBuiltins.fixed_parts
      (ReferenceBuiltins.nearest_fixed m e digits) digits in
  let b := fraction (NumberFormat.minimumFractionDigits f) b in
  grouped true a ++ (if String.eqb b "" then "" else "." ++ b).

Definition format_number (f : NumberFormat.t) (x : float) : string :=
  match x with
  | S754_nan => "$NaN"
  | S754_infinity s => (if s then "-" else "") ++ "$∞"
  | S754_zero s =>
      (if s then "-" else "") ++ "$0"
      ++ (match NumberFormat.minimumFractionDigits f with
          | O => ""
          | S least => "." ++ ReferenceHost.zeros (S least)
          end)
  | S754_finite s m e => (if s then "-" else "") ++ "$" ++ amount f m e
  end.

End ReferenceIntl.

#[global] Instance intl : Intl Binary64.float := {|
  NumberFormat_format := ReferenceIntl.format_number
|}.

(** ** A reference page

    The window as a store of elements, each known by its handle.  The
    elements of the document are found by their [id]; the store does not
    record where an element lies in the document, so the page is taken to
    keep the elements that the script looks up outside the content that the
    script replaces.  An element made by [createElement] has no [id].  The
    content of an element is a list of children: text, markup that the
    parser turns into nodes, and elements of the store. *)

Module Page.
Local Open Scope string_scope.

Inductive child : Type :=
  | text (data : string)
  | markup (html : string)
  | node (n : nat).

Record element : Type := mk_element {
  tagName : string;
  id : string;
  className : string;
  display : string;       (* style.display *)
  value : string;
  childNodes : list child
}.

Record t : Type := mk {
  element_at : nat -> element;
  count : nat;                       (* the handles in use: 0 .. count - 1 *)
  scrolled : option (nat * string);  (* the last scrollIntoView *)
  defaultPrevented : bool
}.

Definition blank (tagName : string) : element :=
  {| tagName := tagName; id := ""; className := ""; display := "";
     value := ""; childNodes := [] |}.

Definition with_className (c : string) (e : element) : element :=
  {| tagName := tagName e; id := id e; className := c; display := display e;
     value := value e; childNodes := childNodes e |}.

Definition with_display (d : string) (e : element) : element :=
  {| tagName := tagName e; id := id e; className := className e; display := d;
     value := value e; childNodes := childNodes e |}.

Definition with_childNodes (l : list child) (e : element) : element :=
  {| tagName := tagName e; id := id e; className := className e;
     display := display e; value := value e; childNodes := l |}.

Definition is_node (n : nat) (c : child) : bool :=
  match c with
  | node k => Nat.eqb k n
  | _ => false
  end.

Definition without_child (n : nat) (e : element) : element :=
  with_childNodes (filter (fun c => negb (is_node n c)) (childNodes e)) e.

Definition with_child (n : nat) (e : element) : element :=
  with_childNodes (childNodes e ++ [node n]) e.

Definition with_elements (f : nat -> element) (w : t) : t :=
  {| element_at := f; count := count w; scrolled := scrolled w;
     defaultPrevented := defaultPrevented w |}.

(** A change of the element [n]. *)
Definition update (n : nat) (f : element -> element) (w : t) : t :=
  with_elements
    (fun k => if Nat.eqb k n then f (element_at w k) else element_at w k) w.

(** The first element with the [id]; no element has the empty [id]. *)
Definition getElementById (i : string) (w : t) : option nat :=
  if String.eqb i "" then None
  else find (fun n => String.eqb (id (element_at w n)) i) (seq 0 (count w)).

Definition createElement (tagName : string) (w : t) : nat * t :=
  (count w,
   {| element_at :=
        fun k => if Nat.eqb k (count w) then blank tagName
                 else element_at w k;
      count := S (count w);
      scrolled := scrolled w;
      defaultPrevented := defaultPrevented w |}).

Definition set_style_display (n : nat) (d : string) : t -> t :=
  update n (with_display d).

Definition set_className (n : nat) (c : string) : t -> t :=
  update n (with_className c).

(** The new content replaces the children. *)
Definition set_textContent (n : nat) (data : string) : t -> t :=
  update n (with_childNodes (if String.eqb data "" then [] else [text data])).

Definition set_innerHTML (n : nat) (html : string) : t -> t :=
  update n (with_childNodes (if String.eqb html "" then [] else [markup html])).

(** The child leaves the parent it had and becomes the last child. *)
Definition appendChild (parent c : nat) (w : t) : t :=
  update parent (with_child c)
    (with_elements (fun k => without_child c (element_at w k)) w).

Definition scrollIntoView (n : nat) (behavior : string) (w : t) : t :=
  {| element_at := element_at w; count := count w;
     scrolled := Some (n, behavior);
     defaultPrevented := defaultPrevented w |}.

Definition get_value (n : nat) (w : t) : string := value (element_at w n).

Definition preventDefault (w : t) : t :=
  {| element_at := element_at w; count := count w; scrolled := scrolled w;
     defaultPrevented := true |}.

(** A page of the elements [l], with handles in the order of the list. *)
Definition of_list (l : list element) : t :=
  {| element_at := fun n => nth n l (blank "");
     count := List.length l;
     scrolled := None;
     defaultPrevented := false |}.

(** The children of the element [n], each element child with its state. *)
Definition content (w : t) (n : nat) : list (child + element) :=
  map (fun c => match c with
                | node k => inr (element_at w k)
                | _ => inl c
                end)
      (childNodes (element_at w n)).

(** No child refers to a handle that is not in use. *)
Definition well_formed (w : t) : bool :=
  forallb
    (fun n => forallb (fun c => match c with
                                | node k => Nat.ltb k (count w)
                                | _ => true
                                end)
                      (childNodes (element_at w n)))
    (seq 0 (count w)).
End Page.

#[global] Instance page_dom : Dom Page.t nat := {|
  getElementById := Page.getElementById;
  createElement := Page.createElement;
  set_style_display := Page.set_style_display;
  set_textContent := Page.set_textContent;
  set_className := Page.set_className;
  set_innerHTML := Page.set_innerHTML;
  appendChild := Page.appendChild;
  scrollIntoView := Page.scrollIntoView;
  get_value := Page.get_value;
  preventDefault := Page.preventDefault
|}.

(** ** Notions for the statements about the page *)

(** The fields that the form handler reads, in the order of the object
    literal. *)
Definition form_fields : list string :=
  [ "housePrice"; "userIncome"; "propertyTaxRate"; "mortgageRate";
    "homeAppreciation"; "filingStatus"; "downPayment"; "opportunityCost";
    "maintenanceCost" ]%string.

Section FormFields.
Context {window node : Type} {D : Dom window node}.

(** The [value] of the element with the [id], if there is one. *)
Definition field_value (id : string) (w : window) : option string :=
  option_map (fun input => get_value input w) (getElementById id w).
End FormFields.

Section Negated.
Context {num : Type} {B : Builtins num}.

(** The result with the sign of the nine breakdown entries that
    [displayResults] lists changed. *)
Definition with_breakdown_negated (result : Result.t num) : Result.t num :=
  let b := Result.breakdown result in
  {| Result.totalNetCost := Result.totalNetCost result;
     Result.monthlyPayment := Result.monthlyPayment result;
     Result.frontEndRatio := Result.frontEndRatio result;
     Result.isAffordable := Result.isAffordable result;
     Result.totalTaxRate := Result.totalTaxRate result;
     Result.breakdown :=
       {| Breakdown.annualMortgagePayment :=
            neg (Breakdown.annualMortgagePayment b);
          Breakdown.propertyTax := neg (Breakdown.propertyTax b);
          Breakdown.insurance := neg (Breakdown.insurance b);
          Breakdown.maintenance := neg (Breakdown.maintenance b);
          Breakdown.opportunityCostUpfront :=
            neg (Breakdown.opportunityCostUpfront b);
          Breakdown.opportunityCostMortgagePayments :=
            neg (Breakdown.opportunityCostMortgagePayments b);
          Breakdown.totalOpportunityCost := Breakdown.totalOpportunityCost b;
          Breakdown.homeAppreciationValue :=
            neg (Breakdown.homeAppreciationValue b);
          Breakdown.mortgageInterestTaxSavings :=
            neg (Breakdown.mortgageInterestTaxSavings b);
          Breakdown.propertyTaxTaxSavings :=
            neg (Breakdown.propertyTaxTaxSavings b);
          Breakdown.downPayment := Breakdown.downPayment b;
          Breakdown.closingCosts := Breakdown.closingCosts b;
          Breakdown.totalUpfrontCosts := Breakdown.totalUpfrontCosts b;
          Breakdown.monthlyMortgagePayment :=
            Breakdown.monthlyMortgagePayment b;
          Breakdown.federalTaxRate := Breakdown.federalTaxRate b;
          Breakdown.stateTaxRate := Breakdown.stateTaxRate b |};
     Result.warnings := Result.warnings result |}.
End Negated.

(** The fields whose values [validateInputs] checks. *)
Definition validated_fields : list string :=
  [ "housePrice"; "userIncome"; "mortgageRate"; "homeAppreciation";
    "downPayment" ]%string.

(** Whether a piece of script completed normally. *)
Definition completed {window X : Type} (c : completion X * window) : bool :=
  match c with
  | (normal _, _) => true
  | (TypeError, _) => false
  end.

Section Required.
Context {num : Type} {window node : Type} {D : Dom window node}.

(** Whether the document has an element with the [id]. *)
Definition present (w : window) (id : string) : bool :=
  match getElementById id w with
  | Some _ => true
  | None => false
  end.

(** The elements whose properties [displayResults] reads or writes. *)
Definition required (result : Result.t num) : list string :=
  [ "results"; "totalCost"; "monthlyPayment"; "frontEndRatio";
    "downPaymentResult"; "affordabilityStatus"; "breakdown"; "warnings" ]%string
  ++ match Result.warnings result with
     | [] => []
     | _ :: _ => [ "warningsList"%string ]
     end.
End Required.

Section Rounds.
Context {num : Type} {A : Arith num} {B : Builtins num} {I : Intl num}.
Local Open Scope js_scope.
Local Open Scope string_scope.

(** One round of the loop over [breakdownItems] on the reference page: the
    new [div], its class and content, appended to the container. *)
Definition add_row (container : nat) (item : Item.t num) (w : Page.t)
    : Page.t :=
  let (div, w) := Page.createElement "div" w in
  Page.appendChild container div
    (Page.set_innerHTML div (item_markup item)
       (Page.set_className div ("breakdown-item " ++ Item.type item) w)).

(** One round of the loop over the warnings. *)
Definition add_warning (ul : nat) (warning : string) (w : Page.t)
    : Page.t :=
  let (li, w) := Page.createElement "li" w in
  Page.appendChild ul li (Page.set_textContent li warning w).

(** The [div] of an entry of the breakdown. *)
Definition row (item : Item.t num) : Page.element :=
  {| Page.tagName := "div";
     Page.id := "";
     Page.className := "breakdown-item " ++ Item.type item;
     Page.display := "";
     Page.value := "";
     Page.childNodes := [Page.markup (item_markup item)] |}.

(** The [li] of a warning. *)
Definition warning_item (warning : string) : Page.element :=
  {| Page.tagName := "li";
     Page.id := "";
     Page.className := "";
     Page.display := "";
     Page.value := "";
     Page.childNodes :=
       if String.eqb warning "" then [] else [Page.text warning] |}.

(** What the main results and the status part of [displayResults] leave of
    a window, for the elements [results], [totalCost], [monthlyPayment],
    [frontEndRatio], [downPaymentResult] and [affordabilityStatus]. *)
Definition after_main_results (result : Result.t num)
    (results totalCost monthlyPayment frontEndRatio downPaymentResult
       statusElement : nat) (w : Page.t) : Page.t :=
  let w := Page.set_style_display results "block" w in
  let w := Page.set_textContent totalCost
             (formatCurrency (Result.totalNetCost result)) w in
  let w := Page.set_textContent monthlyPayment
             (formatCurrency (Result.monthlyPayment result)) w in
  let w := Page.set_textContent frontEndRatio
             (formatPercentage (Result.frontEndRatio result)) w in
  let w := Page.set_textContent downPaymentResult
             (formatCurrency
                (Breakdown.downPayment (Result.breakdown result))) w in
  if Result.isAffordable result then
    Page.set_className statusElement "status affordable"
      (Page.set_textContent statusElement "Affordable (≤28%)" w)
  else
    Page.set_className statusElement "status unaffordable"
      (Page.set_textContent statusElement "Above 28% Rule" w).

(** What the warnings part leaves, for the elements [warnings] and
    [warningsList]. *)
Definition after_warnings (warnings : list string) (section ul : nat)
    (w : Page.t) : Page.t :=
  match warnings with
  | [] => Page.set_style_display section "none" w
  | _ :: _ =>
      fold_left (fun w warning => add_warning ul warning w) warnings
        (Page.set_innerHTML ul ""
           (Page.set_style_display section "block" w))
  end.

(** What [displayResults] leaves of a window in which it finds its
    elements. *)
Definition after_displayResults (result : Result.t num)
    (results totalCost monthlyPayment frontEndRatio downPaymentResult
       statusElement container section ul : nat) (w : Page.t) : Page.t :=
  let w := after_main_results result results totalCost monthlyPayment
             frontEndRatio downPaymentResult statusElement w in
  let w := fold_left (fun w item => add_row container item w)
             (breakdownItems result)
             (Page.set_innerHTML container "" w) in
  let w := after_warnings (Result.warnings result) section ul w in
  Page.scrollIntoView results "smooth" w.
End Rounds.

(** The element children of [e] have handles below [n]. *)
Definition children_below (n : nat) (e : Page.element) : Prop :=
  Forall (fun c => match c with
                   | Page.node k => (k < n)%nat
                   | _ => True
                   end)
         (Page.childNodes e).

(** ** Pages on which the script is run *)

Section Pages.
Local Open Scope string_scope.

(** An input of the form with its value, and an empty element of the
    results. *)
Definition input (id value : string) : Page.element :=
  {| Page.tagName := "input"; Page.id := id; Page.className := "";
     Page.display := ""; Page.value := value; Page.childNodes := [] |}.

Definition output (tagName id : string) : Page.element :=
  {| Page.tagName := tagName; Page.id := id; Page.className := "";
     Page.display := ""; Page.value := ""; Page.childNodes := [] |}.

Definition outputs : list Page.element :=
  [ output "div" "results"; output "span" "totalCost";
    output "span" "monthlyPayment"; output "span" "frontEndRatio";
    output "span" "downPaymentResult"; output "div" "affordabilityStatus";
    output "div" "breakdown"; output "div" "warnings";
    output "ul" "warningsList" ].

(** A page with the form filled in: an interest-free loan on a house of
    500000 with an income of 120000. *)
Definition filled_page : Page.t :=
  Page.of_list
    ([ input "housePrice" "500000"; input "userIncome" "120000";
       input "propertyTaxRate" "1"; input "mortgageRate" "0";
       input "homeAppreciation" "3"; input "filingStatus" "single";
       input "downPayment" "20"; input "opportunityCost" "8";
       input "maintenanceCost" "1" ] ++ outputs).

(** The same page with the five validated fields left empty. *)
Definition blank_page : Page.t :=
  Page.of_list
    ([ input "housePrice" ""; input "userIncome" "";
       input "propertyTaxRate" "1"; input "mortgageRate" "";
       input "homeAppreciation" ""; input "filingStatus" "single";
       input "downPayment" ""; input "opportunityCost" "8";
       input "maintenanceCost" "1" ] ++ outputs).

(** A page that lacks the income field. *)
Definition page_without_income : Page.t :=
  Page.of_list
    ([ input "housePrice" "500000"; input "propertyTaxRate" "1";
       input "mortgageRate" "0"; input "homeAppreciation" "3";
       input "filingStatus" "single"; input "downPayment" "20";
       input "opportunityCost" "8"; input "maintenanceCost" "1" ]
     ++ outputs).
End Pages.

(** * Properties that hold for every arithmetic and every host *)

Section Generic.
Context {num : Type} {A : Arith num} {H : Host num}.
Local Open Scope js_scope.

(** The chain of comparisons of [getFederalTaxRate] is the lookup in the
    table of the filing status. *)
Lemma getFederalTaxRate_lookup (income : num) (filingStatus : string) :
  getFederalTaxRate income filingStatus
  = bracket_lookup (brackets_of filingStatus) income.
Proof.
  unfold getFederalTaxRate, brackets_of.
  destruct (String.eqb filingStatus FilingStatus.SINGLE); reflexivity.
Qed.

Lemma bracket_lookup_in (table : list (Q * Q)) (income : num) :
  In (bracket_lookup table income) (map lit (map snd table ++ [top_rate])).
Proof.
  induction table as [|[bound rate] rest IH]; simpl.
  - now left.
  - destruct (income <= lit bound); [now left | now right].
Qed.

Lemma getFederalTaxRate_in_rates (income : num) (filingStatus : string) :
  In (getFederalTaxRate income filingStatus) (map lit federal_rates).
Proof.
  rewrite getFederalTaxRate_lookup. unfold brackets_of.
  destruct (String.eqb filingStatus FilingStatus.SINGLE);
    [exact (bracket_lookup_in single_brackets income)
    |exact (bracket_lookup_in married_brackets income)].
Qed.

(** The zero-rate branch: the amortization formula, whose denominator would
    be [1 - 1], is not evaluated. *)
Lemma zero_rate_payment (loanAmount annualRate : num) (years : option num) :
  (annualRate / lit 12 === lit 0) = true ->
  calculateMonthlyMortgagePayment loanAmount annualRate years
  = loanAmount / (with_default (lit 30) years * lit 12).
Proof.
  intros Hz. unfold calculateMonthlyMortgagePayment. now rewrite Hz.
Qed.

(** C3: the net cost of the result is its total annual costs minus its
    total annual benefits, each the sum of the breakdown's entries, computed
    with the script's own operations and no rounding step of its own. *)
Theorem totalNetCost_is_costs_minus_benefits (params : Params.t num) :
  let r := calculateHomeNetCost params in
  let b := Result.breakdown r in
  totalAnnualCosts params
    = Breakdown.annualMortgagePayment b + Breakdown.propertyTax b
      + Breakdown.insurance b + Breakdown.maintenance b
      + Breakdown.totalOpportunityCost b
  /\ totalAnnualBenefits params
    = Breakdown.homeAppreciationValue b
      + Breakdown.mortgageInterestTaxSavings b
      + Breakdown.propertyTaxTaxSavings b
  /\ Result.totalNetCost r
    = totalAnnualCosts params - totalAnnualBenefits params.
Proof.
  intros r b; subst r b; cbn [calculateHomeNetCost Result.breakdown
    Result.totalNetCost Breakdown.annualMortgagePayment Breakdown.propertyTax
    Breakdown.insurance Breakdown.maintenance Breakdown.totalOpportunityCost
    Breakdown.homeAppreciationValue Breakdown.mortgageInterestTaxSavings
    Breakdown.propertyTaxTaxSavings].
  repeat split.
Qed.

(** C6: the monthly payment of the result is a twelfth of mortgage, tax,
    insurance and maintenance (no opportunity cost), the front-end ratio
    divides it by a twelfth of the income, and the result is flagged
    affordable exactly when that ratio is at most 0.28. *)
Theorem affordability_rule (params : Params.t num) :
  let r := calculateHomeNetCost params in
  let b := Result.breakdown r in
  Result.monthlyPayment r
    = (Breakdown.annualMortgagePayment b + Breakdown.propertyTax b
       + Breakdown.insurance b + Breakdown.maintenance b) / lit 12
  /\ Result.frontEndRatio r
    = Result.monthlyPayment r / (Params.userIncome params / lit 12)
  /\ (Result.isAffordable r = true
      <-> (Result.frontEndRatio r <= lit 0.28) = true).
Proof.
  intros r b; subst r b; cbn [calculateHomeNetCost Result.breakdown
    Result.monthlyPayment Result.frontEndRatio Result.isAffordable
    Breakdown.annualMortgagePayment Breakdown.propertyTax
    Breakdown.insurance Breakdown.maintenance].
  repeat split; auto.
Qed.

(** C9: a filing status other than 'single', recognised or not, is looked
    up in the married-filing-jointly table, and for every income and every
    filing status the lookup returns one of the seven rates. *)
Theorem getFederalTaxRate_not_single (income : num) (filingStatus : string) :
  (filingStatus <> FilingStatus.SINGLE ->
     getFederalTaxRate income filingStatus
       = bracket_lookup married_brackets income
     /\ getFederalTaxRate income filingStatus
       = getFederalTaxRate income FilingStatus.MARRIED_FILING_JOINTLY)
  /\ In (getFederalTaxRate income filingStatus) (map lit federal_rates).
Proof.
  split.
  - intros Hs. rewrite !getFederalTaxRate_lookup. unfold brackets_of.
    apply String.eqb_neq in Hs. rewrite Hs. split; reflexivity.
  - apply getFederalTaxRate_in_rates.
Qed.

(** ** Validation *)





End Generic.

(** * The rounding of binary64 products

    [SFmul] rounds the exact product with [binary_round_aux].  This part
    describes that rounding in closed form (shift to the target exponent,
    round to nearest even, normalise) and derives that the rounded product
    by a float that is not negative keeps the order. *)

Module RoundFacts.
Import Binary64 Round.
Local Open Scope Z_scope.
Unset Implicit Arguments.

(** The exponent of the last place of a number whose leading bit is at
    position [e]: 53 places below, and -1074 at least. *)
Lemma fexp_eq (e : Z) : fexp prec emax e = Z.max (e - 53) (-1074).
Proof. reflexivity. Qed.

(** A positive number of [d] binary digits lies between [2^(d-1)] and
    [2^d]. *)
Lemma digits2_pos_bounds (m : positive) :
  2 ^ (Zpos (digits2_pos m) - 1) <= Zpos m < 2 ^ Zpos (digits2_pos m).
Proof.
  induction m as [m IH|m IH|]; cbn [digits2_pos].
  - rewrite Pos2Z.inj_succ.
    replace (Z.succ (Zpos (digits2_pos m)) - 1)
      with (Z.succ (Zpos (digits2_pos m) - 1)) by lia.
    rewrite !Z.pow_succ_r by lia. lia.
  - rewrite Pos2Z.inj_succ.
    replace (Z.succ (Zpos (digits2_pos m)) - 1)
      with (Z.succ (Zpos (digits2_pos m) - 1)) by lia.
    rewrite !Z.pow_succ_r by lia. lia.
  - cbn. lia.
Qed.

Lemma digits2_pos_unique (m : positive) (d : Z) :
  2 ^ (d - 1) <= Zpos m < 2 ^ d -> Zpos (digits2_pos m) = d.
Proof.
  intros [Hlo Hhi]. destruct (digits2_pos_bounds m) as [Hlo' Hhi'].
  assert (0 < d).
  { destruct (Z.ltb_spec 0 d) as [|Hd]; trivial.
    destruct (Z.eq_dec d 0) as [->|Hd0]; [cbn in Hhi; lia|].
    rewrite Z.pow_neg_r in Hhi; lia. }
  assert (d - 1 < Zpos (digits2_pos m)).
  { apply (Z.pow_lt_mono_r_iff 2); lia. }
  assert (Zpos (digits2_pos m) - 1 < d).
  { apply (Z.pow_lt_mono_r_iff 2); lia. }
  lia.
Qed.

(** The binary iteration of [SpecFloat] is the plain iteration. *)
Lemma iter_pos_nat {A : Type} (f : A -> A) (p : positive) (x : A) :
  iter_pos f p x = Nat.iter (Pos.to_nat p) f x.
Proof.
  revert x. induction p as [p IH|p IH|]; intros x; cbn [iter_pos].
  - rewrite !IH, Pos2Nat.inj_xI.
    rewrite <- Nat.iter_add. rewrite <- Nat.iter_succ_r. f_equal. lia.
  - rewrite !IH, Pos2Nat.inj_xO.
    rewrite <- Nat.iter_add. f_equal. lia.
  - reflexivity.
Qed.

(** One step of the shift, on a mantissa that is not negative. *)
Lemma shr_1_spec (m : Z) (r s : bool) :
  0 <= m ->
  shr_1 {| shr_m := m; shr_r := r; shr_s := s |}
  = {| shr_m := m / 2; shr_r := Z.odd m; shr_s := r || s |}.
Proof.
  intros Hm. rewrite <- Z.div2_div.
  destruct m as [|[p|p|]|p]; try reflexivity; lia.
Qed.

(** [k] steps of the shift: the quotient by [2^k], the round bit tells
    whether the remainder reaches half of [2^k], the sticky bit whether it
    is neither zero nor that half. *)
Lemma shr_iter_spec (M : Z) (k : nat) :
  0 <= M ->
  let P := 2 ^ Z.of_nat k in
  let st := Nat.iter k shr_1 (shr_start M) in
  shr_m st = M / P
  /\ (shr_r st = true <-> P <= 2 * (M mod P))
  /\ (shr_s st = true <-> M mod P <> 0 /\ 2 * (M mod P) <> P).
Proof.
  intros HM. induction k as [|k IH].
  - cbn. rewrite Z.div_1_r, Z.mod_1_r. repeat split; try lia; discriminate.
  - cbv zeta in IH |- *. rewrite Nat2Z.inj_succ, Z.pow_succ_r by lia.
    set (P := 2 ^ Z.of_nat k) in *.
    assert (HP : 0 < P) by (apply Z.pow_pos_nonneg; lia).
    rewrite Nat.iter_succ. destruct (Nat.iter k shr_1 (shr_start M)) as [q r s].
    cbn [shr_m shr_r shr_s] in IH. destruct IH as (Hq & Hr & Hs).
    assert (Hq0 : 0 <= q) by (subst q; apply Z.div_pos; lia).
    rewrite shr_1_spec by exact Hq0. cbn [shr_m shr_r shr_s].
    assert (Hrem : 0 <= M mod P < P) by (apply Z.mod_pos_bound; lia).
    assert (Hmod : M mod (2 * P) = M mod P + P * (q mod 2)).
    { rewrite (Z.mul_comm 2 P), Z.rem_mul_r by lia. now subst q. }
    rewrite Hmod, (Zmod_odd q). split; [|split].
    + subst q. rewrite Z.div_div by lia. now rewrite (Z.mul_comm P 2).
    + destruct (Z.odd q); split; intros; try discriminate; trivial; lia.
    + rewrite orb_true_iff, Hr, Hs.
      destruct (Z.odd q); lia.
Qed.

(** Rounding on the round and sticky bits is rounding the quotient to
    nearest even. *)
Lemma round_step (M : Z) (k : nat) :
  0 <= M ->
  let st := Nat.iter k shr_1 (shr_start M) in
  round_nearest_even (shr_m st) (loc_of_shr_record st)
  = rne M (2 ^ Z.of_nat k).
Proof.
  intros HM st. destruct (shr_iter_spec M k HM) as (Hq & Hr & Hs).
  fold st in Hq, Hr, Hs. unfold rne. rewrite <- Hq.
  set (P := 2 ^ Z.of_nat k) in *.
  assert (HP : 0 < P) by (apply Z.pow_pos_nonneg; lia).
  assert (Hrem : 0 <= M mod P < P) by (apply Z.mod_pos_bound; lia).
  destruct st as [q r s]. cbn [shr_m shr_r shr_s] in *.
  assert (Hr' : if r then P <= 2 * (M mod P) else 2 * (M mod P) < P).
  { destruct r; [now apply Hr|].
    destruct (Z.lt_ge_cases (2 * (M mod P)) P) as [|Hge]; trivial.
    apply Hr in Hge. discriminate. }
  assert (Hs' : if s then M mod P <> 0 /\ 2 * (M mod P) <> P
                else M mod P = 0 \/ 2 * (M mod P) = P).
  { destruct s; [now apply Hs|].
    destruct (Z.eq_dec (M mod P) 0); [now left|].
    destruct (Z.eq_dec (2 * (M mod P)) P); [now right|].
    assert (false = true) by (apply Hs; now split). discriminate. }
  clear Hr Hs Hq.
  destruct (Z.ltb_spec P (2 * (M mod P))), (Z.eqb_spec (2 * (M mod P)) P),
    r, s; cbn [loc_of_shr_record round_nearest_even orb andb];
    try lia; rewrite <- Z.negb_odd; destruct (Z.odd q); cbn; lia.
Qed.

Lemma shr_fexp_exact (m e : Z) :
  shr_fexp prec emax m e loc_Exact
  = shr (shr_start m) e (fexp prec emax (Zdigits2 m + e) - e).
Proof. reflexivity. Qed.

(** The second shift of [binary_round_aux] normalises a mantissa that the
    rounding has carried to [2^53]. *)
Lemma normalise_spec (s : bool) (m e : Z) :
  0 <= m <= 2 ^ 53 -> -1074 <= e ->
  (let '(mrs, e') := shr_fexp prec emax m e loc_Exact in
   match shr_m mrs with
   | Z0 => S754_zero s
   | Zpos p =>
       if e' <=? emax - prec then S754_finite s p e' else S754_infinity s
   | Zneg _ => S754_nan
   end) = norm s m e.
Proof.
  intros Hm He. rewrite shr_fexp_exact, fexp_eq. unfold norm.
  destruct m as [|p|p]; [| |lia].
  - cbn [Zdigits2].
    destruct (Z.max (0 + e - 53) (-1074) - e) eqn:En; try reflexivity; lia.
  - cbn [Zdigits2]. destruct (digits2_pos_bounds p) as [Hlo Hhi].
    destruct (Z.ltb_spec (Zpos p) (2 ^ 53)) as [Hlt|Hge].
    + assert (Hd : Zpos (digits2_pos p) <= 53).
      { assert (Zpos (digits2_pos p) - 1 < 53);
          [apply (Z.pow_lt_mono_r_iff 2); lia | lia]. }
      destruct (Z.max (Zpos (digits2_pos p) + e - 53) (-1074) - e) eqn:En;
        try lia; reflexivity.
    + assert (Hp : Zpos p = 2 ^ 53) by lia.
      assert (Hd : Zpos (digits2_pos p) = 54).
      { apply digits2_pos_unique. rewrite Hp. cbn. lia. }
      rewrite Hd. replace (Z.max (54 + e - 53) (-1074) - e) with 1 by lia.
      injection Hp as ->. reflexivity.
Qed.

Lemma rne_bounds (M P : Z) :
  0 <= M -> 0 < P -> M / P <= rne M P <= M / P + 1.
Proof.
  intros HM HP. unfold rne.
  destruct ((P <? 2 * (M mod P)) || ((2 * (M mod P) =? P) && Z.odd (M / P)));
    lia.
Qed.

(** The rounding of [M * 2^E], for a mantissa that needs no left shift:
    the target exponent is [fexp] of the position of the leading bit, the
    mantissa is rounded to nearest even at that exponent, and the result is
    normalised. *)
Lemma round_aux_spec (s : bool) (M : positive) (E : Z) :
  let target := fexp prec emax (Zpos (digits2_pos M) + E) in
  E <= target ->
  binary_round_aux prec emax s (Zpos M) E loc_Exact
  = norm s (rne (Zpos M) (2 ^ (target - E))) target.
Proof.
  intros target Hn. unfold binary_round_aux.
  rewrite shr_fexp_exact. cbn [Zdigits2]. fold target.
  destruct (digits2_pos_bounds M) as [Hlo Hhi].
  assert (Htarget : -1074 <= target /\ Zpos (digits2_pos M) + E - 53 <= target)
    by (subst target; rewrite fexp_eq; lia).
  assert (Hbound : 0 <= rne (Zpos M) (2 ^ (target - E)) <= 2 ^ 53).
  { assert (HP : 0 < 2 ^ (target - E)) by (apply Z.pow_pos_nonneg; lia).
    destruct (rne_bounds (Zpos M) (2 ^ (target - E))) as [H1 H2]; try lia.
    assert (0 <= Zpos M / 2 ^ (target - E)) by (apply Z.div_pos; lia).
    assert (Zpos M / 2 ^ (target - E) < 2 ^ 53); [|lia].
    apply Z.div_lt_upper_bound; [lia|].
    rewrite <- Z.pow_add_r by lia.
    apply Z.lt_le_trans with (1 := Hhi).
    apply Z.pow_le_mono_r; lia. }
  destruct (target - E) as [|p|p] eqn:En; [| |lia]; cbn [shr].
  - change (round_nearest_even (shr_m (shr_start (Zpos M)))
              (loc_of_shr_record (shr_start (Zpos M))))
      with (Zpos M).
    replace (rne (Zpos M) (2 ^ 0)) with (Zpos M) in *.
    + replace E with target by lia. now apply normalise_spec.
    + unfold rne. rewrite Z.pow_0_r, Z.div_1_r, Z.mod_1_r. cbn. lia.
  - rewrite iter_pos_nat.
    pose proof (round_step (Zpos M) (Pos.to_nat p)) as Hstep.
    cbv zeta in Hstep. rewrite Hstep by lia.
    rewrite positive_nat_Z. replace (E + Zpos p) with target by lia.
    now apply normalise_spec.
Qed.

Lemma rne_scale (M P K : Z) :
  0 < P -> 0 < K -> rne (M * K) (P * K) = rne M P.
Proof.
  intros HP HK. unfold rne.
  rewrite Z.div_mul_cancel_r, Z.mul_mod_distr_r by lia.
  f_equal.
  assert (H0 : 0 <= M mod P < P) by (apply Z.mod_pos_bound; lia).
  generalize dependent (M mod P). intros r Hr.
  destruct (Z.ltb_spec (P * K) (2 * (r * K))),
    (Z.ltb_spec P (2 * r)),
    (Z.eqb_spec (2 * (r * K)) (P * K)),
    (Z.eqb_spec (2 * r) P); cbn [orb andb]; try reflexivity; exfalso.
  all: try (assert (2 * r * K < P * K)
              by (apply Z.mul_lt_mono_pos_r; lia); lia).
  all: try (assert (P * K < 2 * r * K)
              by (apply Z.mul_lt_mono_pos_r; lia); lia).
  all: try (assert (P * K <= 2 * r * K)
              by (apply Z.mul_le_mono_nonneg_r; lia); lia).
  all: try (assert (2 * r = P) by (apply (Z.mul_cancel_r _ _ K); lia); lia).
  all: try (subst P; lia).
Qed.

Lemma rne_monotone (M1 M2 P : Z) :
  0 < P -> M1 <= M2 -> rne M1 P <= rne M2 P.
Proof.
  intros HP Hle. unfold rne.
  assert (Hq : M1 / P <= M2 / P) by (apply Z.div_le_mono; lia).
  pose proof (Z.div_mod M1 P) as E1. pose proof (Z.div_mod M2 P) as E2.
  pose proof (Z.mod_pos_bound M1 P HP) as B1.
  pose proof (Z.mod_pos_bound M2 P HP) as B2.
  destruct (Z.eq_dec (M1 / P) (M2 / P)) as [Heq|Hne].
  - rewrite <- Heq in *.
    assert (M1 mod P <= M2 mod P) by lia.
    generalize dependent (M1 mod P). generalize dependent (M2 mod P).
    generalize dependent (M1 / P). intros q _ _ r2 _ _ r1 _ _ Hr.
    destruct (Z.ltb_spec P (2 * r1)), (Z.ltb_spec P (2 * r2)),
      (Z.eqb_spec (2 * r1) P), (Z.eqb_spec (2 * r2) P),
      (Z.odd q); cbn [orb andb]; lia.
  - destruct ((P <? 2 * (M1 mod P))
              || ((2 * (M1 mod P) =? P) && Z.odd (M1 / P))),
      ((P <? 2 * (M2 mod P))
       || ((2 * (M2 mod P) =? P) && Z.odd (M2 / P))); lia.
Qed.

Ltac pos_compare_cases :=
  match goal with
  | |- context [Pos.compare_cont Eq ?a ?b] =>
      change (Pos.compare_cont Eq a b) with (Pos.compare a b);
      destruct (Pos.compare_spec a b)
  end.

(** The order of two normalised results: same exponent and ordered
    mantissas, or a lower exponent against a mantissa of 53 digits. *)
Lemma norm_order (m1 e1 m2 e2 : Z) :
  0 <= m1 <= 2 ^ 53 -> 0 <= m2 <= 2 ^ 53 ->
  (e1 = e2 /\ m1 <= m2) \/ (e1 < e2 /\ 2 ^ 52 <= m2) ->
  SFleb (norm false m1 e1) (norm false m2 e2) = true
  /\ SFleb (norm true m2 e2) (norm true m1 e1) = true.
Proof.
  intros H1 H2 Hcase. unfold norm.
  assert (Hc : Zpos (2 ^ 52)%positive = 4503599627370496) by reflexivity.
  change (2 ^ 53) with 9007199254740992 in *.
  change (2 ^ 52) with 4503599627370496 in *.
  generalize dependent (2 ^ 52)%positive. intros c Hc.
  destruct m1 as [|p1|p1], m2 as [|p2|p2]; try lia;
    repeat match goal with
    | |- context [?a <? ?b] => destruct (Z.ltb_spec a b)
    | |- context [?a <=? ?b] => destruct (Z.leb_spec a b)
    end; unfold SFleb; cbn [SFcompare];
    try (split; reflexivity); try lia;
    repeat match goal with
    | |- context [Z.compare ?a ?b] => destruct (Z.compare_spec a b)
    end;
    cbn [CompOpp]; try (split; reflexivity); try lia;
    pos_compare_cases; try pos_compare_cases;
    cbn [CompOpp]; try (split; reflexivity); lia.
Qed.

(** Shifting the mantissa to the left and lowering the exponent by as much
    does not change the rounding. *)
Lemma round_aux_shift (s : bool) (M M' : positive) (E k : Z) :
  0 <= k -> Zpos M' = Zpos M * 2 ^ k ->
  E <= fexp prec emax (Zpos (digits2_pos M) + E) ->
  binary_round_aux prec emax s (Zpos M') (E - k) loc_Exact
  = binary_round_aux prec emax s (Zpos M) E loc_Exact.
Proof.
  intros Hk HM' Hn.
  assert (Hd : Zpos (digits2_pos M') = Zpos (digits2_pos M) + k).
  { apply digits2_pos_unique. destruct (digits2_pos_bounds M) as [Hlo Hhi].
    rewrite HM'. replace (Zpos (digits2_pos M) + k - 1)
      with (Zpos (digits2_pos M) - 1 + k) by lia.
    rewrite !Z.pow_add_r by lia.
    assert (0 < 2 ^ k) by (apply Z.pow_pos_nonneg; lia). nia. }
  rewrite !round_aux_spec.
  - rewrite Hd. replace (Zpos (digits2_pos M) + k + (E - k))
      with (Zpos (digits2_pos M) + E) by lia.
    set (target := fexp prec emax (Zpos (digits2_pos M) + E)) in *.
    f_equal. rewrite HM'.
    replace (target - (E - k)) with (target - E + k) by lia.
    rewrite Z.pow_add_r by lia.
    apply rne_scale; apply Z.pow_pos_nonneg; lia.
  - exact Hn.
  - rewrite Hd. replace (Zpos (digits2_pos M) + k + (E - k))
      with (Zpos (digits2_pos M) + E) by lia. lia.
Qed.

Lemma digits2_pos_monotone (M1 M2 : positive) :
  Zpos M1 <= Zpos M2 -> Zpos (digits2_pos M1) <= Zpos (digits2_pos M2).
Proof.
  intros Hle. destruct (digits2_pos_bounds M1) as [Hlo1 Hhi1].
  destruct (digits2_pos_bounds M2) as [Hlo2 Hhi2].
  assert (Zpos (digits2_pos M1) - 1 < Zpos (digits2_pos M2));
    [apply (Z.pow_lt_mono_r_iff 2); lia | lia].
Qed.

(** Rounding keeps the order of two mantissas at the same exponent; for the
    negative sign it reverses it. *)
Lemma round_aux_monotone (M1 M2 : positive) (E : Z) :
  E <= fexp prec emax (Zpos (digits2_pos M1) + E) ->
  Zpos M1 <= Zpos M2 ->
  SFleb (binary_round_aux prec emax false (Zpos M1) E loc_Exact)
        (binary_round_aux prec emax false (Zpos M2) E loc_Exact) = true
  /\ SFleb (binary_round_aux prec emax true (Zpos M2) E loc_Exact)
           (binary_round_aux prec emax true (Zpos M1) E loc_Exact) = true.
Proof.
  intros Hn Hle.
  pose proof (digits2_pos_monotone M1 M2 Hle) as Hd.
  destruct (digits2_pos_bounds M1) as [Hlo1 Hhi1].
  destruct (digits2_pos_bounds M2) as [Hlo2 Hhi2].
  rewrite fexp_eq in Hn.
  assert (Hn2 : E <= fexp prec emax (Zpos (digits2_pos M2) + E))
    by (rewrite fexp_eq; lia).
  rewrite !round_aux_spec by (rewrite ?fexp_eq; lia).
  rewrite !fexp_eq in *.
  set (d1 := Zpos (digits2_pos M1)) in *.
  set (d2 := Zpos (digits2_pos M2)) in *.
  set (t1 := Z.max (d1 + E - 53) (-1074)) in *.
  set (t2 := Z.max (d2 + E - 53) (-1074)) in *.
  assert (HP1 : 0 < 2 ^ (t1 - E)) by (apply Z.pow_pos_nonneg; lia).
  assert (HP2 : 0 < 2 ^ (t2 - E)) by (apply Z.pow_pos_nonneg; lia).
  assert (Hb : forall (M : positive) (t : Z), Zpos M < 2 ^ (t - E + 53) ->
             E <= t -> 0 <= rne (Zpos M) (2 ^ (t - E)) <= 2 ^ 53).
  { intros M t HM Ht.
    assert (HP : 0 < 2 ^ (t - E)) by (apply Z.pow_pos_nonneg; lia).
    destruct (rne_bounds (Zpos M) (2 ^ (t - E))) as [H1 H2]; try lia.
    assert (0 <= Zpos M / 2 ^ (t - E)) by (apply Z.div_pos; lia).
    assert (Zpos M / 2 ^ (t - E) < 2 ^ 53); [|lia].
    apply Z.div_lt_upper_bound; [lia|].
    rewrite <- Z.pow_add_r by lia. exact HM. }
  assert (Hb1 : 0 <= rne (Zpos M1) (2 ^ (t1 - E)) <= 2 ^ 53).
  { apply Hb; [|lia]. apply Z.lt_le_trans with (1 := Hhi1).
    apply Z.pow_le_mono_r; lia. }
  assert (Hb2 : 0 <= rne (Zpos M2) (2 ^ (t2 - E)) <= 2 ^ 53).
  { apply Hb; [|lia]. apply Z.lt_le_trans with (1 := Hhi2).
    apply Z.pow_le_mono_r; lia. }
  apply norm_order; trivial.
  destruct (Z.eq_dec t1 t2) as [Ht|Ht].
  - left. split; [exact Ht|]. rewrite Ht. now apply rne_monotone.
  - right. split; [lia|].
    assert (Ht2 : t2 = d2 + E - 53) by lia.
    destruct (rne_bounds (Zpos M2) (2 ^ (t2 - E))) as [H1 _]; try lia.
    apply Z.le_trans with (2 := H1).
    apply Z.div_le_lower_bound; [lia|].
    rewrite <- Z.pow_add_r by lia.
    replace (t2 - E + 52) with (d2 - 1) by lia. exact Hlo2.
Qed.

(** A canonical mantissa has 53 digits, or fewer at the least exponent. *)
Lemma bounded_canonical (m : positive) (e : Z) :
  bounded prec emax m e = true ->
  Z.max (Zpos (digits2_pos m) + e - 53) (-1074) = e /\ e <= 971.
Proof.
  unfold bounded, canonical_mantissa. rewrite fexp_eq.
  intros Hb. apply andb_prop in Hb as [Hc He].
  apply Z.eqb_eq in Hc. apply Z.leb_le in He.
  change (emax - prec) with 971 in He. now split.
Qed.

Lemma digits2_pos_mul (m1 m2 : positive) :
  Zpos (digits2_pos m1) + Zpos (digits2_pos m2) - 1
  <= Zpos (digits2_pos (m1 * m2)).
Proof.
  destruct (digits2_pos_bounds m1) as [Hlo1 _].
  destruct (digits2_pos_bounds m2) as [Hlo2 _].
  destruct (digits2_pos_bounds (m1 * m2)) as [_ Hhi].
  rewrite Pos2Z.inj_mul in Hhi.
  assert (H : 2 ^ (Zpos (digits2_pos m1) - 1 + (Zpos (digits2_pos m2) - 1))
              < 2 ^ Zpos (digits2_pos (m1 * m2))).
  { rewrite Z.pow_add_r by lia.
    apply Z.le_lt_trans with (2 := Hhi).
    apply Z.mul_le_mono_nonneg; try lia; apply Z.pow_nonneg; lia. }
  apply Z.pow_lt_mono_r_iff in H; lia.
Qed.

(** The product of two canonical mantissas needs no left shift. *)
Lemma product_target (m1 m2 : positive) (e1 e2 : Z) :
  bounded prec emax m1 e1 = true -> bounded prec emax m2 e2 = true ->
  e1 + e2 <= fexp prec emax (Zpos (digits2_pos (m1 * m2)) + (e1 + e2)).
Proof.
  intros H1 H2. apply bounded_canonical in H1, H2.
  pose proof (digits2_pos_mul m1 m2).
  assert (0 < Zpos (digits2_pos m1)) by lia.
  assert (0 < Zpos (digits2_pos m2)) by lia.
  rewrite fexp_eq. lia.
Qed.

Lemma round_aux_signed (s : bool) (M : positive) (E : Z) :
  E <= fexp prec emax (Zpos (digits2_pos M) + E) ->
  signed s (binary_round_aux prec emax s (Zpos M) E loc_Exact).
Proof.
  intros Hn. rewrite round_aux_spec by exact Hn.
  set (t := fexp prec emax (Zpos (digits2_pos M) + E)) in *.
  assert (HP : 0 < 2 ^ (t - E)) by (apply Z.pow_pos_nonneg; lia).
  destruct (rne_bounds (Zpos M) (2 ^ (t - E))) as [H1 _]; try lia.
  assert (0 <= Zpos M / 2 ^ (t - E)) by (apply Z.div_pos; lia).
  unfold norm. destruct (rne (Zpos M) (2 ^ (t - E))); try lia; cbn.
  - reflexivity.
  - repeat match goal with |- context [if ?c then _ else _] => destruct c end;
      reflexivity.
Qed.

Lemma signed_order (a b : spec_float) :
  signed true a -> signed false b -> SFleb a b = true.
Proof.
  destruct a as [[]|[]| |[] ? ?], b as [[]|[]| |[] ? ?]; cbn;
    try discriminate; try contradiction; reflexivity.
Qed.

Lemma zero_below_positive (s : bool) (b : spec_float) :
  signed false b -> SFleb (S754_zero s) b = true.
Proof.
  destruct b as [[]|[]| |[] ? ?]; cbn;
    try discriminate; try contradiction; reflexivity.
Qed.

Lemma negative_below_zero (s : bool) (a : spec_float) :
  signed true a -> SFleb a (S754_zero s) = true.
Proof.
  destruct a as [[]|[]| |[] ? ?]; cbn;
    try discriminate; try contradiction; reflexivity.
Qed.

(** Products of positive canonical floats by a positive canonical float:
    the order of the magnitudes is kept by the rounded product, and reversed
    under a negative sign. *)
Lemma mul_magnitude_monotone (m1 m2 mr : positive) (e1 e2 er : Z) :
  bounded prec emax m1 e1 = true -> bounded prec emax m2 e2 = true ->
  bounded prec emax mr er = true ->
  e1 < e2 \/ (e1 = e2 /\ Zpos m1 <= Zpos m2) ->
  let round s m e := binary_round_aux prec emax s (Zpos m) e loc_Exact in
  SFleb (round false (m1 * mr)%positive (e1 + er))
        (round false (m2 * mr)%positive (e2 + er)) = true
  /\ SFleb (round true (m2 * mr)%positive (e2 + er))
           (round true (m1 * mr)%positive (e1 + er)) = true.
Proof.
  intros H1 H2 Hr Horder round; subst round; cbv beta.
  pose proof (product_target m1 mr e1 er H1 Hr) as Ht1.
  pose proof (product_target m2 mr e2 er H2 Hr) as Ht2.
  destruct Horder as [Hlt|[-> Hle]].
  - set (k := e2 - e1).
    assert (Hk : 0 < k) by (subst k; lia).
    set (M2' := (m2 * mr * 2 ^ Z.to_pos k)%positive).
    assert (HM2' : Zpos M2' = Zpos (m2 * mr) * 2 ^ k).
    { subst M2'. rewrite Pos2Z.inj_mul, Pos2Z.inj_pow.
      rewrite Z2Pos.id by lia. reflexivity. }
    rewrite <- !(round_aux_shift _ (m2 * mr) M2' (e2 + er) k)
      by (trivial; lia).
    replace (e2 + er - k) with (e1 + er) by (subst k; lia).
    apply round_aux_monotone; [exact Ht1|].
    rewrite HM2', !Pos2Z.inj_mul.
    apply bounded_canonical in H1, H2.
    destruct (digits2_pos_bounds m1) as [_ Hhi1].
    destruct (digits2_pos_bounds m2) as [Hlo2 _].
    assert (Hd1 : Zpos (digits2_pos m1) <= 53) by lia.
    assert (Hd2 : Zpos (digits2_pos m2) = 53) by lia.
    rewrite Hd2 in Hlo2.
    assert (Hm1 : Zpos m1 < 2 ^ 53).
    { apply Z.lt_le_trans with (1 := Hhi1). apply Z.pow_le_mono_r; lia. }
    assert (Hk2 : 2 <= 2 ^ k).
    { change 2 with (2 ^ 1) at 1. apply Z.pow_le_mono_r; lia. }
    change (2 ^ (53 - 1)) with 4503599627370496 in Hlo2.
    change (2 ^ 53) with 9007199254740992 in Hm1.
    assert (Zpos m1 <= Zpos m2 * 2 ^ k) by nia.
    assert (0 < Zpos mr) by lia. nia.
  - apply round_aux_monotone; [exact Ht1|].
    rewrite !Pos2Z.inj_mul. nia.
Qed.

(** The rounded product by a float that is not negative keeps the order. *)
Theorem SFmul_monotone (x1 x2 r : spec_float) :
  valid_binary prec emax x1 = true -> valid_binary prec emax x2 = true ->
  valid_binary prec emax r = true ->
  finite_or_zero x1 = true -> finite_or_zero x2 = true ->
  finite_not_negative r = true ->
  SFleb x1 x2 = true ->
  SFleb (SFmul prec emax x1 r) (SFmul prec emax x2 r) = true.
Proof.
  intros V1 V2 Vr F1 F2 Fr Hle.
  destruct r as [sr| | |[] mr er]; try discriminate.
  - destruct x1 as [s1| | |s1 m1 e1], x2 as [s2| | |s2 m2 e2];
      try discriminate; reflexivity.
  - cbn [valid_binary] in Vr.
    destruct x1 as [s1| | |s1 m1 e1], x2 as [s2| | |s2 m2 e2];
      try discriminate; cbn [valid_binary] in V1, V2; cbn [SFmul];
      rewrite ?xorb_false_r.
    + reflexivity.
    + destruct s2; [discriminate|].
      apply zero_below_positive, round_aux_signed.
      now apply product_target.
    + destruct s1; [|discriminate].
      apply negative_below_zero, round_aux_signed.
      now apply product_target.
    + unfold SFleb in Hle. cbn [SFcompare] in Hle.
      destruct s1, s2; try discriminate.
      * apply (mul_magnitude_monotone m2 m1 mr e2 e1 er); trivial.
        destruct (Z.compare_spec e1 e2); try discriminate; try lia.
        right. split; [lia|].
        change (Pos.compare_cont Eq m1 m2) with (Pos.compare m1 m2) in Hle.
        destruct (Pos.compare_spec m1 m2); try discriminate; lia.
      * apply signed_order; apply round_aux_signed; now apply product_target.
      * apply (mul_magnitude_monotone m1 m2 mr e1 e2 er); trivial.
        destruct (Z.compare_spec e1 e2); try discriminate; try lia.
        right. split; [lia|].
        change (Pos.compare_cont Eq m1 m2) with (Pos.compare m1 m2) in Hle.
        destruct (Pos.compare_spec m1 m2); try discriminate; lia.
Qed.

Set Implicit Arguments.
End RoundFacts.

(** * Rounding errors on binary64

    Every product and every difference of two floats is the float nearest
    to a whole number of units [2^-2148]: the magnitude of the result, in
    units [2^-1074], is within half a step of the exact value, and the
    rounding keeps the order. *)

Module UnitFacts.
Import Binary64 Round RoundFacts Units.
Local Open Scope Z_scope.
Unset Implicit Arguments.

(** Rounding to nearest even is off by at most half a step. *)
Lemma rne_error (M P : Z) :
  0 <= M -> 0 < P -> 2 * Z.abs (rne M P * P - M) <= P.
Proof.
  intros HM HP. unfold rne.
  pose proof (Z.div_mod M P) as E. pose proof (Z.mod_pos_bound M P HP) as B.
  destruct (Z.ltb_spec P (2 * (M mod P))); cbn [orb].
  - nia.
  - destruct (Z.eqb_spec (2 * (M mod P)) P); cbn [andb].
    + destruct (Z.odd (M / P)); nia.
    + nia.
Qed.

(** A whole number of steps is not moved. *)
Lemma rne_exact (M P : Z) : 0 < P -> rne (M * P) P = M.
Proof.
  intros HP. unfold rne.
  rewrite Z.div_mul, Z.mod_mul by lia.
  replace (P <? 2 * 0) with false by (symmetry; apply Z.ltb_ge; lia).
  replace (2 * 0 =? P) with false by (symmetry; apply Z.eqb_neq; lia).
  cbn. lia.
Qed.

(** The result of a rounding is canonical. *)
Lemma norm_valid (s : bool) (r t : Z) :
  0 <= r <= 2 ^ 53 -> -1074 <= t -> 2 ^ 52 <= r \/ t = -1074 ->
  valid_binary prec emax (norm s r t) = true.
Proof.
  intros Hr Ht Hn. unfold norm.
  destruct r as [|p|p]; [reflexivity| |lia].
  destruct (Z.ltb_spec (Zpos p) (2 ^ 53)) as [Hlt|Hge].
  - destruct (Z.leb_spec t 971) as [Hle|]; [|reflexivity].
    cbn [valid_binary]. unfold bounded, canonical_mantissa.
    rewrite fexp_eq. apply andb_true_intro. split.
    + apply Z.eqb_eq.
      destruct (digits2_pos_bounds p) as [Hlo Hhi].
      assert (Hd : Zpos (digits2_pos p) <= 53).
      { assert (Zpos (digits2_pos p) - 1 < 53);
          [apply (Z.pow_lt_mono_r_iff 2); lia | lia]. }
      destruct Hn as [Hn| ->]; [|lia].
      assert (52 < Zpos (digits2_pos p));
        [apply (Z.pow_lt_mono_r_iff 2); lia | lia].
    + apply Z.leb_le. change (emax - prec) with 971. lia.
  - destruct (Z.leb_spec (t + 1) 971) as [Hle|]; [|reflexivity].
    cbn [valid_binary]. unfold bounded, canonical_mantissa.
    rewrite fexp_eq. apply andb_true_intro. split.
    + apply Z.eqb_eq.
      replace (Zpos (digits2_pos (2 ^ 52))) with 53 by reflexivity. lia.
    + apply Z.leb_le. change (emax - prec) with 971. lia.
Qed.

(** The rounding gives a float of the format. *)
Lemma round_aux_valid (s : bool) (M : positive) (E : Z) :
  E <= fexp prec emax (Zpos (digits2_pos M) + E) ->
  valid_binary prec emax (binary_round_aux prec emax s (Zpos M) E loc_Exact)
  = true.
Proof.
  intros Hn. rewrite round_aux_spec by exact Hn.
  rewrite fexp_eq in *.
  set (d := Zpos (digits2_pos M)) in *.
  set (t := Z.max (d + E - 53) (-1074)) in *.
  destruct (digits2_pos_bounds M) as [Hlo Hhi]. fold d in Hlo, Hhi.
  assert (HP : 0 < 2 ^ (t - E)) by (apply Z.pow_pos_nonneg; lia).
  destruct (rne_bounds (Zpos M) (2 ^ (t - E))) as [H1 H2]; try lia.
  assert (0 <= Zpos M / 2 ^ (t - E)) by (apply Z.div_pos; lia).
  assert (Zpos M / 2 ^ (t - E) < 2 ^ 53).
  { apply Z.div_lt_upper_bound; [lia|].
    rewrite <- Z.pow_add_r by lia.
    apply Z.lt_le_trans with (1 := Hhi). apply Z.pow_le_mono_r; lia. }
  apply norm_valid; [lia|lia|].
  destruct (Z.eq_dec t (-1074)) as [|Hne]; [now right|left].
  apply Z.le_trans with (2 := H1).
  apply Z.div_le_lower_bound; [lia|].
  rewrite <- Z.pow_add_r by lia.
  replace (t - E + 52) with (d - 1) by lia. exact Hlo.
Qed.

(** The magnitude of a rounding that does not overflow. *)
Lemma norm_units (s : bool) (r t : Z) :
  0 <= r <= 2 ^ 53 -> -1074 <= t < 971 ->
  units (norm s r t) = r * 2 ^ (t + 1074).
Proof.
  intros Hr Ht. unfold norm.
  destruct r as [|p|p]; [reflexivity| |lia].
  destruct (Z.ltb_spec (Zpos p) (2 ^ 53)) as [Hlt|Hge].
  - destruct (Z.leb_spec t 971); [reflexivity|lia].
  - destruct (Z.leb_spec (t + 1) 971); [|lia].
    cbn [units]. replace (t + 1 + 1074) with (t + 1074 + 1) by lia.
    rewrite Z.pow_add_r by lia.
    replace (Zpos p) with (2 ^ 53) by lia.
    change (Zpos (2 ^ 52)) with (2 ^ 52). change (2 ^ 53) with (2 ^ 52 * 2).
    change (2 ^ 1) with 2. ring.
Qed.

(** Below the largest exponent the normalised result is finite. *)
Lemma norm_finite (s : bool) (r t : Z) :
  0 <= r <= 2 ^ 53 -> -1074 <= t < 971 ->
  finite_or_zero (norm s r t) = true.
Proof.
  intros Hr Ht. unfold norm.
  destruct r as [|p|p]; [reflexivity| |lia].
  destruct (Z.ltb_spec (Zpos p) (2 ^ 53)) as [Hlt|Hge].
  - destruct (Z.leb_spec t 971); [reflexivity|lia].
  - destruct (Z.leb_spec (t + 1) 971); [reflexivity|lia].
Qed.

(** The normalised result has the sign it is given. *)
Lemma norm_signed (s : bool) (r t : Z) :
  0 <= r -> signed s (norm s r t).
Proof.
  intros Hr. unfold norm. destruct r as [|p|p]; [reflexivity| |lia].
  repeat match goal with |- context [if ?c then _ else _] => destruct c end;
    reflexivity.
Qed.

(** The closed form of [rounded]. *)
Lemma rounded_spec (s : bool) (W : positive) :
  let t := fexp prec emax (Zpos (digits2_pos W) - 2148) in
  rounded s (Zpos W) = norm s (rne (Zpos W) (2 ^ (t + 2148))) t.
Proof.
  intros t. unfold rounded. rewrite round_aux_spec.
  - replace (Zpos (digits2_pos W) + -2148)
      with (Zpos (digits2_pos W) - 2148) by lia.
    fold t. now replace (t - -2148) with (t + 2148) by lia.
  - rewrite fexp_eq. lia.
Qed.

(** Rounding a number of [d] bits to 53 bits gives at most [2^53]. *)
Lemma rne_upper (M P : Z) (d : Z) :
  0 <= M < 2 ^ d -> 0 <= d - 53 -> P = 2 ^ (d - 53) ->
  0 <= rne M P <= 2 ^ 53.
Proof.
  intros HM Hd ->.
  assert (HP : 0 < 2 ^ (d - 53)) by (apply Z.pow_pos_nonneg; lia).
  destruct (rne_bounds M (2 ^ (d - 53))) as [H1 H2]; try lia.
  assert (0 <= M / 2 ^ (d - 53)) by (apply Z.div_pos; lia).
  assert (M / 2 ^ (d - 53) < 2 ^ 53); [|lia].
  apply Z.div_lt_upper_bound; [lia|].
  rewrite <- Z.pow_add_r by lia. now replace (d - 53 + 53) with d by lia.
Qed.

(** What is known of a rounding: its grid exponent [t], its mantissa [r],
    and the half-grid error. *)
Lemma rounded_facts (s : bool) (W : positive) :
  let t := fexp prec emax (Zpos (digits2_pos W) - 2148) in
  let r := rne (Zpos W) (2 ^ (t + 2148)) in
  rounded s (Zpos W) = norm s r t
  /\ 0 <= r <= 2 ^ 53
  /\ 2 * Z.abs (r * 2 ^ (t + 2148) - Zpos W) <= 2 ^ (t + 2148).
Proof.
  intros t r. split; [apply rounded_spec|].
  assert (Ht : -1074 <= t /\ Zpos (digits2_pos W) - 2148 - 53 <= t)
    by (subst t; rewrite fexp_eq; lia).
  assert (HP : 0 < 2 ^ (t + 2148)) by (apply Z.pow_pos_nonneg; lia).
  split; [|apply rne_error; lia].
  destruct (digits2_pos_bounds W) as [Hlo Hhi].
  apply (rne_upper (Zpos W) (2 ^ (t + 2148)) (t + 2148 + 53)); try lia.
  - split; [lia|]. apply Z.lt_le_trans with (1 := Hhi).
    apply Z.pow_le_mono_r; lia.
  - f_equal. lia.
Qed.

(** The nearest float is a float of the format. *)
Lemma rounded_valid (s : bool) (W : positive) :
  valid_binary prec emax (rounded s (Zpos W)) = true.
Proof. apply round_aux_valid. rewrite fexp_eq. lia. Qed.

(** The nearest float has the sign it is given. *)
Lemma rounded_signed (s : bool) (W : positive) :
  signed s (rounded s (Zpos W)).
Proof. apply round_aux_signed. rewrite fexp_eq. lia. Qed.

(** The nearest float keeps the order of the whole numbers, and reverses
    it under a negative sign. *)
Lemma rounded_monotone (W1 W2 : Z) :
  0 < W1 <= W2 ->
  SFleb (rounded false W1) (rounded false W2) = true
  /\ SFleb (rounded true W2) (rounded true W1) = true.
Proof.
  intros H. destruct W1 as [|p1|p1], W2 as [|p2|p2]; try lia.
  apply round_aux_monotone; [rewrite fexp_eq|]; lia.
Qed.

(** Canonical mantissas and exponents. *)
Lemma bounded_facts (m : positive) (e : Z) :
  bounded prec emax m e = true ->
  -1074 <= e <= 971 /\ Zpos m < 2 ^ 53
  /\ (2 ^ 52 <= Zpos m \/ e = -1074).
Proof.
  intros Hb. apply bounded_canonical in Hb as [Hc He].
  destruct (digits2_pos_bounds m) as [Hlo Hhi].
  assert (Hd : Zpos (digits2_pos m) <= 53) by lia.
  split; [lia|]. split.
  - apply Z.lt_le_trans with (1 := Hhi). apply Z.pow_le_mono_r; lia.
  - destruct (Z.eq_dec e (-1074)) as [|Hne]; [now right|left].
    assert (Zpos (digits2_pos m) = 53) by lia.
    replace 52 with (Zpos (digits2_pos m) - 1) by lia. exact Hlo.
Qed.

(** Rounding a float gives the float. *)
Lemma rounded_exact (s : bool) (m : positive) (e : Z) :
  bounded prec emax m e = true ->
  rounded s (Zpos m * 2 ^ (e + 1074) * 2 ^ 1074) = S754_finite s m e.
Proof.
  intros Hb. pose proof (bounded_canonical m e Hb) as [Hc He].
  pose proof (bounded_facts m e Hb) as (Hr & Hm & _).
  unfold rounded.
  assert (HP : 0 < 2 ^ (e + 2148)) by (apply Z.pow_pos_nonneg; lia).
  replace (Zpos m * 2 ^ (e + 1074) * 2 ^ 1074)
    with (Zpos (Z.to_pos (Zpos m * 2 ^ (e + 2148)))).
  2:{ rewrite Z2Pos.id by lia. rewrite <- Z.mul_assoc, <- Z.pow_add_r by lia.
      do 2 f_equal. lia. }
  replace (-2148) with (e - (e + 2148)) by lia.
  rewrite (round_aux_shift s m _ e (e + 2148)).
  - rewrite round_aux_spec by (rewrite fexp_eq; lia).
    rewrite fexp_eq, Hc, Z.sub_diag. change (2 ^ 0) with 1.
    replace (rne (Zpos m) 1) with (Zpos m)
      by (rewrite <- (Z.mul_1_r (Zpos m)) at 2; now rewrite rne_exact).
    unfold norm.
    destruct (Z.ltb_spec (Zpos m) (2 ^ 53)); [|lia].
    destruct (Z.leb_spec e 971); [reflexivity|lia].
  - lia.
  - rewrite Z2Pos.id by lia. reflexivity.
  - rewrite fexp_eq. lia.
Qed.

(** The product of two floats is the rounding of the product of their
    magnitudes. *)
Lemma SFmul_rounded (sx sy : bool) (mx my : positive) (ex ey : Z) :
  bounded prec emax mx ex = true -> bounded prec emax my ey = true ->
  SFmul prec emax (S754_finite sx mx ex) (S754_finite sy my ey)
  = rounded (xorb sx sy)
      (units (S754_finite sx mx ex) * units (S754_finite sy my ey)).
Proof.
  intros Hx Hy. cbn [SFmul units].
  pose proof (bounded_facts mx ex Hx) as (Hex & _).
  pose proof (bounded_facts my ey Hy) as (Hey & _).
  unfold rounded.
  assert (HP : 0 < 2 ^ (ex + ey + 2148)) by (apply Z.pow_pos_nonneg; lia).
  replace (Zpos mx * 2 ^ (ex + 1074) * (Zpos my * 2 ^ (ey + 1074)))
    with (Zpos (Z.to_pos (Zpos (mx * my) * 2 ^ (ex + ey + 2148)))).
  2:{ rewrite Z2Pos.id by lia. rewrite Pos2Z.inj_mul.
      replace (ex + ey + 2148) with ((ex + 1074) + (ey + 1074)) by lia.
      rewrite Z.pow_add_r by lia. ring. }
  replace (-2148) with (ex + ey - (ex + ey + 2148)) by lia.
  symmetry. apply round_aux_shift.
  - lia.
  - rewrite Z2Pos.id by lia. reflexivity.
  - now apply product_target.
Qed.

(** Shifting a mantissa to the left multiplies it by a power of two. *)
Lemma iter_xO (m d : positive) :
  Zpos (Pos.iter xO m d) = Zpos m * 2 ^ Zpos d.
Proof.
  induction d as [|d IH] using Pos.peano_ind.
  - cbn. lia.
  - rewrite Pos.iter_succ, Pos2Z.inj_succ, Z.pow_succ_r by lia.
    rewrite Pos2Z.inj_xO, IH. ring.
Qed.

(** The alignment of a mantissa to a lower exponent. *)
Lemma shl_align_spec (m : positive) (e e' : Z) :
  let '(mz, ez) := shl_align m e e' in
  ez = Z.min e e' /\ Zpos mz = Zpos m * 2 ^ (e - ez).
Proof.
  unfold shl_align. destruct (e' - e) as [|d|d] eqn:Ed.
  - split; [lia|]. rewrite Z.sub_diag. cbn. lia.
  - split; [lia|]. rewrite Z.sub_diag. cbn. lia.
  - split; [lia|]. rewrite iter_xO. do 2 f_equal. lia.
Qed.

(** [binary_round] is the rounding of the magnitude. *)
Lemma binary_round_rounded (s : bool) (M : positive) (E : Z) :
  -2148 <= E ->
  binary_round prec emax s M E = rounded s (Zpos M * 2 ^ (E + 2148)).
Proof.
  intros HE. unfold binary_round.
  pose proof (shl_align_spec M E (fexp prec emax (Zpos (digits2_pos M) + E)))
    as Hal.
  destruct (shl_align M E (fexp prec emax (Zpos (digits2_pos M) + E)))
    as [mz ez].
  destruct Hal as [Hez Hmz]. rewrite fexp_eq in Hez.
  assert (Hd : Zpos (digits2_pos mz) = Zpos (digits2_pos M) + (E - ez)).
  { apply digits2_pos_unique. destruct (digits2_pos_bounds M) as [Hlo Hhi].
    rewrite Hmz. replace (Zpos (digits2_pos M) + (E - ez) - 1)
      with (Zpos (digits2_pos M) - 1 + (E - ez)) by lia.
    rewrite !Z.pow_add_r by lia.
    assert (0 < 2 ^ (E - ez)) by (apply Z.pow_pos_nonneg; lia). nia. }
  unfold rounded.
  assert (HP : 0 < 2 ^ (E + 2148)) by (apply Z.pow_pos_nonneg; lia).
  replace (Zpos M * 2 ^ (E + 2148))
    with (Zpos (Z.to_pos (Zpos mz * 2 ^ (ez + 2148)))).
  2:{ assert (0 < 2 ^ (ez + 2148)) by (apply Z.pow_pos_nonneg; lia).
      rewrite Z2Pos.id by lia. rewrite Hmz, <- Z.mul_assoc.
      rewrite <- Z.pow_add_r by lia. do 2 f_equal. lia. }
  replace (-2148) with (ez - (ez + 2148)) by lia.
  symmetry. apply round_aux_shift.
  - lia.
  - assert (0 < 2 ^ (ez + 2148)) by (apply Z.pow_pos_nonneg; lia).
    rewrite Z2Pos.id by lia. reflexivity.
  - rewrite fexp_eq, Hd. lia.
Qed.

(** The difference of two floats of the same sign, the larger magnitude
    first, is the rounding of the difference of the magnitudes. *)
Lemma SFsub_rounded (s : bool) (mx my : positive) (ex ey : Z) :
  bounded prec emax mx ex = true -> bounded prec emax my ey = true ->
  Zpos my * 2 ^ (ey + 1074) < Zpos mx * 2 ^ (ex + 1074) ->
  SFsub prec emax (S754_finite s mx ex) (S754_finite s my ey)
  = rounded s
      ((Zpos mx * 2 ^ (ex + 1074) - Zpos my * 2 ^ (ey + 1074)) * 2 ^ 1074).
Proof.
  intros Hx Hy Hlt. cbn [SFsub].
  pose proof (bounded_facts mx ex Hx) as (Hex & _).
  pose proof (bounded_facts my ey Hy) as (Hey & _).
  set (ez := Z.min ex ey).
  pose proof (shl_align_spec mx ex ez) as Hax.
  pose proof (shl_align_spec my ey ez) as Hay.
  destruct (shl_align mx ex ez) as [ax ex'], (shl_align my ey ez) as [ay ey'].
  cbn [fst]. destruct Hax as [Hex' Hax], Hay as [Hey' Hay].
  assert (Hez : -1074 <= ez) by (subst ez; lia).
  assert (Ee : ex' = ez /\ ey' = ez) by (subst ez; lia).
  destruct Ee as [-> ->]. clear Hex' Hey'.
  assert (HPz : 0 < 2 ^ (ez + 1074)) by (apply Z.pow_pos_nonneg; lia).
  assert (Ex : Zpos mx * 2 ^ (ex + 1074) = Zpos ax * 2 ^ (ez + 1074)).
  { rewrite Hax, <- Z.mul_assoc, <- Z.pow_add_r by (subst ez; lia).
    do 2 f_equal. lia. }
  assert (Ey : Zpos my * 2 ^ (ey + 1074) = Zpos ay * 2 ^ (ez + 1074)).
  { rewrite Hay, <- Z.mul_assoc, <- Z.pow_add_r by (subst ez; lia).
    do 2 f_equal. lia. }
  rewrite Ex, Ey in *.
  assert (Hpos : 0 < Zpos ax - Zpos ay) by nia.
  assert (Hfin : (Zpos ax * 2 ^ (ez + 1074) - Zpos ay * 2 ^ (ez + 1074))
                 * 2 ^ 1074
                 = (Zpos ax - Zpos ay) * 2 ^ (ez + 2148)).
  { replace (ez + 2148) with (ez + 1074 + 1074) by lia.
    rewrite (Z.pow_add_r 2 (ez + 1074) 1074) by lia. ring. }
  rewrite Hfin.
  destruct s; cbn [cond_Zopp].
  - replace (- Zpos ax - - Zpos ay) with (- (Zpos ax - Zpos ay)) by lia.
    destruct (Zpos ax - Zpos ay) as [|p|p] eqn:Ep; try lia.
    cbn [Z.opp binary_normalize]. apply binary_round_rounded. lia.
  - destruct (Zpos ax - Zpos ay) as [|p|p] eqn:Ep; try lia.
    cbn [binary_normalize]. apply binary_round_rounded. lia.
Qed.

(** The order of two positive floats is the order of their magnitudes. *)
Lemma SFleb_units (m1 m2 : positive) (e1 e2 : Z) :
  bounded prec emax m1 e1 = true -> bounded prec emax m2 e2 = true ->
  SFleb (S754_finite false m1 e1) (S754_finite false m2 e2) = true ->
  Zpos m1 * 2 ^ (e1 + 1074) <= Zpos m2 * 2 ^ (e2 + 1074).
Proof.
  intros H1 H2. pose proof (bounded_facts m1 e1 H1) as (He1 & Hm1 & _).
  pose proof (bounded_facts m2 e2 H2) as (He2 & Hm2 & Hn2).
  unfold SFleb. cbn [SFcompare].
  destruct (Z.compare_spec e1 e2) as [->|Hlt|Hgt]; try discriminate.
  - change (Pos.compare_cont Eq m1 m2) with (Pos.compare m1 m2).
    destruct (Pos.compare_spec m1 m2); try discriminate; intros _.
    + subst. lia.
    + assert (0 < 2 ^ (e2 + 1074)) by (apply Z.pow_pos_nonneg; lia). nia.
  - intros _. destruct Hn2 as [Hn2|]; [|lia].
    assert (0 < 2 ^ (e1 + 1074)) by (apply Z.pow_pos_nonneg; lia).
    apply Z.le_trans with (2 ^ 53 * 2 ^ (e1 + 1074)); [nia|].
    apply Z.le_trans with (2 ^ 52 * 2 ^ (e2 + 1074)).
    + rewrite <- !Z.pow_add_r by lia. apply Z.pow_le_mono_r; lia.
    + assert (0 < 2 ^ (e2 + 1074)) by (apply Z.pow_pos_nonneg; lia). nia.
Qed.

Set Implicit Arguments.
End UnitFacts.

(** * The loan amount and the house price

    For a down payment of at most half the price, the rounded difference
    [housePrice - housePrice * d] keeps the order of the house prices: the
    down payments of two prices differ by less than the prices do, up to
    half a step of each rounding, and the steps are whole. *)

Module LoanFacts.
Import Binary64 Round RoundFacts Units UnitFacts.
Local Open Scope Z_scope.
Unset Implicit Arguments.

(** A number below [2^n] has at most [n] bits. *)
Lemma digits_upper (W : positive) (n : Z) :
  Zpos W < 2 ^ n -> Zpos (digits2_pos W) <= n.
Proof.
  intros H. destruct (digits2_pos_bounds W) as [Hlo _].
  assert (0 <= n).
  { destruct (Z.le_gt_cases 0 n); trivial.
    rewrite Z.pow_neg_r in H; lia. }
  assert (Zpos (digits2_pos W) - 1 < n);
    [apply (Z.pow_lt_mono_r_iff 2); lia | lia].
Qed.

(** A down payment rounded from at most half the price is below the
    price. *)
Lemma below_price (A P W U S : Z) :
  0 < S -> 2 * Z.abs (A * S - W) <= U * S -> 2 * W <= P * S -> U < P ->
  A < P.
Proof. intros HS He HW HU. nia. Qed.

Section DownPayment.
Variables (md : positive) (ed : Z).
Hypothesis Hd : bounded prec emax md ed = true.
Let Dd := Zpos md * 2 ^ (ed + 1074).
Hypothesis Hhalf : Dd <= 2 ^ 1073.

Let d := S754_finite false md ed.

(** The rounded down payment on a positive price: its magnitude [A], the
    exponent [j] of its grid, and the half-grid error. *)
Lemma down_payment_facts (mp : positive) (ep : Z) :
  bounded prec emax mp ep = true ->
  let p := S754_finite false mp ep in
  let P := Zpos mp * 2 ^ (ep + 1074) in
  exists A j,
    units (SFmul prec emax p d) = A
    /\ (SFmul prec emax p d = S754_zero false
        \/ exists ma ea, SFmul prec emax p d = S754_finite false ma ea
                         /\ bounded prec emax ma ea = true)
    /\ 0 <= A < P
    /\ 0 <= j /\ (j <= ep + 1073 \/ j = 0)
    /\ 2 * Z.abs (A * 2 ^ 1074 - P * Dd) <= 2 ^ j * 2 ^ 1074
    /\ (Zpos mp = 2 ^ 52 -> -1074 < ep ->
        A * 2 ^ 1074 = P * Dd \/ j <= ep + 1072 \/ j = 0).
Proof.
  intros Hp p P.
  pose proof (bounded_facts mp ep Hp) as (Hep & Hmp & Hnp).
  pose proof (bounded_facts md ed Hd) as (Hed & Hmd & Hnd).
  assert (HK : 0 < 2 ^ (ep + 1074)) by (apply Z.pow_pos_nonneg; lia).
  assert (HDd : 0 < Dd)
   by (subst Dd; assert (0 < 2 ^ (ed + 1074))
         by (apply Z.pow_pos_nonneg; lia); nia).
  assert (HP : 0 < P) by (subst P; nia).
  assert (HS : 0 < 2 ^ 1074) by (apply Z.pow_pos_nonneg; lia).
  assert (HS2 : 2 ^ 1074 = 2 * 2 ^ 1073) by reflexivity.
  unfold p, d. rewrite SFmul_rounded by assumption. cbn [xorb units].
  fold P Dd.
  destruct (P * Dd) as [|W|W] eqn:EW; try nia.
  pose proof (rounded_facts false W) as Hf. cbv zeta in Hf.
  destruct Hf as (Er & Hr & Herr).
  pose proof (rounded_valid false W) as Hv.
  rewrite fexp_eq in *.
  set (dW := Zpos (digits2_pos W)) in *.
  set (t := Z.max (dW - 2148 - 53) (-1074)) in *.
  set (r := rne (Zpos W) (2 ^ (t + 2148))) in *.
  (* the size of the product *)
  assert (HWup : Zpos W < 2 ^ (ep + 2200)).
  { rewrite <- EW. apply Z.lt_le_trans with (2 ^ 53 * 2 ^ (ep + 1074) * Dd).
    - apply Z.mul_lt_mono_pos_r; [exact HDd|]. subst P.
      apply Z.mul_lt_mono_pos_r; lia.
    - apply Z.le_trans with (2 ^ 53 * 2 ^ (ep + 1074) * 2 ^ 1073).
      + apply Z.mul_le_mono_nonneg_l; [|exact Hhalf].
        apply Z.mul_nonneg_nonneg; lia.
      + rewrite <- !Z.pow_add_r by lia. apply Z.pow_le_mono_r; lia. }
  assert (HdW : dW <= ep + 2200) by (now apply digits_upper).
  assert (Ht : -1074 <= t < 971) by lia.
  assert (Hj : t + 1074 <= ep + 1073 \/ t + 1074 = 0) by lia.
  assert (Eu : units (rounded false (Zpos W)) = r * 2 ^ (t + 1074)).
  { rewrite Er. apply norm_units; lia. }
  assert (Hpow : 2 ^ (t + 2148) = 2 ^ (t + 1074) * 2 ^ 1074).
  { rewrite <- Z.pow_add_r by lia. f_equal. lia. }
  assert (HU : 0 < 2 ^ (t + 1074)) by (apply Z.pow_pos_nonneg; lia).
  rewrite Hpow in Herr.
  assert (Herr' : 2 * Z.abs (r * 2 ^ (t + 1074) * 2 ^ 1074 - Zpos W)
                  <= 2 ^ (t + 1074) * 2 ^ 1074).
  { rewrite <- Z.mul_assoc. exact Herr. }
  exists (r * 2 ^ (t + 1074)), (t + 1074).
  split; [exact Eu|].
  assert (HW2 : 2 * Zpos W <= P * 2 ^ 1074).
  { rewrite <- EW, HS2.
    replace (P * (2 * 2 ^ 1073)) with (2 * (P * 2 ^ 1073)) by ring.
    apply Z.mul_le_mono_nonneg_l; [lia|].
    apply Z.mul_le_mono_nonneg_l; lia. }
  assert (Hr0 : 0 <= r * 2 ^ (t + 1074))
    by (apply Z.mul_nonneg_nonneg; lia).
  assert (HA : 0 <= r * 2 ^ (t + 1074) < P).
  { split; [exact Hr0|].
    assert (HKP : 2 ^ (ep + 1074) <= P).
    { subst P. rewrite <- (Z.mul_1_l (2 ^ (ep + 1074))) at 1.
      apply Z.mul_le_mono_nonneg_r; lia. }
    destruct Hj as [Hj|Hj].
    - (* the grid is finer than the price *)
      assert (2 * 2 ^ (t + 1074) <= 2 ^ (ep + 1074)).
      { change 2 with (2 ^ 1) at 1. rewrite <- Z.pow_add_r by lia.
        apply Z.pow_le_mono_r; lia. }
      apply (below_price _ P (Zpos W) (2 ^ (t + 1074)) (2 ^ 1074));
        trivial; lia.
    - (* the least grid *)
      rewrite Hj in *. change (2 ^ 0) with 1 in *.
      destruct (Z.eq_dec P 1) as [HP1|HP1].
      + assert (Hr1 : r = 0).
        { subst r. replace (t + 2148) with 1074 by lia. unfold rne.
          assert (HW : 2 * Zpos W <= 2 ^ 1074) by (rewrite HP1 in HW2; lia).
          rewrite Z.div_small, Z.mod_small by lia.
          replace (2 ^ 1074 <? 2 * Zpos W) with false
            by (symmetry; apply Z.ltb_ge; lia).
          cbn [orb Z.odd andb]. rewrite andb_false_r. reflexivity. }
        rewrite Hr1. lia.
      + apply (below_price _ P (Zpos W) 1 (2 ^ 1074)); trivial; lia. }
  split.
  { assert (Hfin : finite_or_zero (rounded false (Zpos W)) = true)
      by (rewrite Er; apply norm_finite; lia).
    pose proof (rounded_signed false W) as Hs.
    destruct (rounded false (Zpos W)) as [s| | |s ma ea];
      try discriminate; cbn in Hs; subst s.
    - now left.
    - right. exists ma, ea. split; [reflexivity|]. exact Hv. }
  split; [exact HA|]. split; [lia|]. split; [exact Hj|].
  split; [exact Herr'|].
  (* a price that is a power of two *)
  intros Hm2 Hep1.
  destruct (Z.eq_dec Dd (2 ^ 1073)) as [HD|HD].
  - left.
    assert (EW' : Zpos W = 2 ^ (ep + 2199)).
    { rewrite <- EW. subst P. rewrite Hm2, HD.
      rewrite <- !Z.pow_add_r by lia. f_equal. lia. }
    assert (EdW : dW = ep + 2200).
    { apply digits2_pos_unique. rewrite EW'. split.
      - apply Z.pow_le_mono_r; lia.
      - apply Z.pow_lt_mono_r; lia. }
    assert (Et : t + 2148 <= ep + 2199) by lia.
    assert (Er' : r * 2 ^ (t + 2148) = Zpos W).
    { subst r. rewrite EW'.
      replace (ep + 2199) with (ep + 2199 - (t + 2148) + (t + 2148)) by lia.
      rewrite Z.pow_add_r by lia.
      rewrite rne_exact by (apply Z.pow_pos_nonneg; lia). reflexivity. }
    rewrite Hpow in Er'. lia.
  - right.
    assert (HDlt : Dd < 2 ^ 1073) by lia.
    assert (Zpos W < 2 ^ (ep + 2199)).
    { rewrite <- EW. subst P. rewrite Hm2.
      replace (ep + 2199) with (52 + (ep + 1074) + 1073) by lia.
      rewrite (Z.pow_add_r 2 (52 + (ep + 1074)) 1073) by lia.
      rewrite (Z.pow_add_r 2 52 (ep + 1074)) by lia.
      apply Z.mul_lt_mono_pos_l; [|exact HDlt].
      apply Z.mul_pos_pos; lia. }
    assert (dW <= ep + 2199) by (now apply digits_upper).
    lia.
Qed.

(** The loan amount on a positive price is the rounding of the price less
    the rounded down payment. *)
Lemma loan_rounded (mp : positive) (ep : Z) (A : Z) :
  bounded prec emax mp ep = true ->
  let p := S754_finite false mp ep in
  let P := Zpos mp * 2 ^ (ep + 1074) in
  units (SFmul prec emax p d) = A ->
  (SFmul prec emax p d = S754_zero false
   \/ exists ma ea, SFmul prec emax p d = S754_finite false ma ea
                    /\ bounded prec emax ma ea = true) ->
  0 <= A < P ->
  SFsub prec emax p (SFmul prec emax p d)
  = rounded false ((P - A) * 2 ^ 1074).
Proof.
  intros Hp p P EA Hform HA.
  destruct Hform as [Ez|(ma & ea & Ea & Hb)].
  - rewrite Ez in *. cbn in EA. subst A. unfold p. cbn [SFsub].
    rewrite Z.sub_0_r. subst P. symmetry. now apply rounded_exact.
  - rewrite Ea in *. cbn [units] in EA. subst A. unfold p.
    apply SFsub_rounded; trivial. subst P. lia.
Qed.
End DownPayment.

(** The gap between two rounded down payments is at most the gap between
    the prices, when the two grids are fine enough. *)
Lemma down_payment_gap (P P' A B Dd S Ua Ub : Z) :
  0 < S -> 0 <= Dd -> 2 * Dd <= S -> P <= P' ->
  2 * Z.abs (A * S - P * Dd) <= Ua * S ->
  2 * Z.abs (B * S - P' * Dd) <= Ub * S ->
  Ua + Ub <= P' - P + 1 ->
  B - A <= P' - P.
Proof.
  intros HS HD0 HD HP HA HB HU.
  assert (H1 : (P' - P) * (2 * Dd) <= (P' - P) * S)
    by (apply Z.mul_le_mono_nonneg_l; lia).
  assert (H2 : 2 * (B - A) * S <= (2 * (P' - P) + 1) * S) by nia.
  assert (H3 : 2 * (B - A) <= 2 * (P' - P) + 1).
  { apply Z.mul_le_mono_pos_r with S; trivial. }
  lia.
Qed.

(** Two floats in different binades are more than a step of each
    apart, ... *)
Lemma gap_next_binade (K K' m m' : Z) :
  0 < K -> 2 * K <= K' -> 0 < m < 2 ^ 53 -> 2 ^ 52 < m' ->
  K + K' <= m' * K' - m * K.
Proof.
  intros HK HK' Hm Hm'.
  change (2 ^ 53) with 9007199254740992 in *.
  change (2 ^ 52) with 4503599627370496 in *.
  assert (4503599627370497 * K' <= m' * K')
    by (apply Z.mul_le_mono_nonneg_r; lia).
  assert (m * K <= 9007199254740991 * K)
    by (apply Z.mul_le_mono_nonneg_r; lia).
  lia.
Qed.

(** ... and a power of two is at least the smaller step and half
    the larger one above every float below it. *)
Lemma gap_power_of_two (K K' m : Z) :
  0 < K -> 2 * K <= K' -> 0 < m < 2 ^ 53 ->
  K <= 2 ^ 52 * K' - m * K /\ K' <= 2 * (2 ^ 52 * K' - m * K).
Proof.
  intros HK HK' Hm.
  change (2 ^ 53) with 9007199254740992 in *.
  change (2 ^ 52) with 4503599627370496 in *.
  assert (m * K <= 9007199254740991 * K)
    by (apply Z.mul_le_mono_nonneg_r; lia).
  lia.
Qed.

(** Powers of two, for linear arithmetic. *)
Lemma pow_half (j e : Z) :
  0 <= j -> j <= e - 1 -> 2 * 2 ^ j <= 2 ^ e.
Proof.
  intros Hj He. change 2 with (2 ^ 1) at 1.
  rewrite <- Z.pow_add_r by lia. apply Z.pow_le_mono_r; lia.
Qed.

(** Powers of two, two exponents apart. *)
Lemma pow_quarter (j e : Z) :
  0 <= j -> j <= e - 2 -> 4 * 2 ^ j <= 2 ^ e.
Proof.
  intros Hj He. change 4 with (2 ^ 2) at 1.
  rewrite <- Z.pow_add_r by lia. apply Z.pow_le_mono_r; lia.
Qed.

Section Loan.
Variables (md : positive) (ed : Z).
Hypothesis Hd : bounded prec emax md ed = true.
Hypothesis Hhalf : Zpos md * 2 ^ (ed + 1074) <= 2 ^ 1073.

Let d := S754_finite false md ed.

(** The loan amount on a positive price is positive, at most the price,
    and a float. *)
Lemma loan_positive (mp : positive) (ep : Z) :
  bounded prec emax mp ep = true ->
  let p := S754_finite false mp ep in
  let L := SFsub prec emax p (SFmul prec emax p d) in
  signed false L /\ valid_binary prec emax L = true
  /\ finite_or_zero L = true.
Proof.
  intros Hp p L0. subst L0.
  destruct (down_payment_facts md ed Hd Hhalf mp ep Hp)
    as (A & j & EA & Hform & HA & _).
  pose proof (loan_rounded md ed mp ep A Hp EA Hform HA) as EL.
  cbv zeta in EL. fold d p in EL.
  set (L := SFsub prec emax p (SFmul prec emax p d)) in *.
  pose proof (bounded_facts mp ep Hp) as (Hep & _).
  set (P := Zpos mp * 2 ^ (ep + 1074)) in *.
  assert (HS : 0 < 2 ^ 1074) by (apply Z.pow_pos_nonneg; lia).
  assert (HV : 0 < (P - A) * 2 ^ 1074) by (apply Z.mul_pos_pos; lia).
  destruct ((P - A) * 2 ^ 1074) as [|V|V] eqn:EV; try lia.
  assert (Hs : signed false L) by (rewrite EL; apply rounded_signed).
  assert (Hv : valid_binary prec emax L = true)
    by (rewrite EL; apply rounded_valid).
  split; [exact Hs|]. split; [exact Hv|].
  assert (Hle : SFleb L p = true).
  { rewrite EL. unfold p. rewrite <- (rounded_exact false mp ep Hp).
    apply rounded_monotone. fold P. split; [lia|].
    rewrite <- EV. apply Z.mul_le_mono_nonneg_r; lia. }
  destruct L as [s|s| |s m e]; try reflexivity; cbn in Hs;
    try contradiction; subst s; discriminate Hle.
Qed.

(** Between positive prices the loan amount keeps the order. *)
Lemma loan_monotone_positive (mp mp' : positive) (ep ep' : Z) :
  bounded prec emax mp ep = true -> bounded prec emax mp' ep' = true ->
  SFleb (S754_finite false mp ep) (S754_finite false mp' ep') = true ->
  let p := S754_finite false mp ep in
  let p' := S754_finite false mp' ep' in
  SFleb (SFsub prec emax p (SFmul prec emax p d))
        (SFsub prec emax p' (SFmul prec emax p' d)) = true.
Proof.
  intros Hp Hp' Hle p p'. subst p p'. unfold d.
  pose proof (SFleb_units mp mp' ep ep' Hp Hp' Hle) as HPP.
  destruct (down_payment_facts md ed Hd Hhalf mp ep Hp)
    as (A & j & EA & Hform & HA & Hj0 & Hj & Herr & _).
  destruct (down_payment_facts md ed Hd Hhalf mp' ep' Hp')
    as (B & j' & EB & Hform' & HB & Hj0' & Hj' & Herr' & Hpow').
  rewrite (loan_rounded md ed mp ep A Hp EA Hform HA).
  rewrite (loan_rounded md ed mp' ep' B Hp' EB Hform' HB).
  pose proof (bounded_facts mp ep Hp) as (Hep & Hmp & Hnp).
  pose proof (bounded_facts mp' ep' Hp') as (Hep' & Hmp' & Hnp').
  pose proof (bounded_facts md ed Hd) as (Hed & _).
  set (P := Zpos mp * 2 ^ (ep + 1074)) in *.
  set (P' := Zpos mp' * 2 ^ (ep' + 1074)) in *.
  set (Dd := Zpos md * 2 ^ (ed + 1074)) in *.
  assert (HS : 0 < 2 ^ 1074) by (apply Z.pow_pos_nonneg; lia).
  assert (HS2 : 2 ^ 1074 = 2 * 2 ^ 1073) by reflexivity.
  assert (HD0 : 0 <= Dd).
  { subst Dd. apply Z.mul_nonneg_nonneg; [lia|].
    apply Z.pow_nonneg; lia. }
  apply rounded_monotone. split; [apply Z.mul_pos_pos; lia|].
  apply Z.mul_le_mono_nonneg_r; [lia|].
  assert (Hgoal : B - A <= P' - P); [|lia].
  set (K := 2 ^ (ep + 1074)) in *. set (K' := 2 ^ (ep' + 1074)) in *.
  assert (HK : 0 < K) by (apply Z.pow_pos_nonneg; lia).
  assert (HK' : 0 < K') by (apply Z.pow_pos_nonneg; lia).
  assert (HU : 0 < 2 ^ j) by (apply Z.pow_pos_nonneg; lia).
  assert (HU' : 0 < 2 ^ j') by (apply Z.pow_pos_nonneg; lia).
  assert (Ha : 2 * 2 ^ j <= K \/ 2 ^ j = 1).
  { destruct Hj as [Hj| ->]; [left|now right].
    apply pow_half; lia. }
  assert (Hb : 2 * 2 ^ j' <= K' \/ 2 ^ j' = 1).
  { destruct Hj' as [Hj'| ->]; [left|now right].
    apply pow_half; lia. }
  assert (HDS : 2 * Dd <= 2 ^ 1074) by (rewrite HS2; lia).
  assert (Hgap : forall Ub,
            2 * Z.abs (B * 2 ^ 1074 - P' * Dd) <= Ub * 2 ^ 1074 ->
            2 ^ j + Ub <= P' - P + 1 -> B - A <= P' - P).
  { intros Ub HerrB HUb.
    now apply (down_payment_gap P P' A B Dd (2 ^ 1074) (2 ^ j) Ub). }
  unfold SFleb in Hle. cbn [SFcompare] in Hle.
  destruct (Z.compare_spec ep ep') as [Ee|Hlt|Hgt]; try discriminate.
  - (* the same exponent *)
    assert (EK : K' = K) by (subst K K'; now rewrite Ee).
    change (Pos.compare_cont Eq mp mp') with (Pos.compare mp mp') in Hle.
    destruct (Pos.compare_spec mp mp') as [Em|Hm|Hm]; try discriminate.
    + assert (EP : P' = P) by (subst P P'; now rewrite EK, Em).
      assert (EAB : B = A).
      { rewrite <- EA, <- EB. now rewrite Em, Ee. }
      clear - EP EAB. lia.
    + assert (Hdelta : K <= P' - P).
      { subst P P'. rewrite EK.
        rewrite <- Z.mul_sub_distr_r.
        rewrite <- (Z.mul_1_l K) at 1.
        apply Z.mul_le_mono_nonneg_r; lia. }
      apply (Hgap (2 ^ j')); [exact Herr'|].
      clear - Ha Hb Hdelta EK HU HU' HK. lia.
  - (* a higher binade *)
    assert (HKK : 2 * K <= K').
    { subst K K'. apply pow_half; lia. }
    destruct Hnp' as [Hnp'|Hnp']; [|clear - Hnp' Hlt Hep; lia].
    destruct (Z.eq_dec (Zpos mp') (2 ^ 52)) as [Em|Hm].
    + destruct (gap_power_of_two K K' (Zpos mp) HK HKK) as [Hd1 Hd2];
        [clear - Hmp; lia|].
      assert (Hdelta : K <= P' - P /\ K' <= 2 * (P' - P)).
      { subst P P'. rewrite Em. split; assumption. }
      destruct (Hpow' Em) as [Hex|Hq]; [clear - Hlt Hep; lia| |].
      * apply (Hgap 0).
        -- rewrite Hex, Z.sub_diag. cbn. clear. lia.
        -- clear - Ha Hdelta HU HK. lia.
      * assert (Hb' : 4 * 2 ^ j' <= K' \/ 2 ^ j' = 1).
        { destruct Hq as [Hq|Hq]; [left|right; now rewrite Hq].
          apply pow_quarter; [exact Hj0'|]. clear - Hq. lia. }
        apply (Hgap (2 ^ j')); [exact Herr'|].
        clear - Ha Hb' Hdelta HKK HU HU' HK. lia.
    + pose proof (gap_next_binade K K' (Zpos mp) (Zpos mp') HK HKK)
        as Hdelta.
      assert (Hdelta' : K + K' <= P' - P).
      { subst P P'. apply Hdelta; [clear - Hmp; lia|].
        clear - Hnp' Hm. lia. }
      apply (Hgap (2 ^ j')); [exact Herr'|].
      clear - Ha Hb Hdelta' HKK HU HU' HK HK'. lia.
Qed.
End Loan.


(** The nearest floats of the two signs are opposite. *)
Lemma rounded_opp (W : positive) :
  rounded true (Zpos W) = SFopp (rounded false (Zpos W)).
Proof.
  rewrite !rounded_spec. unfold norm.
  destruct (rne _ _); try reflexivity;
    repeat match goal with |- context [if ?c then _ else _] => destruct c end;
    reflexivity.
Qed.

(** Changing the sign of both floats reverses their order. *)
Lemma SFleb_opp (x y : float) : SFleb (SFopp x) (SFopp y) = SFleb y x.
Proof.
  unfold SFleb.
  destruct x as [[]|[]| |[] mx ex], y as [[]|[]| |[] my ey];
    try reflexivity; cbn [SFopp SFcompare negb].
  - rewrite (Z.compare_antisym ey ex).
    destruct (Z.compare_spec ey ex); cbn [CompOpp]; try reflexivity.
    change (Pos.compare_cont Eq mx my) with (Pos.compare mx my).
    change (Pos.compare_cont Eq my mx) with (Pos.compare my mx).
    rewrite (Pos.compare_antisym my mx).
    destruct (Pos.compare my mx); reflexivity.
  - rewrite (Z.compare_antisym ey ex).
    destruct (Z.compare_spec ey ex); cbn [CompOpp]; try reflexivity.
    change (Pos.compare_cont Eq mx my) with (Pos.compare mx my).
    change (Pos.compare_cont Eq my mx) with (Pos.compare my mx).
    rewrite (Pos.compare_antisym my mx).
    destruct (Pos.compare my mx); reflexivity.
Qed.

(** The opposite of a float is a float of the format, ... *)
Lemma SFopp_valid (x : float) :
  valid_binary prec emax (SFopp x) = valid_binary prec emax x.
Proof. destruct x; reflexivity. Qed.

(** ... finite when the float is, ... *)
Lemma SFopp_finite (x : float) :
  finite_or_zero (SFopp x) = finite_or_zero x.
Proof. destruct x; reflexivity. Qed.

(** ... and of the other sign. *)
Lemma SFopp_signed (s : bool) (x : float) :
  signed s x -> signed (negb s) (SFopp x).
Proof. destruct x; cbn; try contradiction; now intros ->. Qed.

(** The loan amount on a negative price is the opposite of the loan amount
    on the opposite price. *)
Lemma loan_opp (md mp : positive) (ed ep : Z) :
  bounded prec emax md ed = true ->
  Zpos md * 2 ^ (ed + 1074) <= 2 ^ 1073 ->
  bounded prec emax mp ep = true ->
  let d := S754_finite false md ed in
  SFsub prec emax (S754_finite true mp ep)
    (SFmul prec emax (S754_finite true mp ep) d)
  = SFopp (SFsub prec emax (S754_finite false mp ep)
             (SFmul prec emax (S754_finite false mp ep) d)).
Proof.
  intros Hd Hhalf Hp d. subst d.
  destruct (down_payment_facts md ed Hd Hhalf mp ep Hp)
    as (A & j & EA & Hform & HA & _).
  pose proof (loan_rounded md ed mp ep A Hp EA Hform HA) as EL.
  cbv zeta in EL. rewrite EL.
  pose proof (bounded_facts mp ep Hp) as (Hep & _).
  pose proof (bounded_facts md ed Hd) as (Hed & _).
  assert (Em : SFmul prec emax (S754_finite true mp ep)
                 (S754_finite false md ed)
               = SFopp (SFmul prec emax (S754_finite false mp ep)
                          (S754_finite false md ed))).
  { rewrite !SFmul_rounded by assumption. cbn [xorb units].
    assert (HW : 0 < Zpos mp * 2 ^ (ep + 1074) * (Zpos md * 2 ^ (ed + 1074))).
    { repeat apply Z.mul_pos_pos; try lia; apply Z.pow_pos_nonneg; lia. }
    destruct (Zpos mp * 2 ^ (ep + 1074) * (Zpos md * 2 ^ (ed + 1074)));
      try lia. apply rounded_opp. }
  rewrite Em.
  assert (HS : 0 < 2 ^ 1074) by (apply Z.pow_pos_nonneg; lia).
  assert (HV : 0 < (Zpos mp * 2 ^ (ep + 1074) - A) * 2 ^ 1074)
    by (apply Z.mul_pos_pos; lia).
  destruct Hform as [Ez|(ma & ea & Ea & Hb)].
  - rewrite Ez in *. cbn in EA. subst A. cbn [SFopp negb SFsub].
    rewrite Z.sub_0_r. now rewrite rounded_exact.
  - rewrite Ea in *. cbn [units] in EA. subst A. cbn [SFopp negb].
    rewrite SFsub_rounded by (trivial; lia).
    destruct ((Zpos mp * 2 ^ (ep + 1074) - Zpos ma * 2 ^ (ea + 1074))
              * 2 ^ 1074); try lia.
    apply rounded_opp.
Qed.

(** One half, as a float. *)
Lemma half_units :
  of_Q 0.5 = S754_finite false 4503599627370496 (-53).
Proof. reflexivity. Qed.

(** The loan amount [p - p * d], for a down payment fraction [d] between 0
    and one half: a float that is finite when the price is, with the sign
    of the price. *)
Lemma loan_finite (p d : float) :
  valid_binary prec emax p = true -> valid_binary prec emax d = true ->
  finite_or_zero p = true ->
  finite_not_negative d = true -> SFleb d (of_Q 0.5) = true ->
  let L := SFsub prec emax p (SFmul prec emax p d) in
  valid_binary prec emax L = true /\ finite_or_zero L = true
  /\ match p with
     | S754_finite s _ _ => signed s L
     | _ => L = p \/ L = S754_zero false
     end.
Proof.
  intros Vp Vd Fp Fd Hd L. subst L.
  destruct d as [sd| | |[] md ed]; try discriminate.
  - destruct p as [sp| | |sp mp ep]; try discriminate.
    + destruct sp, sd; cbn; auto.
    + cbn [SFmul SFsub]. repeat split; trivial.
  - cbn [valid_binary] in Vd. rewrite half_units in Hd.
    assert (Hhalf : Zpos md * 2 ^ (ed + 1074) <= 2 ^ 1073).
    { change (2 ^ 1073) with (4503599627370496 * 2 ^ (-53 + 1074)).
      apply SFleb_units; trivial. }
    destruct p as [sp| | |sp mp ep]; try discriminate.
    + destruct sp; cbn; auto.
    + cbn [valid_binary] in Vp.
      pose proof (loan_positive md ed Vd Hhalf mp ep Vp) as HL.
      cbv zeta in HL. destruct HL as (Hs & Hv & Hf).
      destruct sp.
      * rewrite loan_opp by assumption.
        rewrite SFopp_valid, SFopp_finite. repeat split; trivial.
        now apply (SFopp_signed false).
      * repeat split; trivial.
Qed.

(** The loan amount keeps the order of the prices when the down payment
    fraction is between 0 and one half. *)
Theorem loan_monotone (p1 p2 d : float) :
  valid_binary prec emax p1 = true -> valid_binary prec emax p2 = true ->
  valid_binary prec emax d = true ->
  finite_or_zero p1 = true -> finite_or_zero p2 = true ->
  finite_not_negative d = true -> SFleb d (of_Q 0.5) = true ->
  SFleb p1 p2 = true ->
  SFleb (SFsub prec emax p1 (SFmul prec emax p1 d))
        (SFsub prec emax p2 (SFmul prec emax p2 d)) = true.
Proof.
  intros V1 V2 Vd F1 F2 Fd Hd Hle.
  pose proof (loan_finite p1 d V1 Vd F1 Fd Hd) as H1.
  pose proof (loan_finite p2 d V2 Vd F2 Fd Hd) as H2.
  cbv zeta in H1, H2.
  destruct H1 as (_ & Hf1 & Hs1), H2 as (_ & Hf2 & Hs2).
  destruct p1 as [s1| | |s1 m1 e1]; try discriminate;
    destruct p2 as [s2| | |s2 m2 e2]; try discriminate.
  - destruct Hs1 as [-> | ->], Hs2 as [-> | ->]; reflexivity.
  - destruct s2; [discriminate Hle|].
    destruct Hs1 as [-> | ->]; now apply zero_below_positive.
  - destruct s1; [|discriminate Hle].
    destruct Hs2 as [-> | ->]; now apply negative_below_zero.
  - cbn [valid_binary] in V1, V2.
    destruct d as [sd| | |[] md ed]; try discriminate.
    { cbn [SFmul SFsub]. exact Hle. }
    cbn [valid_binary] in Vd. rewrite half_units in Hd.
    assert (Hhalf : Zpos md * 2 ^ (ed + 1074) <= 2 ^ 1073).
    { change (2 ^ 1073) with (4503599627370496 * 2 ^ (-53 + 1074)).
      apply SFleb_units; trivial. }
    destruct s1, s2.
    + rewrite !loan_opp by assumption. rewrite SFleb_opp.
      apply loan_monotone_positive; trivial.
      change (S754_finite true m1 e1)
        with (SFopp (S754_finite false m1 e1)) in Hle.
      change (S754_finite true m2 e2)
        with (SFopp (S754_finite false m2 e2)) in Hle.
      now rewrite SFleb_opp in Hle.
    + now apply signed_order.
    + discriminate Hle.
    + now apply loan_monotone_positive.
Qed.

Set Implicit Arguments.
End LoanFacts.

(** * Dividing and multiplying back

    The quotient of two moderate floats, multiplied by the divisor, is
    within [2^-51] of the dividend. *)

Module QuotientFacts.
Import Binary64 Round RoundFacts Units UnitFacts Quotient.
Local Open Scope Z_scope.
Unset Implicit Arguments.

(** The location of a remainder. *)
Lemma new_location_quarter (n k : Z) :
  0 < n -> 0 <= k < n ->
  let c := quarter (new_location n k) in
  (c = 0 /\ k = 0) \/ (c = 1 /\ 0 < 2 * k < n) \/ (c = 2 /\ 2 * k = n)
  \/ (c = 3 /\ n < 2 * k).
Proof.
  intros Hn Hk c. subst c.
  unfold new_location, new_location_even, new_location_odd.
  destruct (Z.even n) eqn:En.
  - destruct (Z.eqb_spec k 0) as [->|Hk0]; [now left|].
    destruct (Z.compare_spec (2 * k) n); cbn [quarter]; lia.
  - destruct (Z.eqb_spec k 0) as [->|Hk0]; [now left|].
    assert (Ho : Z.odd n = true) by (rewrite <- Z.negb_even, En; reflexivity).
    apply Z.odd_spec in Ho as [z Hz].
    destruct (Z.compare_spec (2 * k + 1) n); cbn [quarter]; lia.
Qed.

(** A quotient with its location rounds as the exact number of quarters. *)
Lemma shr_two (q : Z) (l : location) :
  0 <= q ->
  Nat.iter 2 shr_1 (shr_start (4 * q + quarter l)) = shr_record_of_loc q l.
Proof.
  intros Hq.
  change (Nat.iter 2 shr_1 (shr_start (4 * q + quarter l)))
    with (shr_1 (shr_1 (shr_start (4 * q + quarter l)))).
  unfold shr_start.
  assert (Hc : 0 <= quarter l <= 3) by (destruct l as [|[]]; cbn; lia).
  rewrite shr_1_spec by lia.
  assert (H0 : 0 <= (4 * q + quarter l) / 2) by (apply Z.div_pos; lia).
  rewrite shr_1_spec by exact H0.
  assert (E1 : (4 * q + quarter l) / 2 = 2 * q + quarter l / 2).
  { replace (4 * q + quarter l) with (quarter l + (2 * q) * 2) by lia.
    rewrite Z.div_add by lia. lia. }
  rewrite E1.
  assert (E2 : (2 * q + quarter l / 2) / 2 = q).
  { replace (2 * q + quarter l / 2) with (quarter l / 2 + q * 2) by lia.
    rewrite Z.div_add by lia.
    destruct l as [|[]]; cbn; lia. }
  rewrite E2.
  replace (Z.odd (4 * q + quarter l)) with (Z.odd (quarter l)).
  2:{ replace (4 * q + quarter l) with (quarter l + 2 * (2 * q)) by lia.
      now rewrite Z.odd_add_mul_2. }
  replace (Z.odd (2 * q + quarter l / 2)) with (Z.odd (quarter l / 2)).
  2:{ replace (2 * q + quarter l / 2) with (quarter l / 2 + 2 * q) by lia.
      now rewrite Z.odd_add_mul_2. }
  destruct l as [|[]]; reflexivity.
Qed.

(** Two more bits hold the quarters. *)
Lemma digits_quarters (q : positive) (c : Z) :
  0 <= c <= 3 ->
  Zdigits2 (4 * Zpos q + c) = Zpos (digits2_pos q) + 2.
Proof.
  intros Hc. destruct (4 * Zpos q + c) as [|p|p] eqn:Ep; try lia.
  cbn [Zdigits2]. apply digits2_pos_unique.
  destruct (digits2_pos_bounds q) as [Hlo Hhi]. rewrite <- Ep.
  replace (Zpos (digits2_pos q) + 2 - 1)
    with (Zpos (digits2_pos q) - 1 + 2) by lia.
  rewrite !Z.pow_add_r by lia. change (2 ^ 2) with 4. lia.
Qed.

(** Rounding a mantissa with the place of the exact value is rounding
    the mantissa in quarters, exactly. *)
Lemma round_aux_loc (s : bool) (q : positive) (e : Z) (l : location) :
  e <= fexp prec emax (Zpos (digits2_pos q) + e) ->
  binary_round_aux prec emax s (Zpos q) e l
  = binary_round_aux prec emax s (4 * Zpos q + quarter l) (e - 2) loc_Exact.
Proof.
  intros Hn. unfold binary_round_aux.
  assert (Hc : 0 <= quarter l <= 3) by (destruct l as [|[]]; cbn; lia).
  assert (Es : shr_fexp prec emax (Zpos q) e l
               = shr_fexp prec emax (4 * Zpos q + quarter l) (e - 2)
                   loc_Exact).
  { unfold shr_fexp. rewrite digits_quarters by exact Hc.
    cbn [Zdigits2]. cbn [shr_record_of_loc].
    replace (Zpos (digits2_pos q) + 2 + (e - 2))
      with (Zpos (digits2_pos q) + e) by lia.
    set (t := fexp prec emax (Zpos (digits2_pos q) + e)) in *.
    fold (shr_start (4 * Zpos q + quarter l)).
    rewrite <- (shr_two (Zpos q) l) by lia.
    destruct (t - e) as [|n|n] eqn:En; [| |lia].
    - replace (t - (e - 2)) with 2 by lia. cbn [shr].
      rewrite iter_pos_nat. f_equal. lia.
    - replace (t - (e - 2)) with (Zpos (n + 2)) by lia. cbn [shr].
      rewrite !iter_pos_nat, Pos2Nat.inj_add.
      rewrite Nat.iter_add. f_equal. lia. }
  now rewrite Es.
Qed.


(** Rounding the quarters of a quotient to a grid of at least four
    quarters is within half the grid of the exact quotient. *)
Lemma rne_quotient (q rem n c P' : Z) :
  0 <= q -> 0 < n -> 0 <= rem < n -> 0 < P' ->
  (c = 0 /\ rem = 0) \/ (c = 1 /\ 0 < 2 * rem < n)
  \/ (c = 2 /\ 2 * rem = n) \/ (c = 3 /\ n < 2 * rem) ->
  2 * Z.abs (rne (4 * q + c) (4 * P') * (4 * P') * n - 4 * (q * n + rem))
  <= 4 * P' * n.
Proof.
  intros Hq Hn Hrem HP Hc.
  assert (HP4 : 0 < 4 * P') by lia.
  pose proof (Z.div_mod (4 * q + c) (4 * P') ltac:(lia)) as E.
  pose proof (Z.mod_pos_bound (4 * q + c) (4 * P') HP4) as B.
  unfold rne.
  set (a := (4 * q + c) / (4 * P')) in *.
  set (b := (4 * q + c) mod (4 * P')) in *.
  set (z := P' * a).
  assert (Ez : 4 * q + c = 4 * z + b) by (subst z; lia).
  assert (En : 4 * (q * n) = 4 * (z * n) + b * n - c * n) by nia.
  assert (Ea : forall i, (a + i) * (4 * P') * n
                         = 4 * (z * n) + i * (4 * (P' * n)))
    by (intros i; subst z; ring).
  rewrite Ea. clearbody a b z.
  assert (Hbn : 0 <= b * n) by nia.
  assert (HPn : 0 < P' * n) by nia.
  assert (Hb1 : 2 * b <= 4 * P' - 2 -> 2 * (b * n) <= 4 * (P' * n) - 2 * n)
    by nia.
  assert (Hb2 : 4 * P' + 2 <= 2 * b -> 4 * (P' * n) + 2 * n <= 2 * (b * n))
    by nia.
  assert (Hb3 : 2 * b = 4 * P' -> 2 * (b * n) = 4 * (P' * n)) by nia.
  assert (Hb4 : b * n < 4 * (P' * n)) by nia.
  replace (4 * P' * n) with (4 * (P' * n)) by ring.
  replace (4 * (q * n + rem)) with (4 * (q * n) + 4 * rem) by ring.
  rewrite En.
  generalize dependent (b * n). generalize dependent (P' * n).
  generalize dependent (z * n). intros zn Pn HPn bn Hbn Hb1 Hb2 Hb3 Hb4.
  destruct (Z.ltb_spec (4 * P') (2 * b)) as [Hgt|Hle]; cbn [orb].
  - destruct Hc as [[-> ->]|[[-> H]|[[-> H]|[-> H]]]]; lia.
  - destruct (Z.eqb_spec (2 * b) (4 * P')) as [Heq|Hne]; cbn [andb].
    + destruct (Z.odd a);
        destruct Hc as [[-> ->]|[[-> H]|[[-> H]|[-> H]]]]; lia.
    + destruct Hc as [[-> ->]|[[-> H]|[[-> H]|[-> H]]]]; lia.
Qed.


(** A moderate float has a mantissa of 53 bits. *)
Lemma moderate_facts (s : bool) (m : positive) (e : Z) :
  moderate (S754_finite s m e) = true ->
  bounded prec emax m e = true /\ -500 <= e <= 400
  /\ 2 ^ 52 <= Zpos m < 2 ^ 53 /\ Zpos (digits2_pos m) = 53.
Proof.
  cbn [moderate]. intros H.
  apply andb_prop in H as [H He2]. apply andb_prop in H as [Hb He1].
  apply Z.leb_le in He1, He2.
  pose proof (bounded_facts m e Hb) as (_ & Hm & Hn).
  pose proof (bounded_canonical m e Hb) as [Hc _].
  repeat split; trivial; lia.
Qed.

(** The quotient of two mantissas of 53 bits, scaled, has 53 or 54
    bits. *)
Lemma digits_53_54 (q : positive) :
  2 ^ 52 <= Zpos q < 2 ^ 54 ->
  (Zpos (digits2_pos q) = 53 /\ Zpos q < 2 ^ 53)
  \/ (Zpos (digits2_pos q) = 54 /\ 2 ^ 53 <= Zpos q).
Proof.
  intros Hq. destruct (Z.lt_ge_cases (Zpos q) (2 ^ 53)).
  - left. split; [|lia]. apply digits2_pos_unique. cbn. lia.
  - right. split; [|lia]. apply digits2_pos_unique. cbn. lia.
Qed.

(** The float that a rounding with a mantissa of 53 digits gives. *)
Lemma norm_normal (s : bool) (r t : Z) :
  2 ^ 52 <= r <= 2 ^ 53 -> -1074 <= t < 971 ->
  exists m e,
    norm s r t = S754_finite s m e /\ bounded prec emax m e = true
    /\ 2 ^ 52 <= Zpos m /\ t <= e <= t + 1
    /\ Zpos m * 2 ^ (e - t) = r.
Proof.
  intros Hr Ht.
  pose proof (norm_valid s r t ltac:(lia) ltac:(lia) ltac:(lia)) as Hv.
  unfold norm in *. destruct r as [|p|p]; try lia.
  destruct (Z.ltb_spec (Zpos p) (2 ^ 53)) as [Hlt|Hge].
  - destruct (Z.leb_spec t 971); [|lia].
    exists p, t. rewrite Z.sub_diag. cbn [valid_binary] in Hv.
    repeat split; trivial; lia.
  - destruct (Z.leb_spec (t + 1) 971); [|lia].
    exists (2 ^ 52)%positive, (t + 1). cbn [valid_binary] in Hv.
    replace (t + 1 - t) with 1 by lia.
    repeat split; trivial; lia.
Qed.

(** The quotient of two moderate floats: a normal float within half a unit
    in its last place of the exact quotient. *)
Lemma SFdiv_moderate (sx sy : bool) (mx my : positive) (ex ey : Z) :
  moderate (S754_finite sx mx ex) = true ->
  moderate (S754_finite sy my ey) = true ->
  exists mq eq,
    SFdiv prec emax (S754_finite sx mx ex) (S754_finite sy my ey)
    = S754_finite (xorb sx sy) mq eq
    /\ bounded prec emax mq eq = true
    /\ 2 ^ 52 <= Zpos mq
    /\ 0 <= eq - (ex - ey - 53) <= 2
    /\ 2 * Z.abs (Zpos mq * 2 ^ (eq - (ex - ey - 53)) * Zpos my
                  - Zpos mx * 2 ^ 53)
       <= 2 ^ (eq - (ex - ey - 53)) * Zpos my.
Proof.
  intros Hx Hy.
  apply moderate_facts in Hx as (Hbx & Hex & Hmx & Hdx).
  apply moderate_facts in Hy as (Hby & Hey & Hmy & Hdy).
  cbn [SFdiv]. unfold SFdiv_core_binary. cbn [Zdigits2].
  rewrite Hdx, Hdy, fexp_eq.
  replace (Z.min (Z.max (53 + ex - (53 + ey) - 53) (-1074)) (ex - ey))
    with (ex - ey - 53) by lia.
  replace (ex - ey - (ex - ey - 53)) with 53 by lia.
  rewrite Z.shiftl_mul_pow2 by lia.
  set (e' := ex - ey - 53).
  pose proof (Z_div_mod (Zpos mx * 2 ^ 53) (Zpos my) ltac:(lia)) as Hdiv.
  destruct (Z.div_eucl (Zpos mx * 2 ^ 53) (Zpos my)) as [q rem].
  destruct Hdiv as [Eq Hrem].
  change (2 ^ 53) with 9007199254740992 in *.
  change (2 ^ 52) with 4503599627370496 in *.
  assert (Hq : 4503599627370496 <= q < 18014398509481984) by nia.
  destruct q as [|q|q]; try lia.
  change 4503599627370496 with (2 ^ 52) in Hq.
  change 18014398509481984 with (2 ^ 54) in Hq.
  pose proof (digits_53_54 q Hq) as Hdq.
  set (dq := Zpos (digits2_pos q)) in *.
  assert (Hdq' : dq = 53 \/ dq = 54) by lia.
  rewrite round_aux_loc by (rewrite fexp_eq; fold dq; lia).
  pose proof (new_location_quarter (Zpos my) rem ltac:(lia) Hrem) as Hc.
  cbv zeta in Hc.
  set (c := quarter (new_location (Zpos my) rem)) in *.
  assert (Hc3 : 0 <= c <= 3) by lia.
  assert (Edig : Zdigits2 (4 * Zpos q + c) = dq + 2)
    by (now apply digits_quarters).
  destruct (4 * Zpos q + c) as [|M|M] eqn:EM; try lia.
  cbn [Zdigits2] in Edig.
  rewrite round_aux_spec by (rewrite fexp_eq, Edig; lia).
  rewrite fexp_eq, Edig.
  replace (Z.max (dq + 2 + (e' - 2) - 53) (-1074)) with (dq + e' - 53)
    by lia.
  replace (dq + e' - 53 - (e' - 2)) with (dq - 51) by lia.
  set (P' := 2 ^ (dq - 53)).
  assert (HP' : (P' = 1 /\ Zpos q < 2 ^ 53) \/ (P' = 2 /\ 2 ^ 53 <= Zpos q)).
  { subst P'. destruct Hdq as [[-> ?]|[-> ?]]; [left|right]; now split. }
  assert (EP : 2 ^ (dq - 51) = 4 * P').
  { subst P'. replace (dq - 51) with (2 + (dq - 53)) by lia.
    rewrite Z.pow_add_r by lia. reflexivity. }
  rewrite EP. rewrite <- EM.
  pose proof (rne_quotient (Zpos q) rem (Zpos my) c P' ltac:(lia) ltac:(lia)
                Hrem ltac:(lia) Hc) as Herr.
  pose proof (rne_bounds (4 * Zpos q + c) (4 * P') ltac:(lia) ltac:(lia))
    as Hb.
  set (r := rne (4 * Zpos q + c) (4 * P')) in *.
  assert (Hr : 2 ^ 52 <= r <= 2 ^ 53).
  { change (2 ^ 53) with 9007199254740992 in *.
    change (2 ^ 52) with 4503599627370496 in *.
    destruct HP' as [[-> HqP]|[-> HqP]].
    - assert (4503599627370496 <= (4 * Zpos q + c) / (4 * 1))
        by (apply Z.div_le_lower_bound; lia).
      assert ((4 * Zpos q + c) / (4 * 1) < 9007199254740992)
        by (apply Z.div_lt_upper_bound; lia).
      lia.
    - assert (4503599627370496 <= (4 * Zpos q + c) / (4 * 2))
        by (apply Z.div_le_lower_bound; lia).
      assert ((4 * Zpos q + c) / (4 * 2) < 9007199254740992).
      { apply Z.div_lt_upper_bound; [lia|].
        change (2 ^ 54) with 18014398509481984 in Hq. lia. }
      lia. }
  destruct (norm_normal (xorb sx sy) r (dq + e' - 53) Hr ltac:(lia))
    as (mq & eq & En & Hbq & Hmq & Heq & Evq).
  exists mq, eq. split; [exact En|]. split; [exact Hbq|].
  split; [exact Hmq|]. split; [lia|].
  (* the error, in units of the quotient's exponent *)
  assert (Eg : 2 ^ (eq - e') = 2 ^ (eq - (dq + e' - 53)) * P').
  { subst P'. rewrite <- Z.pow_add_r by lia. f_equal. lia. }
  rewrite Eg.
  assert (Hg : 1 <= 2 ^ (eq - (dq + e' - 53))).
  { assert (0 < 2 ^ (eq - (dq + e' - 53)))
      by (apply Z.pow_pos_nonneg; lia). lia. }
  set (G := 2 ^ (eq - (dq + e' - 53))) in *.
  replace (Zpos mq * (G * P') * Zpos my) with (r * P' * Zpos my)
    by (rewrite <- Evq; ring).
  change (2 ^ 53) with 9007199254740992 in *.
  assert (E4 : 4 * (Zpos q * Zpos my + rem)
               = 4 * (Zpos mx * 9007199254740992))
    by (rewrite Eq; ring).
  rewrite E4 in Herr.
  assert (HPm : 0 < P' * Zpos my) by (destruct HP' as [[-> _]|[-> _]]; lia).
  assert (HG : P' * Zpos my <= G * P' * Zpos my).
  { rewrite <- Z.mul_assoc. rewrite <- (Z.mul_1_l (P' * Zpos my)) at 1.
    apply Z.mul_le_mono_nonneg_r; lia. }
  replace (r * (4 * P') * Zpos my) with (4 * (r * P' * Zpos my)) in Herr
    by ring.
  replace (4 * P' * Zpos my) with (4 * (P' * Zpos my)) in Herr by ring.
  lia.
Qed.


(** The product of two normal floats, when it is neither tiny nor huge: a
    normal float within half a unit in its last place of the exact
    product. *)
Lemma SFmul_normal (sx sy : bool) (mx my : positive) (ex ey : Z) :
  bounded prec emax mx ex = true -> bounded prec emax my ey = true ->
  2 ^ 52 <= Zpos mx -> 2 ^ 52 <= Zpos my -> -1000 <= ex + ey <= 900 ->
  exists mr er,
    SFmul prec emax (S754_finite sx mx ex) (S754_finite sy my ey)
    = S754_finite (xorb sx sy) mr er
    /\ bounded prec emax mr er = true
    /\ 2 ^ 52 <= Zpos mr
    /\ 52 <= er - (ex + ey) <= 54
    /\ 2 * Z.abs (Zpos mr * 2 ^ (er - (ex + ey)) - Zpos mx * Zpos my)
       <= 2 ^ (er - (ex + ey)).
Proof.
  intros Hbx Hby Hmx Hmy He.
  pose proof (bounded_facts mx ex Hbx) as (_ & Hx53 & _).
  pose proof (bounded_facts my ey Hby) as (_ & Hy53 & _).
  cbn [SFmul].
  assert (HM : 2 ^ 104 <= Zpos (mx * my) < 2 ^ 106).
  { rewrite Pos2Z.inj_mul.
    change (2 ^ 104) with (2 ^ 52 * 2 ^ 52).
    change (2 ^ 106) with (2 ^ 53 * 2 ^ 53).
    split.
    - apply Z.mul_le_mono_nonneg; lia.
    - apply Z.mul_lt_mono_nonneg; lia. }
  set (M := (mx * my)%positive) in *.
  assert (Hd : (Zpos (digits2_pos M) = 105 /\ Zpos M < 2 ^ 105)
               \/ (Zpos (digits2_pos M) = 106 /\ 2 ^ 105 <= Zpos M)).
  { destruct (Z.lt_ge_cases (Zpos M) (2 ^ 105)).
    - left. split; [|lia]. apply digits2_pos_unique.
      change (105 - 1) with 104. lia.
    - right. split; [|lia]. apply digits2_pos_unique.
      change (106 - 1) with 105. lia. }
  set (dM := Zpos (digits2_pos M)) in *.
  rewrite round_aux_spec by (rewrite fexp_eq; fold dM; lia).
  rewrite fexp_eq. fold dM.
  replace (Z.max (dM + (ex + ey) - 53) (-1074)) with (dM + (ex + ey) - 53)
    by lia.
  replace (dM + (ex + ey) - 53 - (ex + ey)) with (dM - 53) by lia.
  pose proof (rne_error (Zpos M) (2 ^ (dM - 53)) ltac:(lia)
                ltac:(apply Z.pow_pos_nonneg; lia)) as Herr.
  pose proof (rne_bounds (Zpos M) (2 ^ (dM - 53)) ltac:(lia)
                ltac:(apply Z.pow_pos_nonneg; lia)) as Hb.
  set (r := rne (Zpos M) (2 ^ (dM - 53))) in *.
  assert (Hr : 2 ^ 52 <= r <= 2 ^ 53).
  { assert (HP : 0 < 2 ^ (dM - 53)) by (apply Z.pow_pos_nonneg; lia).
    assert (2 ^ 52 <= Zpos M / 2 ^ (dM - 53)).
    { apply Z.div_le_lower_bound; [lia|].
      rewrite <- Z.pow_add_r by lia.
      destruct Hd as [[-> ?]|[-> ?]]; [exact (proj1 HM)|assumption]. }
    assert (Zpos M / 2 ^ (dM - 53) < 2 ^ 53); [|lia].
    apply Z.div_lt_upper_bound; [lia|].
    rewrite <- Z.pow_add_r by lia.
    destruct Hd as [[-> ?]|[-> ?]]; [assumption|exact (proj2 HM)]. }
  destruct (norm_normal (xorb sx sy) r (dM + (ex + ey) - 53) Hr ltac:(lia))
    as (mr & er & En & Hbr & Hmr & Her & Evr).
  exists mr, er. split; [exact En|]. split; [exact Hbr|].
  split; [exact Hmr|]. split; [lia|].
  assert (Eg : 2 ^ (er - (ex + ey))
               = 2 ^ (er - (dM + (ex + ey) - 53)) * 2 ^ (dM - 53)).
  { rewrite <- Z.pow_add_r by lia. f_equal. lia. }
  rewrite Eg.
  assert (Hg : 1 <= 2 ^ (er - (dM + (ex + ey) - 53))).
  { assert (0 < 2 ^ (er - (dM + (ex + ey) - 53)))
      by (apply Z.pow_pos_nonneg; lia). lia. }
  set (G := 2 ^ (er - (dM + (ex + ey) - 53))) in *.
  assert (HP : 0 < 2 ^ (dM - 53)) by (apply Z.pow_pos_nonneg; lia).
  set (P := 2 ^ (dM - 53)) in *.
  replace (Zpos mr * (G * P)) with (r * P) by (rewrite <- Evr; ring).
  subst M. rewrite Pos2Z.inj_mul in Herr.
  assert (P <= G * P).
  { rewrite <- (Z.mul_1_l P) at 1. apply Z.mul_le_mono_nonneg_r; lia. }
  lia.
Qed.

(** Dividing by a float and multiplying by it leads back to within
    [2^-51] of the start, in proportion. *)
Lemma div_mul_units (x y : float) :
  moderate x = true -> moderate y = true ->
  let r := SFmul prec emax (SFdiv prec emax x y) y in
  (exists s mx ex mr er,
     x = S754_finite s mx ex /\ r = S754_finite s mr er
     /\ bounded prec emax mr er = true)
  /\ 2 ^ 51 * Z.abs (units r - units x) <= units x.
Proof.
  intros Hx Hy r. subst r.
  destruct x as [| | |sx mx ex]; try discriminate.
  destruct y as [| | |sy my ey]; try discriminate.
  destruct (SFdiv_moderate sx sy mx my ex ey Hx Hy)
    as (mq & eq & Eq & Hbq & Hmq & Hg & Herr1).
  apply moderate_facts in Hx as (Hbx & Hex & Hmx & _).
  apply moderate_facts in Hy as (Hby & Hey & Hmy & _).
  rewrite Eq.
  destruct (SFmul_normal (xorb sx sy) sy mq my eq ey Hbq Hby Hmq
              ltac:(lia) ltac:(lia))
    as (mr & er & Er & Hbr & Hmr & Hh & Herr2).
  rewrite Er.
  replace (xorb (xorb sx sy) sy) with sx by (destruct sx, sy; reflexivity).
  split; [exists sx, mx, ex, mr, er; repeat split; trivial|].
  cbn [units].
  set (g := eq - (ex - ey - 53)) in *. set (h := er - (eq + ey)) in *.
  assert (HF : 0 < 2 ^ (ex - 53 + 1074)) by (apply Z.pow_pos_nonneg; lia).
  assert (Er' : 2 ^ (er + 1074) = 2 ^ h * 2 ^ g * 2 ^ (ex - 53 + 1074)).
  { rewrite <- !Z.pow_add_r by lia. f_equal. lia. }
  assert (Ex' : 2 ^ (ex + 1074) = 2 ^ 53 * 2 ^ (ex - 53 + 1074)).
  { rewrite <- !Z.pow_add_r by lia. f_equal. lia. }
  rewrite Er', Ex'.
  set (F := 2 ^ (ex - 53 + 1074)) in *.
  assert (HG : 0 < 2 ^ g) by (apply Z.pow_pos_nonneg; lia).
  assert (HH : 0 < 2 ^ h) by (apply Z.pow_pos_nonneg; lia).
  set (G := 2 ^ g) in *. set (Hh2 := 2 ^ h) in *.
  set (a := Zpos mq * G * Zpos my) in *.
  set (b := Zpos mx * 2 ^ 53) in *.
  set (c := Zpos mr * Hh2 * G).
  assert (H1 : 2 ^ 53 * Z.abs (a - b) <= a).
  { assert (2 ^ 52 * (G * Zpos my) <= a).
    { subst a. rewrite <- Z.mul_assoc.
      apply Z.mul_le_mono_nonneg_r; [|exact Hmq].
      apply Z.mul_nonneg_nonneg; lia. }
    change (2 ^ 53) with (2 ^ 52 * 2). lia. }
  assert (H2 : 2 ^ 53 * Z.abs (c - a) <= c).
  { assert (Hca : c - a = (Zpos mr * Hh2 - Zpos mq * Zpos my) * G)
      by (subst c a; ring).
    assert (Habs : Z.abs (c - a)
                   = Z.abs (Zpos mr * Hh2 - Zpos mq * Zpos my) * G).
    { rewrite Hca, Z.abs_mul. f_equal. apply Z.abs_eq. lia. }
    assert (2 ^ 52 * (Hh2 * G) <= c).
    { subst c. rewrite <- Z.mul_assoc.
      apply Z.mul_le_mono_nonneg_r; [|exact Hmr].
      apply Z.mul_nonneg_nonneg; lia. }
    assert (2 * Z.abs (c - a) <= Hh2 * G).
    { rewrite Habs, Z.mul_assoc.
      apply Z.mul_le_mono_nonneg_r; lia. }
    change (2 ^ 53) with (2 ^ 52 * 2). lia. }
  assert (H3 : 2 ^ 51 * Z.abs (c - b) <= b).
  { change (2 ^ 53) with 9007199254740992 in H1, H2.
    change (2 ^ 51) with 2251799813685248. clearbody a b c. lia. }
  replace (Zpos mr * (Hh2 * G * F) - Zpos mx * (2 ^ 53 * F))
    with ((c - b) * F) by (subst c b; ring).
  rewrite Z.abs_mul, (Z.abs_eq F) by lia.
  replace (Zpos mx * (2 ^ 53 * F)) with (b * F) by (subst b; ring).
  rewrite Z.mul_assoc. apply Z.mul_le_mono_nonneg_r; lia.
Qed.

Set Implicit Arguments.
End QuotientFacts.

Module ToleranceFacts.
Import Binary64 Round RoundFacts Units UnitFacts Quotient QuotientFacts.
Import Tolerance.
Local Open Scope Q_scope.
Unset Implicit Arguments.

(** The rational of a float, from its magnitude in units of [2^-1074]. *)
Lemma to_Q_units (s : bool) (m : positive) (e : Z) :
  (-1074 <= e)%Z ->
  to_Q (S754_finite s m e)
  == (if s then -(1) else 1)
     * (inject_Z (units (S754_finite s m e)) / inject_Z (2 ^ 1074)).
Proof.
  intros He. cbn [to_Q units].
  assert (Ep : 2 ^ e == inject_Z (2 ^ (e + 1074)) / inject_Z (2 ^ 1074)).
  { rewrite !Zpower_Qpower by lia.
    change (inject_Z 2) with 2.
    rewrite Qpower_plus by discriminate.
    generalize (2 ^ e). intros p.
    assert (Hn : ~ 2 ^ 1074 == 0).
    { apply Qpower_not_0. discriminate. }
    generalize dependent (2 ^ 1074). intros S Hn. now field. }
  assert (Hn : ~ inject_Z (2 ^ 1074) == 0).
  { rewrite Zpower_Qpower by lia. apply Qpower_not_0. discriminate. }
  destruct s; rewrite Ep, inject_Z_mult;
    generalize (inject_Z (2 ^ (e + 1074))), (inject_Z (Zpos m));
    intros a b; generalize dependent (inject_Z (2 ^ 1074)); intros S _ Hn;
    now field.
Qed.

(** Closeness within [2^-51], from the magnitudes in units. *)
Lemma close_to_units (s : bool) (mx mr : positive) (ex er : Z) :
  (-1074 <= ex)%Z -> (-1074 <= er)%Z ->
  (2 ^ 51 * Z.abs (units (S754_finite s mr er) - units (S754_finite s mx ex))
   <= units (S754_finite s mx ex))%Z ->
  close_to (S754_finite s mr er) (S754_finite s mx ex).
Proof.
  intros Hex Her H. unfold close_to.
  rewrite !to_Q_units by assumption.
  set (R := units (S754_finite s mr er)) in *.
  set (X := units (S754_finite s mx ex)) in *.
  assert (HX : (0 <= X)%Z) by lia.
  clearbody R X.
  assert (HS : 0 < inject_Z (2 ^ 1074)).
  { change 0 with (inject_Z 0). rewrite <- Zlt_Qlt.
    apply Z.pow_pos_nonneg; lia. }
  set (S := inject_Z (2 ^ 1074)) in *.
  assert (Hi : 0 < / S) by (now apply Qinv_lt_0_compat).
  assert (HQ : 2251799813685248 * Qabs (inject_Z R - inject_Z X)
               <= inject_Z X).
  { assert (Eabs : Qabs (inject_Z R - inject_Z X)
                   == inject_Z (Z.abs (R - X))).
    { unfold Qminus. rewrite <- inject_Z_opp, <- inject_Z_plus.
      reflexivity. }
    rewrite Eabs. change 2251799813685248 with (inject_Z (2 ^ 51)).
    rewrite <- inject_Z_mult, <- Zle_Qle. exact H. }
  assert (HXq : 0 <= inject_Z X)
    by (change 0 with (inject_Z 0); now rewrite <- Zle_Qle).
  assert (E1 : (if s then - (1) else 1) * (inject_Z R / S)
               - (if s then - (1) else 1) * (inject_Z X / S)
               == (if s then - (1) else 1) * ((inject_Z R - inject_Z X) * / S))
    by (destruct s; field; lra).
  assert (E2 : (if s then - (1) else 1) * (inject_Z X / S)
               == (if s then - (1) else 1) * (inject_Z X * / S))
    by (destruct s; field; lra).
  rewrite E1, E2, !Qabs_Qmult.
  replace (Qabs (if s then - (1) else 1)) with 1 by (destruct s; reflexivity).
  rewrite (Qabs_pos (/ S)) by lra.
  rewrite (Qabs_pos (inject_Z X)) by exact HXq.
  clear E1 E2.
  generalize dependent (Qabs (inject_Z R - inject_Z X)). intros d HQ.
  generalize dependent (inject_Z X). intros x HQ HXq.
  generalize dependent (/ S). intros i Hi.
  assert (Hd : d <= (1 # 2251799813685248) * x) by lra.
  clear - Hd Hi. nra.
Qed.

(** Dividing by a moderate float and multiplying by it leads back to
    within [2^-51]. *)
Theorem div_mul_close (x y : float) :
  moderate x = true -> moderate y = true ->
  close_to (SFmul prec emax (SFdiv prec emax x y) y) x.
Proof.
  intros Hx Hy.
  destruct (div_mul_units x y Hx Hy) as ((s & mx & ex & mr & er & -> & Er & Hb)
                                         & Herr).
  cbv zeta in Er. rewrite Er in *.
  apply moderate_facts in Hx as (_ & Hex & _).
  pose proof (bounded_facts mr er Hb) as (Her & _).
  apply close_to_units; trivial; lia.
Qed.

Set Implicit Arguments.
End ToleranceFacts.

(** * Properties of the script on binary64 numbers *)

Module Binary64Facts.
Import Binary64.
Local Open Scope js_scope.

Ltac order_cases :=
  repeat match goal with
  | Hc : context [Z.compare ?a ?b] |- _ =>
      destruct (Z.compare_spec a b); try discriminate Hc
  | |- context [Z.compare ?a ?b] => destruct (Z.compare_spec a b)
  | Hc : context [Pos.compare_cont Eq ?a ?b] |- _ =>
      change (Pos.compare_cont Eq a b) with (Pos.compare a b) in Hc;
      destruct (Pos.compare_spec a b); try discriminate Hc
  | |- context [Pos.compare_cont Eq ?a ?b] =>
      change (Pos.compare_cont Eq a b) with (Pos.compare a b);
      destruct (Pos.compare_spec a b)
  end.

(** [<=] on floats is transitive (it is false as soon as a NaN is
    compared). *)
Lemma SFleb_trans (x y z : float) :
  SFleb x y = true -> SFleb y z = true -> SFleb x z = true.
Proof.
  unfold SFleb.
  destruct x as [sx|sx| |sx mx ex], y as [sy|sy| |sy my ey],
    z as [sz|sz| |sz mz ez]; simpl; try discriminate; try reflexivity;
    repeat match goal with s : bool |- _ => destruct s end;
    simpl; try discriminate; try reflexivity;
    intros Hxy Hyz; order_cases; simpl in *;
    try reflexivity; try discriminate; try lia.
Qed.

Lemma SFmul_comm (x y : float) : SFmul prec emax x y = SFmul prec emax y x.
Proof.
  destruct x as [sx|sx| |sx mx ex], y as [sy|sy| |sy my ey]; simpl;
    try reflexivity; try (now rewrite xorb_comm).
  now rewrite xorb_comm, Pos.mul_comm, Z.add_comm.
Qed.

(** [Math.min] returns a finite cap once the other argument reaches it. *)
Lemma Math_min_at_cap (x cap : float) :
  is_finite cap = true -> (cap <= x) = true -> Math_min x cap = cap.
Proof.
  destruct cap as [| | |s m e]; try discriminate. intros _.
  cbn [leb Math_min arith]. unfold SFleb, min.
  destruct x as [sx|sx| |sx mx ex]; simpl;
    destruct s; try destruct sx; simpl; try discriminate; try reflexivity;
    intros Hc; order_cases; simpl in *;
    try discriminate; try reflexivity; try lia;
    subst; reflexivity.
Qed.

(** [Math.min] with a finite cap keeps the order of its other argument. *)
Lemma Math_min_monotone (x1 x2 cap : float) :
  is_finite cap = true -> (x1 <= x2) = true ->
  (Math_min x1 cap <= Math_min x2 cap) = true.
Proof.
  destruct cap as [| | |s m e]; try discriminate. intros _.
  cbn [leb Math_min arith]. unfold SFleb, min.
  destruct x1 as [s1|s1| |s1 m1 e1], x2 as [s2|s2| |s2 m2 e2]; simpl;
    repeat match goal with b : bool |- _ => destruct b end;
    simpl; try discriminate; try reflexivity;
    intros Hc; order_cases; simpl in *;
    try discriminate; try reflexivity; try lia;
    order_cases; simpl in *; try discriminate; try reflexivity; try lia.
Qed.

Lemma bracket_lookup_above (r : Q) (table : list (Q * Q)) (income : float) :
  rate_below r table = true ->
  (lit r <= bracket_lookup table income) = true.
Proof.
  unfold rate_below. induction table as [|[b r'] rest IH]; simpl.
  - intros Ht. exact Ht.
  - intros Ht. apply andb_prop in Ht as [Ht Htop].
    apply andb_prop in Ht as [Hr Hrest].
    destruct (SFleb income (of_Q b)); [exact Hr|].
    apply IH. apply andb_true_intro. now split.
Qed.

Lemma bracket_lookup_monotone (table : list (Q * Q)) (i1 i2 : float) :
  rates_ascending table = true ->
  (i1 <= i2) = true ->
  (bracket_lookup table i1 <= bracket_lookup table i2) = true.
Proof.
  intros Hasc Hle. induction table as [|[b r] rest IH]; simpl in *.
  - exact Hasc.
  - apply andb_prop in Hasc as [Hasc Hrest].
    apply andb_prop in Hasc as [Hrefl Hbelow].
    destruct (SFleb i2 (of_Q b)) eqn:H2.
    + rewrite (SFleb_trans _ _ _ Hle H2). exact Hrefl.
    + destruct (SFleb i1 (of_Q b)).
      * now apply bracket_lookup_above.
      * now apply IH.
Qed.

(** C5: the federal rate is the rate of the first bracket of the filing
    status's table whose upper bound is at least the income, and the top
    rate above the last bound; the rates are 10, 12, 22, 24, 32, 35 and
    37%; for a fixed filing status the rate does not decrease when the
    income grows; and each married-filing-jointly bound is at least the
    single bound of the same bracket. *)
Theorem federal_rate_step_function :
  (forall (income : float) (filingStatus : string),
     getFederalTaxRate income filingStatus
     = bracket_lookup (brackets_of filingStatus) income)
  /\ map snd single_brackets ++ [top_rate] = federal_rates
  /\ map snd married_brackets ++ [top_rate] = federal_rates
  /\ (forall (filingStatus : string) (income1 income2 : float),
        (income1 <= income2) = true ->
        (getFederalTaxRate income1 filingStatus
           <= getFederalTaxRate income2 filingStatus) = true)
  /\ Forall2 (fun s m => (fst s <= fst m)%Q
                /\ ((lit (fst s) : float) <= lit (fst m)) = true)
       single_brackets married_brackets.
Proof.
  split; [intros; apply getFederalTaxRate_lookup|].
  split; [reflexivity|]. split; [reflexivity|]. split.
  - intros filingStatus income1 income2 Hle.
    rewrite !getFederalTaxRate_lookup. unfold brackets_of.
    destruct (String.eqb filingStatus FilingStatus.SINGLE);
      apply bracket_lookup_monotone; trivial; vm_compute; reflexivity.
  - unfold single_brackets, married_brackets.
    repeat constructor; cbn [fst]; try (vm_compute; discriminate).
Qed.

(** C10: in the breakdown of every result the total opportunity cost is
    the sum of its two parts, the total upfront cost is down payment plus
    closing costs, the annual mortgage payment is twelve monthly payments,
    and the state rate is zero, so the total tax rate is the federal
    rate. *)
Theorem breakdown_consistent (H : Host float) (params : Params.t float) :
  let r := calculateHomeNetCost params in
  let b := Result.breakdown r in
  Breakdown.totalOpportunityCost b
    = Breakdown.opportunityCostUpfront b
      + Breakdown.opportunityCostMortgagePayments b
  /\ Breakdown.totalUpfrontCosts b
    = Breakdown.downPayment b + Breakdown.closingCosts b
  /\ Breakdown.annualMortgagePayment b
    = lit 12 * Breakdown.monthlyMortgagePayment b
  /\ Breakdown.stateTaxRate b = lit 0
  /\ Result.totalTaxRate r = Breakdown.federalTaxRate b.
Proof.
  intros r b; subst r b;
    cbn [calculateHomeNetCost Result.breakdown Result.totalTaxRate
         Breakdown.totalOpportunityCost Breakdown.opportunityCostUpfront
         Breakdown.opportunityCostMortgagePayments
         Breakdown.totalUpfrontCosts Breakdown.downPayment
         Breakdown.closingCosts Breakdown.annualMortgagePayment
         Breakdown.monthlyMortgagePayment Breakdown.stateTaxRate
         Breakdown.federalTaxRate].
  split; [reflexivity|]. split; [reflexivity|].
  split; [apply SFmul_comm|]. split; [reflexivity|].
  unfold totalTaxRate, taxRates, getTaxRates;
    cbn [TaxRates.federal TaxRates.state].
  generalize (getFederalTaxRate_in_rates (Params.userIncome params)
                (Params.filingStatus params)).
  unfold userIncome, filingStatus.
  generalize (getFederalTaxRate (Params.userIncome params)
                (Params.filingStatus params)).
  intros rate Hin. unfold federal_rates in Hin. cbn [map In] in Hin.
  repeat (destruct Hin as [<- | Hin]; [vm_compute; reflexivity|]).
  contradiction.
Qed.

Ltac breakdown_fields :=
  cbn [calculateHomeNetCost Result.breakdown Breakdown.propertyTax
       Breakdown.insurance Breakdown.maintenance Breakdown.downPayment
       Breakdown.closingCosts].

(** C1 (the script at the failing input): in the scenario of the
    specification the property tax rate and the maintenance rate are left
    out, and their default 0.01 is divided by 100 like a percentage: on a
    house of 500000 the property tax and the maintenance are 50, not 5000.
    The insurance, whose default 0.005 is not divided, is 2500.  With the
    down payment left out too, its default 0.20 gives a down payment of
    1000, which is 0.2% of the price and draws the script's own warning
    about an unusual down payment; the term is 30 years. *)
Theorem defaults_divided_by_100 (H : Host float) :
  let scenario : Params.t float := spec_scenario in
  let defaults : Params.t float := all_defaults in
  let b := Result.breakdown (calculateHomeNetCost scenario) in
  let b' := Result.breakdown (calculateHomeNetCost defaults) in
  Breakdown.propertyTax b = lit 50
  /\ Breakdown.maintenance b = lit 50
  /\ Breakdown.insurance b = lit 2500
  /\ Breakdown.propertyTax b <> lit 5000
  /\ Breakdown.maintenance b <> lit 5000
  /\ Breakdown.downPayment b' = lit 1000
  /\ Result.warnings (calculateHomeNetCost defaults)
     = ["Down payment percentage seems unusual ("
          ++ Number_toString (lit 0.20 : float) ++ "%)"]%string
  /\ mortgageYears defaults = lit 30.
Proof.
  intros scenario defaults b b'; subst scenario defaults b b';
    breakdown_fields.
  repeat split; try (vm_compute; reflexivity); vm_compute; discriminate.
Qed.

(** C2 (the script at the failing input): [insurancePercent] and
    [closingCostsPercent] are multiplied with the house price as they are
    given, while the six other rates are divided by 100 first: a 0.5%
    insurance rate on a house of 500000 gives 250000 (not 2500) and 3%
    closing costs give 1500000 (not 15000), next to a property tax of 5000
    for 1%. *)
Theorem insurance_and_closing_costs_not_converted (H : Host float) :
  let percents : Params.t float := percent_inputs in
  let b := Result.breakdown (calculateHomeNetCost percents) in
  Breakdown.insurance b = lit 250000
  /\ Breakdown.closingCosts b = lit 1500000
  /\ lit 500000 * (lit 0.5 / lit 100) = (lit 2500 : float)
  /\ lit 500000 * (lit 3 / lit 100) = (lit 15000 : float)
  /\ Breakdown.propertyTax b = lit 5000
  /\ Breakdown.maintenance b = lit 5000
  /\ Breakdown.downPayment b = lit 100000.
Proof.
  intros percents b; subst percents b; breakdown_fields.
  repeat split; vm_compute; reflexivity.
Qed.
End Binary64Facts.

(** * The mortgage payment on binary64 numbers *)

Module Payments.
Import Binary64 Round Quotient Tolerance.
Local Open Scope js_scope.

(** C4: on the branch the script takes when [annualRate / 12 === 0], the
    payment is [loanAmount / numPayments], for every arithmetic.  On
    binary64 numbers, that payment times [numPayments] is within [2^-51] of
    [loanAmount], in proportion to it, for a loan amount and a number of
    payments that are normal numbers with a magnitude of at least [2^-448]
    and below [2^453].  On the other branch, the payment times the
    denominator of the amortization formula, [growth - 1], is within
    [2^-51] of its numerator [loanAmount * (monthlyRate * growth)], where
    [growth] is [Math.pow(1 + monthlyRate, numPayments)], for every host,
    whenever the numerator and the denominator are such moderate
    numbers. *)
Theorem payment_and_loan_amount :
  (forall (num : Type) (A : Arith num) (H : Host num)
          (loanAmount annualRate : num) (years : option num),
     (annualRate / lit 12 === lit 0) = true ->
     calculateMonthlyMortgagePayment loanAmount annualRate years
     = loanAmount / (with_default (lit 30) years * lit 12))
  /\ (forall (H : Host float) (loanAmount annualRate : float)
             (years : option float),
        let numPayments := with_default (lit 30) years * lit 12 in
        (annualRate / lit 12 === lit 0) = true ->
        moderate loanAmount = true -> moderate numPayments = true ->
        close_to
          (calculateMonthlyMortgagePayment loanAmount annualRate years
           * numPayments)
          loanAmount)
  /\ (forall (H : Host float) (loanAmount annualRate : float)
             (years : option float),
        let numPayments := with_default (lit 30) years * lit 12 in
        let monthlyRate := annualRate / lit 12 in
        let growth := Math_pow (lit 1 + monthlyRate) numPayments in
        (monthlyRate === lit 0) = false ->
        moderate (loanAmount * (monthlyRate * growth)) = true ->
        moderate (growth - lit 1) = true ->
        close_to
          (calculateMonthlyMortgagePayment loanAmount annualRate years
           * (growth - lit 1))
          (loanAmount * (monthlyRate * growth))).
Proof.
  split; [intros; now apply zero_rate_payment|]. split.
  - intros H loanAmount annualRate years numPayments Hz HL Hn.
    rewrite (zero_rate_payment _ _ _ Hz). fold numPayments.
    now apply ToleranceFacts.div_mul_close.
  - intros H loanAmount annualRate years numPayments monthlyRate growth
      Hz HN HD.
    unfold calculateMonthlyMortgagePayment.
    fold numPayments. fold monthlyRate. rewrite Hz. fold growth.
    now apply ToleranceFacts.div_mul_close.
Qed.
End Payments.

(** * The deductions and the house price *)

Module Deductions.
Import Binary64 Round Binary64Facts.
Local Open Scope js_scope.

(** [Math.min] of two finite numbers is one of them. *)
Lemma Math_min_finite (x y : float) :
  valid x = true -> valid y = true ->
  finite_or_zero x = true -> finite_or_zero y = true ->
  valid (Math_min x y) = true /\ finite_or_zero (Math_min x y) = true.
Proof.
  intros Vx Vy Fx Fy. cbn [Math_min arith]. unfold min.
  destruct x as [sx| | |sx mx ex], y as [sy| | |sy my ey];
    try discriminate; cbn [SFcompare];
    repeat match goal with
    | |- context [if ?c then _ else _] => destruct c
    | |- context [Z.compare ?a ?b] => destruct (Z.compare a b)
    | |- context [Pos.compare_cont Eq ?a ?b] =>
        destruct (Pos.compare_cont Eq a b)
    end; cbn [CompOpp]; split; assumption || reflexivity.
Qed.

(** [Math.min] is at most its finite second argument, unless the first is
    NaN. *)
Lemma Math_min_below_cap (x cap : float) :
  is_finite cap = true -> x <> NaN ->
  (Math_min x cap <= cap) = true.
Proof.
  intros Hc Hx.
  rewrite <- (Math_min_at_cap (S754_infinity false) cap Hc) at 2.
  - apply Math_min_monotone; trivial.
    destruct x as [[]|[]| |[] ? ?]; try reflexivity. now elim Hx.
  - destruct cap as [| | |[] ? ?]; try discriminate; reflexivity.
Qed.

(** C8: on binary64 numbers, for finite house prices [price1 <= price2] and
    the other inputs fixed.  When [propertyTaxRate / 100] is finite and not
    negative, the property tax and its deduction are ordered as the prices
    are, and the deduction is at most 10000.  When [downPaymentPercent /
    100] is between 0 and 0.5 and [mortgageRate / 100] is finite and not
    negative, the loan amount and the mortgage interest deduction are
    ordered as the prices are, and the deduction is at most [750000 *
    (mortgageRate / 100)].  For all inputs, the deductible principal
    follows the order of the loan amounts, and each deduction equals its
    cap as soon as the property tax, respectively the loan amount, is at
    least the cap. *)
Theorem deductions_monotone_up_to_caps :
  (forall (params : Params.t float) (price1 price2 : float),
     let p1 := with_housePrice params price1 in
     let p2 := with_housePrice params price2 in
     valid price1 = true -> finite_or_zero price1 = true ->
     valid price2 = true -> finite_or_zero price2 = true ->
     valid (propertyTaxRateDecimal params) = true ->
     finite_not_negative (propertyTaxRateDecimal params) = true ->
     (price1 <= price2) = true ->
     (propertyTax p1 <= propertyTax p2) = true
     /\ (propertyTaxDeduction p1 <= propertyTaxDeduction p2) = true
     /\ (propertyTaxDeduction p2 <= lit 10000) = true)
  /\ (forall (params : Params.t float) (price1 price2 : float),
        let p1 := with_housePrice params price1 in
        let p2 := with_housePrice params price2 in
        valid price1 = true -> finite_or_zero price1 = true ->
        valid price2 = true -> finite_or_zero price2 = true ->
        valid (downPaymentDecimal params) = true ->
        finite_not_negative (downPaymentDecimal params) = true ->
        (downPaymentDecimal params <= lit 0.5) = true ->
        valid (mortgageRateDecimal params) = true ->
        finite_not_negative (mortgageRateDecimal params) = true ->
        (price1 <= price2) = true ->
        (loanAmount p1 <= loanAmount p2) = true
        /\ (annualMortgageInterest p1 <= annualMortgageInterest p2) = true
        /\ (annualMortgageInterest p2
            <= lit 750000 * mortgageRateDecimal params) = true)
  /\ (forall p1 p2 : Params.t float,
        ((loanAmount p1 <= loanAmount p2) = true ->
         (mortgagePrincipalForDeduction p1
            <= mortgagePrincipalForDeduction p2) = true)
        /\ ((lit 10000 <= propertyTax p1) = true ->
            propertyTaxDeduction p1 = lit 10000)
        /\ ((lit 750000 <= loanAmount p1) = true ->
            annualMortgageInterest p1
            = lit 750000 * (Params.mortgageRate p1 / lit 100))).
Proof.
  split; [|split].
  - intros params price1 price2 p1 p2 V1 F1 V2 F2 Vr Fr Hle.
    assert (Htax : (propertyTax p1 <= propertyTax p2) = true).
    { unfold propertyTax, taxRates, getTaxRates.
      cbn [TaxRates.property].
      change (propertyTaxRateDecimal p1) with (propertyTaxRateDecimal params).
      change (propertyTaxRateDecimal p2) with (propertyTaxRateDecimal params).
      now apply RoundFacts.SFmul_monotone. }
    split; [exact Htax|]. split.
    + unfold propertyTaxDeduction. now apply Math_min_monotone.
    + unfold propertyTaxDeduction. apply Math_min_below_cap; [reflexivity|].
      intros En. rewrite En in Htax.
      destruct (propertyTax p1) as [[]|[]| |[] ? ?]; discriminate.
  - intros params price1 price2 p1 p2 V1 F1 V2 F2 Vd Fd Hd Vr Fr Hle.
    assert (EL : forall price,
              loanAmount (with_housePrice params price)
              = SFsub prec emax price
                  (SFmul prec emax price (downPaymentDecimal params)))
      by reflexivity.
    assert (HL : (loanAmount p1 <= loanAmount p2) = true).
    { unfold p1, p2. rewrite !EL.
      now apply LoanFacts.loan_monotone. }
    pose proof (LoanFacts.loan_finite price1 (downPaymentDecimal params)
                  V1 Vd F1 Fd Hd) as H1.
    pose proof (LoanFacts.loan_finite price2 (downPaymentDecimal params)
                  V2 Vd F2 Fd Hd) as H2.
    cbv zeta in H1, H2. rewrite <- !EL in H1, H2. fold p1 p2 in H1, H2.
    destruct H1 as (VL1 & FL1 & _), H2 as (VL2 & FL2 & _).
    assert (Vc : valid (lit 750000 : float) = true) by reflexivity.
    assert (Fc : finite_or_zero (lit 750000 : float) = true) by reflexivity.
    destruct (Math_min_finite (loanAmount p1) (lit 750000) VL1 Vc FL1 Fc)
      as [Vm1 Fm1].
    destruct (Math_min_finite (loanAmount p2) (lit 750000) VL2 Vc FL2 Fc)
      as [Vm2 Fm2].
    split; [exact HL|].
    unfold annualMortgageInterest, mortgagePrincipalForDeduction.
    change (mortgageRateDecimal p1) with (mortgageRateDecimal params).
    change (mortgageRateDecimal p2) with (mortgageRateDecimal params).
    split.
    + apply RoundFacts.SFmul_monotone; trivial.
      now apply Math_min_monotone.
    + apply RoundFacts.SFmul_monotone; trivial.
      apply Math_min_below_cap; [reflexivity|].
      intros En. rewrite En in FL2. discriminate.
  - intros p1 p2. repeat split; intros Hle.
    + unfold mortgagePrincipalForDeduction.
      now apply Math_min_monotone.
    + unfold propertyTaxDeduction.
      now apply Math_min_at_cap.
    + unfold annualMortgageInterest, mortgagePrincipalForDeduction.
      rewrite Math_min_at_cap by (trivial; reflexivity).
      reflexivity.
Qed.
End Deductions.

(** * The script on concrete inputs *)

Module Runs.
Import Binary64 Tolerance.
Local Open Scope string_scope.

(** The scenario of the specification on binary64 numbers: a down payment
    of 100000, a loan of 400000, the 24% bracket, and no warning. *)
Lemma spec_scenario_run :
  downPayment (spec_scenario : Params.t float) = lit 100000
  /\ loanAmount (spec_scenario : Params.t float) = lit 400000
  /\ TaxRates.federal (taxRates (spec_scenario : Params.t float)) = lit 0.24
  /\ warnings (spec_scenario : Params.t float) = [].
Proof.
  repeat split; vm_compute; reflexivity.
Qed.

(** The reference host at work: the monthly payment on 400000 at 6.5% over
    one year prints as 34518.566784112816, and a house of 1000000 on an
    income of 50000 draws the warning about ten times the income. *)
Lemma reference_host_run :
  Number_toString
    (calculateMonthlyMortgagePayment (lit 400000) (lit 6.5 / lit 100)%js
       (Some (lit 1)) : float) = "34518.566784112816"
  /\ validate ({| in_housePrice := lit 1000000; in_userIncome := lit 50000;
                  in_mortgageRate := lit 6.5; in_homeAppreciation := lit 3;
                  in_downPayment := lit 20 |} : Inputs float)
     = ["House price is more than 10x annual income - may not be affordable"]
  /\ Math_pow (lit 2 : float) (lit 10) = lit 1024.
Proof.
  repeat split; vm_compute; reflexivity.
Qed.

(** C4 (counterexample): on binary64 numbers a loan of 112000 at a zero
    rate over 30 years takes the zero-rate branch, and 360 payments of
    [112000 / 360] come to less than 112000; the 12 payments on a loan of
    400000 at 6.5% over one year come to more than 410000. *)
Lemma payments_do_not_add_up :
  (calculateMonthlyMortgagePayment (lit 112000) (lit 0) (Some (lit 30))
   : float) = (lit 112000 / (lit 30 * lit 12))%js
  /\ ((calculateMonthlyMortgagePayment (lit 112000) (lit 0) (Some (lit 30))
       : float) * (lit 30 * lit 12) === lit 112000)%js = false
  /\ ((calculateMonthlyMortgagePayment (lit 112000) (lit 0) (Some (lit 30))
       : float) * (lit 30 * lit 12) < lit 112000)%js = true
  /\ (lit 410000
      < (calculateMonthlyMortgagePayment (lit 400000) (lit 0.065)
           (Some (lit 1)) : float) * (lit 1 * lit 12))%js = true.
Proof.
  repeat split; vm_compute; reflexivity.
Qed.

(** C4 (witness): the zero-rate loan of 112000 over 30 years, and the loan
    of 400000 at 6.5% over one year on the reference host. *)
Lemma payment_and_loan_amount_witness :
  (calculateMonthlyMortgagePayment (lit 112000) (lit 0) None : float)
  = (lit 112000 / (lit 30 * lit 12))%js
  /\ close_to
       ((calculateMonthlyMortgagePayment (lit 112000) (lit 0) None : float)
        * (lit 30 * lit 12))%js
       (lit 112000)
  /\ close_to
       ((calculateMonthlyMortgagePayment (lit 400000) (lit 0.065)
           (Some (lit 1)) : float)
        * (Math_pow (lit 1 + lit 0.065 / lit 12) (lit 1 * lit 12) - lit 1))%js
       (lit 400000
        * (lit 0.065 / lit 12
           * Math_pow (lit 1 + lit 0.065 / lit 12) (lit 1 * lit 12)))%js.
Proof.
  destruct Payments.payment_and_loan_amount as (Hzero & Hround & Hrate).
  split; [|split].
  - apply Hzero. reflexivity.
  - apply (Hround ReferenceHost.host (lit 112000) (lit 0) None);
      vm_compute; reflexivity.
  - apply (Hrate ReferenceHost.host (lit 400000) (lit 0.065) (Some (lit 1)));
      vm_compute; reflexivity.
Defined.

(** C5 (witness): incomes of 50000 and 120000, filing single. *)
Lemma federal_rate_step_function_witness :
  ((lit 50000 : float) <= lit 120000)%js = true
  /\ (getFederalTaxRate (lit 50000 : float) FilingStatus.SINGLE
        <= getFederalTaxRate (lit 120000) FilingStatus.SINGLE)%js = true.
Proof.
  split; [reflexivity|].
  apply (proj1 (proj2 (proj2 (proj2
           Binary64Facts.federal_rate_step_function)))).
  reflexivity.
Defined.

(** C6 (witness): an interest-free loan on a house of 500000 with an income
    of 120000 has a front-end ratio below 0.28 and is flagged affordable. *)
Lemma affordability_rule_witness :
  Result.isAffordable (calculateHomeNetCost (interest_free : Params.t float))
  = true.
Proof.
  apply (proj2 (proj2 (affordability_rule
                         (interest_free : Params.t float)))).
  cbn [calculateHomeNetCost Result.frontEndRatio].
  vm_compute; reflexivity.
Defined.



(** C8 (counterexample): on binary64 numbers, with a 79% down payment at a
    6.5% mortgage rate, raising the house price from 663655.6962025316 to
    the next number 663655.6962025317 lowers the loan amount and with it the
    mortgage interest deduction, from 9058.900253164556 to
    9058.900253164553.  With a property tax rate and a mortgage rate of
    -1%, raising the house price from 100000 to 200000 lowers the property
    tax deduction from -1000 to -2000 and the mortgage interest deduction
    from -800 to -1600. *)
Lemma deductions_decrease :
  ((lit 663655.6962025316 : float) < lit 663655.6962025317)%js = true
  /\ (annualMortgageInterest
        (with_housePrice (high_down_payment : Params.t float)
           (lit 663655.6962025317))
      < annualMortgageInterest
          (with_housePrice (high_down_payment : Params.t float)
             (lit 663655.6962025316)))%js = true
  /\ Number_toString
       (annualMortgageInterest
          (with_housePrice (high_down_payment : Params.t float)
             (lit 663655.6962025316))) = "9058.900253164556"
  /\ Number_toString
       (annualMortgageInterest
          (with_housePrice (high_down_payment : Params.t float)
             (lit 663655.6962025317))) = "9058.900253164553"
  /\ ((lit 100000 : float) <= lit 200000)%js = true
  /\ propertyTaxDeduction
       (with_housePrice (negative_rates : Params.t float) (lit 100000))
     = lit (-1000)
  /\ propertyTaxDeduction
       (with_housePrice (negative_rates : Params.t float) (lit 200000))
     = lit (-2000)
  /\ (propertyTaxDeduction
        (with_housePrice (negative_rates : Params.t float) (lit 100000))
      <= propertyTaxDeduction
           (with_housePrice (negative_rates : Params.t float) (lit 200000))
     )%js = false
  /\ annualMortgageInterest
       (with_housePrice (negative_rates : Params.t float) (lit 100000))
     = lit (-800)
  /\ annualMortgageInterest
       (with_housePrice (negative_rates : Params.t float) (lit 200000))
     = lit (-1600)
  /\ (annualMortgageInterest
        (with_housePrice (negative_rates : Params.t float) (lit 100000))
      <= annualMortgageInterest
           (with_housePrice (negative_rates : Params.t float) (lit 200000))
     )%js = false.
Proof.
  repeat split; vm_compute; reflexivity.
Qed.

(** C8 (witness): house prices of 500000 and 1200000 at a 1% property tax
    rate, a 6.5% mortgage rate and 20% down. *)
Lemma deductions_monotone_up_to_caps_witness :
  (propertyTaxDeduction
     (with_housePrice (percent_inputs : Params.t float) (lit 500000))
   <= propertyTaxDeduction
        (with_housePrice (percent_inputs : Params.t float) (lit 1200000))
  )%js = true
  /\ (annualMortgageInterest
        (with_housePrice (percent_inputs : Params.t float) (lit 500000))
      <= annualMortgageInterest
           (with_housePrice (percent_inputs : Params.t float) (lit 1200000))
     )%js = true
  /\ propertyTaxDeduction
       (with_housePrice (percent_inputs : Params.t float) (lit 1200000))
     = lit 10000.
Proof.
  destruct Deductions.deductions_monotone_up_to_caps
    as (Htax & Hinterest & Hcaps).
  split; [|split].
  - specialize (Htax percent_inputs (lit 500000) (lit 1200000)).
    cbv zeta in Htax.
    destruct Htax as (_ & Hdeduction & _);
      [vm_compute; reflexivity ..|exact Hdeduction].
  - specialize (Hinterest percent_inputs (lit 500000) (lit 1200000)).
    cbv zeta in Hinterest.
    destruct Hinterest as (_ & Hdeduction & _);
      [vm_compute; reflexivity ..|exact Hdeduction].
  - destruct (Hcaps (with_housePrice percent_inputs (lit 1200000))
                (with_housePrice percent_inputs (lit 1200000)))
      as (_ & Hcap & _).
    apply Hcap. vm_compute; reflexivity.
Defined.

(** C9 (witness): an empty filing status is read in the married table. *)
Lemma getFederalTaxRate_not_single_witness :
  getFederalTaxRate (lit 120000 : float) ""
  = getFederalTaxRate (lit 120000) FilingStatus.MARRIED_FILING_JOINTLY.
Proof.
  apply (proj1 (getFederalTaxRate_not_single (lit 120000 : float) "")).
  discriminate.
Defined.
End Runs.

(** * Inputs that are not numbers, zero incomes and joint filing *)

Module Binary64Edge.
Import Binary64 Binary64Facts.
Local Open Scope js_scope.
Local Open Scope string_scope.

(** NaN is absorbing, and no comparison with it holds. *)
Lemma SFadd_nan_r x : SFadd prec emax x S754_nan = S754_nan.
Proof. destruct x as [[]|[]| |[] ? ?]; reflexivity. Qed.

Lemma SFmul_nan_l x : SFmul prec emax S754_nan x = S754_nan.
Proof. reflexivity. Qed.

Lemma SFltb_nan_r x : SFltb x S754_nan = false.
Proof. destruct x as [[]|[]| |[] ? ?]; reflexivity. Qed.

(** A message is not in a list of messages that all differ from it. *)
Ltac not_among :=
  unfold push_if;
  repeat match goal with |- context [if ?c then _ else _] => destruct c end;
  cbn [In app append]; intros Hin;
  repeat destruct Hin as [Hin|Hin]; try discriminate Hin; try contradiction.

(** Neither check of the house price fires on NaN. *)
Lemma nan_price_silent (H : Host float) (u r a d : float) :
  ~ In "House price must be positive" (validateInputs NaN u r a d)
  /\ ~ In "House price is more than 10x annual income - may not be affordable"
       (validateInputs NaN u r a d).
Proof.
  unfold validateInputs.
  change (NaN <= lit 0) with false.
  change (NaN > u * lit 10) with (SFltb (SFmul prec emax u (lit 10)) S754_nan).
  rewrite SFltb_nan_r. split; not_among.
Qed.

(** A house price that is NaN reaches every main result. *)
Lemma nan_price_results (H : Host float) (params : Params.t float) :
  Params.housePrice params = NaN ->
  totalNetCost params = NaN /\ monthlyPayment params = NaN
  /\ frontEndRatio params = NaN /\ isAffordable params = false.
Proof.
  intros Hp.
  assert (Hcosts : annualMortgagePayment params + propertyTax params
                   + insurance params + maintenance params = NaN).
  { unfold propertyTax, housePrice. rewrite Hp. cbn [mul arith add].
    rewrite SFmul_nan_l, SFadd_nan_r. reflexivity. }
  assert (Hmp : monthlyPayment params = NaN).
  { unfold monthlyPayment. rewrite Hcosts. reflexivity. }
  repeat split.
  - unfold totalNetCost, totalAnnualCosts. rewrite Hcosts. reflexivity.
  - exact Hmp.
  - unfold frontEndRatio. rewrite Hmp. reflexivity.
  - unfold isAffordable, frontEndRatio. rewrite Hmp. reflexivity.
Qed.

(** X1: when the house price is NaN (an empty or non-numeric field),
    [validateInputs] raises neither of its two warnings about the house
    price, whatever the other inputs are, while the total net cost, the
    monthly payment and the front-end ratio are all NaN and the result is
    flagged as not affordable. *)
Theorem nan_house_price (H : Host float) (params : Params.t float) :
  let p := with_housePrice params NaN in
  ~ In "House price must be positive" (warnings p)
  /\ ~ In "House price is more than 10x annual income - may not be affordable"
       (warnings p)
  /\ totalNetCost p = NaN
  /\ monthlyPayment p = NaN
  /\ frontEndRatio p = NaN
  /\ isAffordable p = false.
Proof.
  intros p.
  assert (Hw : warnings p
    = validateInputs NaN (Params.userIncome params)
        (Params.mortgageRate params) (Params.homeAppreciation params)
        (downPaymentPercent params)) by reflexivity.
  rewrite Hw.
  split; [apply nan_price_silent|]. split; [apply nan_price_silent|].
  now apply nan_price_results.
Qed.

Lemma SFdiv_nan_r x : SFdiv prec emax x S754_nan = S754_nan.
Proof. destruct x as [[]|[]| |[] ? ?]; reflexivity. Qed.

(** X2: when the income is NaN, the federal rate is the top rate 0.37
    (no bracket test holds), [validateInputs] raises neither of its two
    warnings that involve the income, the front-end ratio is NaN and the
    result is flagged as not affordable. *)
Theorem nan_income (H : Host float) (params : Params.t float) :
  let p := with_userIncome params NaN in
  TaxRates.federal (taxRates p) = lit 0.37
  /\ ~ In "User income must be positive" (warnings p)
  /\ ~ In "House price is more than 10x annual income - may not be affordable"
       (warnings p)
  /\ frontEndRatio p = NaN
  /\ isAffordable p = false.
Proof.
  intros p.
  assert (Hr : frontEndRatio p = NaN).
  { unfold frontEndRatio, monthlyIncome, userIncome; subst p.
    cbn [with_userIncome Params.userIncome].
    change (NaN / lit 12) with NaN. apply SFdiv_nan_r. }
  assert (Hw : warnings p
    = validateInputs (Params.housePrice params) NaN
        (Params.mortgageRate params) (Params.homeAppreciation params)
        (downPaymentPercent params)) by reflexivity.
  repeat split.
  - unfold taxRates, getTaxRates, getFederalTaxRate, userIncome; subst p.
    cbn [with_userIncome Params.userIncome TaxRates.federal].
    change (NaN <= ?x) with false.
    destruct (String.eqb _ _); reflexivity.
  - rewrite Hw. unfold validateInputs.
    change (NaN <= lit 0) with false. not_among.
  - rewrite Hw. unfold validateInputs.
    change (Params.housePrice params > NaN * lit 10) with false. not_among.
  - exact Hr.
  - unfold isAffordable. rewrite Hr. reflexivity.
Qed.

(** The lookup in a table with wider brackets gives a rate that is not
    higher. *)
Lemma bracket_lookup_wider (narrow wide : list (Q * Q)) (income : float) :
  bounds_at_most narrow wide = true ->
  rates_ascending narrow = true ->
  (bracket_lookup wide income <= bracket_lookup narrow income) = true.
Proof.
  revert wide. induction narrow as [|[b1 r1] narrow IH];
    intros [|[b2 r2] wide];
    cbn [bounds_at_most rates_ascending bracket_lookup];
    intros Hb Hasc; try discriminate Hb.
  - exact Hasc.
  - cbn [leb lit arith] in *.
    apply andb_prop in Hb as [Hb Hrest]. apply andb_prop in Hb as [Hb Hden].
    apply andb_prop in Hb as [Hb Hnum].
    apply Z.eqb_eq in Hnum. apply Pos.eqb_eq in Hden.
    assert (Er : r2 = r1) by (destruct r1, r2; simpl in *; congruence).
    subst r2.
    apply andb_prop in Hasc as [Hasc Hasc'].
    apply andb_prop in Hasc as [Hrefl Hbelow].
    destruct (SFleb income (of_Q b1)) eqn:H1.
    + rewrite (SFleb_trans _ _ _ H1 Hb). exact Hrefl.
    + destruct (SFleb income (of_Q b2)).
      * now apply bracket_lookup_above.
      * now apply IH.
Qed.

(** X4: at every income, NaN and the infinities included, the federal
    rate for a filing status other than ['single'] is at most the rate for
    ['single']. *)
Theorem joint_rate_at_most_single (income : float) (filingStatus : string) :
  filingStatus <> FilingStatus.SINGLE ->
  (getFederalTaxRate income filingStatus
     <= getFederalTaxRate income FilingStatus.SINGLE) = true.
Proof.
  intros Hs. rewrite !getFederalTaxRate_lookup. unfold brackets_of.
  apply String.eqb_neq in Hs. rewrite Hs.
  change (String.eqb FilingStatus.SINGLE FilingStatus.SINGLE) with true.
  cbv iota.
  apply bracket_lookup_wider; vm_compute; reflexivity.
Qed.

(** X3: an income of zero does not make the result unaffordable by
    itself.  The front-end ratio is then a division by zero, so with an
    income of [+0] the result is flagged affordable exactly when the monthly
    payment is negative, and with an income of [-0] exactly when the monthly
    payment is positive. *)
Theorem zero_income_affordability (H : Host float) (params : Params.t float) :
  isAffordable (with_userIncome params (S754_zero false))
    = (monthlyPayment params < lit 0)
  /\ isAffordable (with_userIncome params (S754_zero true))
    = (monthlyPayment params > lit 0).
Proof.
  unfold isAffordable, frontEndRatio, monthlyIncome, userIncome.
  cbn [with_userIncome Params.userIncome].
  change (monthlyPayment (with_userIncome params (S754_zero false)))
    with (monthlyPayment params).
  change (monthlyPayment (with_userIncome params (S754_zero true)))
    with (monthlyPayment params).
  change (S754_zero false / lit 12) with (S754_zero false).
  change (S754_zero true / lit 12) with (S754_zero true).
  change (lit 0.28 : float) with (S754_finite false 5044031582654956 (-54)).
  change (lit 0 : float) with (S754_zero false).
  destruct (monthlyPayment params) as [[]|[]| |[] m e]; split; reflexivity.
Qed.
End Binary64Edge.

(** * Ranges and bounds on binary64 numbers *)

Module Binary64Bounds.
Import Binary64 Round Binary64Facts.
Local Open Scope js_scope.
Local Open Scope string_scope.
Unset Implicit Arguments.

(** Comparing the other way round gives the opposite answer. *)
Lemma SFcompare_antisym (x y : float) :
  SFcompare y x = option_map CompOpp (SFcompare x y).
Proof.
  destruct x as [[]|[]| |[] mx ex], y as [[]|[]| |[] my ey];
    try reflexivity; cbn [SFcompare option_map].
  - rewrite (Z.compare_antisym ex ey).
    destruct (Z.compare ex ey); cbn [CompOpp]; try reflexivity.
    change (Pos.compare_cont Eq my mx) with (Pos.compare my mx).
    change (Pos.compare_cont Eq mx my) with (Pos.compare mx my).
    rewrite (Pos.compare_antisym mx my).
    destruct (Pos.compare mx my); reflexivity.
  - rewrite (Z.compare_antisym ex ey).
    destruct (Z.compare ex ey); cbn [CompOpp]; try reflexivity.
    change (Pos.compare_cont Eq my mx) with (Pos.compare my mx).
    change (Pos.compare_cont Eq mx my) with (Pos.compare mx my).
    rewrite (Pos.compare_antisym mx my).
    destruct (Pos.compare mx my); reflexivity.
Qed.

(** Two numbers compare, one way or the other. *)
Lemma SFcompare_numbers (x y : float) :
  x <> NaN -> y <> NaN -> exists c, SFcompare x y = Some c.
Proof.
  intros Hx Hy.
  destruct x as [sx|sx| |sx mx ex], y as [sy|sy| |sy my ey];
    try (now elim Hx); try (now elim Hy); cbn [SFcompare]; eauto.
Qed.

(** A comparison fails on a NaN or because the opposite strict comparison
    holds. *)
Lemma leb_false (x y : float) :
  (x <= y) = false <-> x = NaN \/ y = NaN \/ (y < x) = true.
Proof.
  cbn [leb ltb arith]. unfold SFleb, SFltb. rewrite (SFcompare_antisym x y).
  assert (Hx : x = NaN \/ x <> NaN)
    by (destruct x; (now left) || (right; discriminate)).
  assert (Hy : y = NaN \/ y <> NaN)
    by (destruct y; (now left) || (right; discriminate)).
  destruct Hx as [->|Hx]; [cbn; tauto|].
  destruct Hy as [->|Hy];
    [destruct x; cbn; try tauto; now elim Hx|].
  destruct (SFcompare_numbers x y Hx Hy) as [c ->].
  destruct c; cbn; intuition congruence.
Qed.

(** [x < y] fails exactly for NaN and for [y <= x]. *)
Lemma ltb_false (x y : float) :
  (x < y) = false <-> x = NaN \/ y = NaN \/ (y <= x) = true.
Proof.
  cbn [leb ltb arith]. unfold SFleb, SFltb. rewrite (SFcompare_antisym x y).
  assert (Hx : x = NaN \/ x <> NaN)
    by (destruct x; (now left) || (right; discriminate)).
  assert (Hy : y = NaN \/ y <> NaN)
    by (destruct y; (now left) || (right; discriminate)).
  destruct Hx as [->|Hx]; [cbn; tauto|].
  destruct Hy as [->|Hy];
    [destruct x; cbn; try tauto; now elim Hx|].
  destruct (SFcompare_numbers x y Hx Hy) as [c ->].
  destruct c; cbn; intuition congruence.
Qed.

(** The right shift keeps a mantissa that is not negative so. *)
Lemma shr_not_negative (v e n : Z) :
  (0 <= v)%Z -> (0 <= shr_m (fst (shr (shr_start v) e n)))%Z.
Proof.
  intros Hv. destruct n as [|p|p]; cbn [shr fst]; trivial.
  rewrite RoundFacts.iter_pos_nat.
  destruct (RoundFacts.shr_iter_spec v (Pos.to_nat p) Hv) as (-> & _).
  apply Z.div_pos; [exact Hv|]. apply Z.pow_pos_nonneg; lia.
Qed.

(** No rounding of a positive mantissa gives NaN. *)
Lemma round_aux_not_nan (s : bool) (M : positive) (E : Z) :
  binary_round_aux prec emax s (Zpos M) E loc_Exact <> NaN.
Proof.
  unfold binary_round_aux. rewrite RoundFacts.shr_fexp_exact.
  pose proof (shr_not_negative (Zpos M) E
                (fexp prec emax (Zdigits2 (Zpos M) + E) - E)
                ltac:(lia)) as H1.
  destruct (shr (shr_start (Zpos M)) E _) as [mrs e1]. cbn [fst] in H1.
  set (v := round_nearest_even (shr_m mrs) (loc_of_shr_record mrs)).
  assert (Hv : (0 <= v)%Z).
  { subst v. unfold round_nearest_even.
    destruct (loc_of_shr_record mrs) as [|[]]; try lia.
    destruct (Z.even (shr_m mrs)); lia. }
  rewrite RoundFacts.shr_fexp_exact.
  pose proof (shr_not_negative v e1 (fexp prec emax (Zdigits2 v + e1) - e1)
                Hv) as H2.
  destruct (shr (shr_start v) e1 _) as [mrs' e2]. cbn [fst] in H2.
  destruct (shr_m mrs'); try discriminate; [|lia].
  destruct (e2 <=? emax - prec)%Z; discriminate.
Qed.

(** A product by a finite float is NaN only for a NaN. *)
Lemma SFmul_nan (x : float) (s : bool) (m : positive) (e : Z) :
  SFmul prec emax x (S754_finite s m e) = NaN -> x = NaN.
Proof.
  destruct x as [sx|sx| |sx mx ex]; try discriminate; try reflexivity.
  cbn [SFmul]. intros E. now apply round_aux_not_nan in E.
Qed.

(** A conditional [push] leaves the array empty only if it does not
    fire. *)
Lemma push_if_nil (c : bool) (w : string) (l : list string) :
  push_if c w l = [] <-> c = false /\ l = [].
Proof.
  unfold push_if. destruct c.
  - split; [|intros [E _]; discriminate].
    destruct l; discriminate.
  - tauto.
Qed.

(** The checks of [validateInputs], on numbers and on NaN. *)
Lemma positive_check (x : float) :
  (x <= lit 0) = false <-> x = NaN \/ (x > lit 0) = true.
Proof.
  rewrite leb_false.
  assert (N0 : (lit 0 : float) <> NaN) by discriminate.
  generalize dependent (lit 0 : float). intros c N0.
  generalize (c < x). intros b. tauto.
Qed.

(** A range check of [validateInputs] passes exactly for NaN and for
    the numbers of the range. *)
Lemma range_check (x lo hi : float) :
  lo <> NaN -> hi <> NaN ->
  (x < lo) || (x > hi) = false
  <-> x = NaN \/ (lo <= x) = true /\ (x <= hi) = true.
Proof.
  intros Hlo Hhi. rewrite orb_false_iff, !ltb_false.
  generalize (lo <= x), (x <= hi). intros b1 b2. tauto.
Qed.

(** The check against ten times the income passes exactly when one of
    the two is NaN or the price is at most the product. *)
Lemma ten_times_check (housePrice userIncome : float) :
  (housePrice > userIncome * lit 10) = false
  <-> housePrice = NaN \/ userIncome = NaN
      \/ (housePrice <= userIncome * lit 10) = true.
Proof.
  rewrite ltb_false.
  assert (Hten : userIncome * lit 10 = NaN <-> userIncome = NaN).
  { split; [|now intros ->].
    assert (E10 : exists m e, (lit 10 : float) = S754_finite false m e)
      by (vm_compute; eauto).
    destruct E10 as (m & e & ->). apply SFmul_nan. }
  rewrite Hten. generalize (housePrice <= userIncome * lit 10).
  intros b. tauto.
Qed.

(** X5: on binary64 numbers, [validateInputs] returns no warning exactly
    when each value it checks is NaN or in its range: [housePrice > 0],
    [userIncome > 0], [0 <= mortgageRate <= 20], [-10 <= homeAppreciation
    <= 20], [3 <= downPayment <= 50], and [housePrice <= userIncome * 10]
    unless the house price or the income is NaN. *)
Theorem no_warnings_iff_in_range (H : Host float)
    (housePrice userIncome mortgageRate homeAppreciation downPayment
       : float) :
  validateInputs housePrice userIncome mortgageRate homeAppreciation
    downPayment = []
  <-> (housePrice = NaN \/ (housePrice > lit 0) = true)
      /\ (userIncome = NaN \/ (userIncome > lit 0) = true)
      /\ (mortgageRate = NaN
          \/ (lit 0 <= mortgageRate) = true
             /\ (mortgageRate <= lit 20) = true)
      /\ (homeAppreciation = NaN
          \/ (lit (-10) <= homeAppreciation) = true
             /\ (homeAppreciation <= lit 20) = true)
      /\ (downPayment = NaN
          \/ (lit 3 <= downPayment) = true
             /\ (downPayment <= lit 50) = true)
      /\ (housePrice = NaN \/ userIncome = NaN
          \/ (housePrice <= userIncome * lit 10) = true).
Proof.
  unfold validateInputs. rewrite !push_if_nil.
  rewrite !positive_check, ten_times_check.
  rewrite !range_check by discriminate.
  split.
  - intros (H6 & H5 & H4 & H3 & H2 & H1 & _). repeat split; assumption.
  - intros (H1 & H2 & H3 & H4 & H5 & H6). repeat split; assumption.
Qed.

(** The product of two floats is a float. *)
Lemma SFmul_valid (x y : float) :
  valid x = true -> valid y = true -> valid (SFmul prec emax x y) = true.
Proof.
  intros Vx Vy.
  destruct x as [sx|sx| |sx mx ex], y as [sy|sy| |sy my ey];
    try reflexivity.
  cbn [SFmul]. apply UnitFacts.round_aux_valid.
  now apply RoundFacts.product_target.
Qed.

(** The rounded product by a positive finite float keeps the order, also
    of the infinities. *)
Lemma SFmul_monotone_positive (x1 x2 : float) (m : positive) (e : Z) :
  valid x1 = true -> valid x2 = true ->
  bounded prec emax m e = true ->
  SFleb x1 x2 = true ->
  SFleb (SFmul prec emax x1 (S754_finite false m e))
        (SFmul prec emax x2 (S754_finite false m e)) = true.
Proof.
  intros V1 V2 Vr Hle.
  destruct (finite_or_zero x1) eqn:F1, (finite_or_zero x2) eqn:F2;
    [now apply RoundFacts.SFmul_monotone| | | ];
    destruct x1 as [s1|[]| |s1 m1 e1], x2 as [s2|[]| |s2 m2 e2];
    try discriminate; try reflexivity; cbn [SFmul xorb];
    match goal with
    | |- context [binary_round_aux _ _ ?s (Zpos ?M) ?E _] =>
        pose proof (round_aux_not_nan s M E) as Hn;
        destruct (binary_round_aux prec emax s (Zpos M) E loc_Exact)
          as [[]|[]| |[] ? ?]; try reflexivity; now elim Hn
    end.
Qed.

(** [Math.min] of two floats is a float. *)
Lemma Math_min_valid (x y : float) :
  valid x = true -> valid y = true -> valid (Math_min x y) = true.
Proof.
  intros Vx Vy. cbn [Math_min arith]. unfold min.
  destruct (SFcompare x y) as [[]|]; trivial.
  destruct x as [[]| | |]; trivial.
Qed.

(** The total tax rate is one of the seven federal rates: the state rate
    0.0 adds nothing. *)
Lemma totalTaxRate_in_rates (params : Params.t float) :
  In (totalTaxRate params) (map lit federal_rates).
Proof.
  unfold totalTaxRate, taxRates, getTaxRates.
  cbn [TaxRates.federal TaxRates.state].
  pose proof (getFederalTaxRate_in_rates (userIncome params)
                (filingStatus params)) as Hin.
  cbn [map federal_rates In] in *.
  destruct Hin as [<-|[<-|[<-|[<-|[<-|[<-|[<-|[]]]]]]]];
    vm_compute; tauto.
Qed.

(** X9: on binary64 numbers, the caps bound the tax benefits whatever the
    house price.  [propertyTaxTaxSavings] is at most 3700 when the property
    tax is a number (a deduction of at most 10000 at a rate of at most
    0.37); [mortgageInterestTaxSavings] is at most [750000 * (mortgageRate
    / 100) * 0.37] when the loan amount is finite and [mortgageRate / 100]
    is finite and not negative. *)
Theorem tax_savings_bounded (params : Params.t float) :
  (valid (propertyTax params) = true -> propertyTax params <> NaN ->
   (propertyTaxTaxSavings params <= lit 3700) = true)
  /\ (valid (loanAmount params) = true ->
      finite_or_zero (loanAmount params) = true ->
      valid (mortgageRateDecimal params) = true ->
      finite_not_negative (mortgageRateDecimal params) = true ->
      (mortgageInterestTaxSavings params
       <= lit 750000 * mortgageRateDecimal params * lit 0.37) = true).
Proof.
  pose proof (totalTaxRate_in_rates params) as Hrate.
  assert (Vc : forall r : float, In r (map lit federal_rates) ->
            exists m e, r = S754_finite false m e
                        /\ bounded prec emax m e = true).
  { intros r Hq. cbn [map federal_rates In] in Hq.
    destruct Hq as [<-|[<-|[<-|[<-|[<-|[<-|[<-|[]]]]]]]];
      vm_compute; eauto. }
  split.
  - intros Vt Nt. unfold propertyTaxTaxSavings, propertyTaxDeduction.
    assert (Hmin : (Math_min (propertyTax params) (lit 10000) <= lit 10000)
                   = true)
      by (apply Deductions.Math_min_below_cap; [reflexivity|exact Nt]).
    assert (Vm : valid (Math_min (propertyTax params) (lit 10000)) = true)
      by (apply Math_min_valid; [exact Vt|reflexivity]).
    generalize dependent (Math_min (propertyTax params) (lit 10000)).
    intros x Hx Vx.
    cbn [map federal_rates In] in Hrate.
    destruct Hrate as [<-|[<-|[<-|[<-|[<-|[<-|[<-|[]]]]]]]];
      match goal with
      | |- (x * ?r <= _) = true =>
          apply SFleb_trans with (lit 10000 * r);
            [|vm_compute; reflexivity];
            assert (Er : exists m e, r = S754_finite false m e
                           /\ bounded prec emax m e = true)
              by (vm_compute; eauto);
            destruct Er as (m & e & -> & Hb);
            apply SFmul_monotone_positive; trivial; reflexivity
      end.
  - intros VL FL Vr Fr.
    unfold mortgageInterestTaxSavings, annualMortgageInterest,
      mortgagePrincipalForDeduction.
    assert (V75 : valid (lit 750000 : float) = true) by reflexivity.
    assert (F75 : finite_or_zero (lit 750000 : float) = true)
      by reflexivity.
    destruct (Deductions.Math_min_finite (loanAmount params) (lit 750000)
                VL V75 FL F75) as [Vm Fm].
    assert (Hmin : (Math_min (loanAmount params) (lit 750000) <= lit 750000)
                   = true).
    { apply Deductions.Math_min_below_cap; [reflexivity|].
      intros En. rewrite En in FL. discriminate. }
    set (rd := mortgageRateDecimal params) in *.
    generalize dependent (Math_min (loanAmount params) (lit 750000)).
    intros x Vx Fx Hx.
    assert (HAB : (x * rd <= lit 750000 * rd) = true)
      by (apply RoundFacts.SFmul_monotone; trivial; reflexivity).
    assert (VA : valid (x * rd) = true) by (now apply SFmul_valid).
    assert (VB : valid (lit 750000 * rd) = true)
      by (apply SFmul_valid; [reflexivity|exact Vr]).
    assert (HB : finite_not_negative (lit 750000 * rd) = true
                 \/ lit 750000 * rd = S754_infinity false).
    { assert (E75 : exists m e, (lit 750000 : float) = S754_finite false m e
                      /\ bounded prec emax m e = true)
        by (vm_compute; eauto).
      destruct E75 as (m & e & -> & Hb). clear - Fr Vr Hb.
      destruct rd as [s| | |[] mr er]; try discriminate; [now left|].
      cbn [mul arith SFmul xorb].
      pose proof (round_aux_not_nan false (m * mr) (e + er)) as Hn.
      assert (Hs : signed false
                     (binary_round_aux prec emax false (Zpos (m * mr))
                        (e + er) loc_Exact)).
      { apply RoundFacts.round_aux_signed.
        apply RoundFacts.product_target; [exact Hb|exact Vr]. }
      destruct (binary_round_aux _ _ _ _ _ _) as [[]|[]| |[] ? ?];
        cbn in Hs; try discriminate; try contradiction; auto. }
    apply SFleb_trans with (lit 750000 * rd * totalTaxRate params).
    + destruct (Vc _ Hrate) as (m & e & Er & Hb).
      unfold totalTaxRate in *. rewrite Er.
      now apply SFmul_monotone_positive.
    + generalize dependent (lit 750000 * rd). intros B _ VB HB.
      cbn [map federal_rates In] in Hrate.
      destruct HB as [HB| ->].
      * cbn [mul arith].
        rewrite (SFmul_comm B (totalTaxRate params)),
          (SFmul_comm B (lit 0.37)).
        apply RoundFacts.SFmul_monotone; trivial.
        -- destruct Hrate as [<-|[<-|[<-|[<-|[<-|[<-|[<-|[]]]]]]]];
             reflexivity.
        -- destruct Hrate as [<-|[<-|[<-|[<-|[<-|[<-|[<-|[]]]]]]]];
             reflexivity.
        -- destruct Hrate as [<-|[<-|[<-|[<-|[<-|[<-|[<-|[]]]]]]]];
             reflexivity.
      * destruct Hrate as [<-|[<-|[<-|[<-|[<-|[<-|[<-|[]]]]]]]];
          reflexivity.
Qed.


Set Implicit Arguments.
End Binary64Bounds.

(** * What the page shows of a number *)

Module Shown.
Import Binary64 Round Binary64Facts ReferenceBuiltins.
Local Open Scope js_scope.
Local Open Scope string_scope.

(** A float between two positive floats of the same exponent has that
    exponent and a mantissa between theirs. *)
Lemma between_same_exponent (x : float) (lo hi : positive) (e : Z) :
  SFleb (S754_finite false lo e) x = true ->
  SFleb x (S754_finite false hi e) = true ->
  exists m, x = S754_finite false m e /\ (Zpos lo <= Zpos m <= Zpos hi)%Z.
Proof.
  unfold SFleb. destruct x as [[]|[]| |[] m ex]; cbn; try discriminate.
  intros H1 H2. exists m.
  order_cases; try discriminate; try lia.
  all: split; [congruence|lia].
Qed.

(** A float is not at most a float that it exceeds. *)
Lemma ltb_not_leb (x y : float) : SFltb x y = true -> SFleb y x = false.
Proof.
  unfold SFltb, SFleb.
  destruct x as [[]|[]| |[] mx ex], y as [[]|[]| |[] my ey]; cbn;
    try discriminate; try reflexivity;
    intros Hc; order_cases; try discriminate; try reflexivity; lia.
Qed.

(** X10: the percentage shown can hide why a result is flagged.  A
    front-end ratio above 0.28 and at most 0.2804 is displayed by
    [formatPercentage] as ["28.0%"], while [calculateHomeNetCost] compares
    the unrounded ratio with 0.28 and so does not flag it affordable. *)
Theorem shown_28_yet_above (ratio : float) :
  valid ratio = true ->
  (ratio > lit 0.28) = true -> (ratio <= lit 0.2804) = true ->
  formatPercentage ratio = "28.0%" /\ (ratio <= lit 0.28) = false.
Proof.
  intros Hv Hgt Hle.
  change (lit 0.28 : float)
    with (S754_finite false 5044031582654956 (-54)) in *.
  change (lit 0.2804 : float)
    with (S754_finite false 5051237342058748 (-54)) in *.
  cbn [leb ltb arith] in *.
  assert (Hfin : finite_or_zero ratio = true).
  { destruct ratio as [[]|[]| |[] m e]; try reflexivity; discriminate. }
  assert (Hge : SFleb (S754_finite false 5044031582654956 (-54)) ratio = true).
  { revert Hgt. unfold SFltb, SFleb.
    destruct (SFcompare _ ratio) as [[]|]; try discriminate; reflexivity. }
  split.
  - assert (Hlo : SFleb (SFmul prec emax
                           (S754_finite false 5044031582654956 (-54))
                           (lit 100))
                    (SFmul prec emax ratio (lit 100)) = true)
      by (apply RoundFacts.SFmul_monotone; trivial; reflexivity).
    assert (Hhi : SFleb (SFmul prec emax ratio (lit 100))
                    (SFmul prec emax
                       (S754_finite false 5051237342058748 (-54))
                       (lit 100)) = true)
      by (apply RoundFacts.SFmul_monotone; trivial; reflexivity).
    assert (Elo : SFmul prec emax (S754_finite false 5044031582654956 (-54))
                    (lit 100)
                  = S754_finite false 7881299347898369 (-48))
      by (vm_compute; reflexivity).
    assert (Ehi : SFmul prec emax (S754_finite false 5051237342058748 (-54))
                    (lit 100)
                  = S754_finite false 7892558346966794 (-48))
      by (vm_compute; reflexivity).
    rewrite Elo in Hlo. rewrite Ehi in Hhi.
    change (formatPercentage ratio)
      with (toFixed (SFmul prec emax ratio (lit 100)) 1 ++ "%").
    destruct (between_same_exponent _ _ _ _ Hlo Hhi) as (m & -> & Hm).
    unfold toFixed.
    assert (Hbig : at_least_1e21 m (-48) = false).
    { unfold at_least_1e21. cbn [Z.leb Z.compare Z.opp].
      apply Z.leb_gt. change (10 ^ 21 * 2 ^ 48)%Z
        with 281474976710656000000000000000000000%Z. lia. }
    assert (Hn : nearest_fixed m (-48) 1 = 280%Z).
    { unfold nearest_fixed. cbn [Z.leb Z.compare Z.opp Z.sub Z.of_nat].
      change (10 ^ Z.of_nat 1)%Z with 10%Z.
      change (2 ^ 48)%Z with 281474976710656%Z.
      change (2 ^ (1 - -48))%Z with 562949953421312%Z.
      symmetry.
      apply (Z.div_unique _ _ _
               (2 * (Zpos m * 10) + 281474976710656
                - 562949953421312 * 280)%Z); lia. }
    rewrite Hbig, Hn. reflexivity.
  - apply ltb_not_leb. exact Hgt.
Qed.

(** [Math.abs] ignores the sign. *)
Lemma Math_abs_neg (x : float) : Math_abs (neg x) = Math_abs x.
Proof. destruct x as [[]|[]| |[] m e]; reflexivity. Qed.

(** X11: the breakdown shows magnitudes only.  Changing the sign of each
    of the nine breakdown amounts that [displayResults] lists leaves
    everything [displayResults] does unchanged, for every formatter and
    every document: each amount goes through [Math.abs] before it is
    formatted, and the class of its row is fixed in the script. *)
Theorem breakdown_shows_magnitudes
    (I : Intl float) (window node : Type) (D : Dom window node)
    (result : Result.t float) (w : window) :
  displayResults (with_breakdown_negated result) w = displayResults result w.
Proof.
  unfold displayResults.
  cbn [with_breakdown_negated Result.totalNetCost Result.monthlyPayment
       Result.frontEndRatio Result.isAffordable Result.breakdown
       Result.warnings Breakdown.downPayment].
  assert (E : forall item1 item2 : Item.t float,
            Item.label item1 = Item.label item2 ->
            Item.type item1 = Item.type item2 ->
            Math_abs (Item.value item1) = Math_abs (Item.value item2) ->
            item_markup item1 = item_markup item2).
  { intros item1 item2 E1 E2 E3. unfold item_markup. now rewrite E1, E3. }
  unfold breakdownItems.
  cbn [with_breakdown_negated Result.breakdown
       Breakdown.annualMortgagePayment Breakdown.propertyTax
       Breakdown.insurance Breakdown.maintenance
       Breakdown.opportunityCostUpfront
       Breakdown.opportunityCostMortgagePayments
       Breakdown.homeAppreciationValue Breakdown.mortgageInterestTaxSavings
       Breakdown.propertyTaxTaxSavings forEach Item.type].
  repeat match goal with
  | |- context [item_markup {| Item.label := ?l; Item.value := neg (neg ?v);
                               Item.type := ?t |}] =>
      rewrite (E {| Item.label := l; Item.value := neg (neg v);
                    Item.type := t |}
                 {| Item.label := l; Item.value := neg v; Item.type := t |}
                 eq_refl eq_refl (Math_abs_neg (neg v)))
  | |- context [item_markup {| Item.label := ?l; Item.value := neg ?v;
                               Item.type := "negative" |}] =>
      rewrite (E {| Item.label := l; Item.value := neg v;
                    Item.type := "negative" |}
                 {| Item.label := l; Item.value := v; Item.type := "negative" |}
                 eq_refl eq_refl (Math_abs_neg v))
  end.
  reflexivity.
Qed.
End Shown.

(** * The form handler, for every document *)

Section FormFacts.
Context {num : Type} {A : Arith num} {H : Host num}.
Context {B : Builtins num} {I : Intl num}.
Context {window node : Type} {D : Dom window node}.
Local Open Scope js_scope.
Local Open Scope string_scope.

(** The lookup of an element whose property is used. *)
Lemma element_found (id : string) (w : window) (n : node) :
  getElementById id w = Some n -> element id w = (normal n, w).
Proof.
  intros E. unfold element, bind, document_getElementById, object.
  now rewrite E.
Qed.

Lemma element_missing (id : string) (w : window) :
  getElementById id w = None -> element (node := node) id w = (TypeError, w).
Proof.
  intros E. unfold element, bind, document_getElementById, object.
  now rewrite E.
Qed.

(** Reading the value of a field changes nothing, and throws if the field
    is missing. *)
Lemma input_value_spec (id : string) (w : window) :
  input_value id w
  = match field_value id w with
    | Some v => (normal v, w)
    | None => (TypeError, w)
    end.
Proof.
  unfold input_value, field_value, bind.
  destruct (getElementById id w) as [n|] eqn:E.
  - rewrite (element_found _ _ E). reflexivity.
  - rewrite (element_missing _ _ E). reflexivity.
Qed.

(** The next field read in the goal, present or missing. *)
Ltac read_field :=
  match goal with
  | |- context [input_value ?id ?w] =>
      rewrite (input_value_spec id w);
      let v := fresh "v" in
      destruct (field_value id w) as [v|] eqn:?
  end.

(** What the handler reads when it completes. *)
Lemma formParams_reads (w w' : window) (params : Params.t num) :
  formParams w = (normal params, w') ->
  w' = w
  /\ Some (Params.housePrice params)
     = option_map parseFloat (field_value "housePrice" w)
  /\ Some (Params.userIncome params)
     = option_map parseFloat (field_value "userIncome" w)
  /\ Some (Params.mortgageRate params)
     = option_map parseFloat (field_value "mortgageRate" w)
  /\ Some (Params.homeAppreciation params)
     = option_map parseFloat (field_value "homeAppreciation" w)
  /\ Some (Params.filingStatus params) = field_value "filingStatus" w
  /\ Params.downPaymentPercent params
     = option_map parseFloat (field_value "downPayment" w)
  /\ Params.opportunityCostRate params
     = option_map parseFloat (field_value "opportunityCost" w)
  /\ Params.maintenanceCostRate params
     = option_map parseFloat (field_value "maintenanceCost" w)
  /\ Params.propertyTaxRate params
     = option_map parseFloat (field_value "propertyTaxRate" w)
  /\ insurance params = Params.housePrice params * lit 0.005
  /\ closingCosts params = Params.housePrice params * lit 0.03
  /\ mortgageYears params = lit 30.
Proof.
  unfold formParams, bind.
  repeat (read_field; [|discriminate]).
  unfold ret. intros E. injection E as <- <-.
  cbn [option_map Params.housePrice Params.userIncome Params.mortgageRate
       Params.homeAppreciation Params.filingStatus Params.downPaymentPercent
       Params.opportunityCostRate Params.maintenanceCostRate
       Params.propertyTaxRate].
  repeat split.
Qed.

(** X12: when the handler has built its argument, the document is as it
    was, each numeric parameter is [parseFloat] of the value of its field
    (the down payment from [downPayment], the opportunity cost rate from
    [opportunityCost], the maintenance rate from [maintenanceCost]), the
    filing status is the text of its field, and, since the form has no
    field for them, the calculation uses the defaults: insurance at 0.005
    and closing costs at 0.03 of the house price, and a term of 30
    years. *)
Theorem form_params (w w' : window) (params : Params.t num) :
  formParams w = (normal params, w') ->
  w' = w
  /\ Some (Params.housePrice params)
     = option_map parseFloat (field_value "housePrice" w)
  /\ Some (Params.userIncome params)
     = option_map parseFloat (field_value "userIncome" w)
  /\ Some (Params.mortgageRate params)
     = option_map parseFloat (field_value "mortgageRate" w)
  /\ Some (Params.homeAppreciation params)
     = option_map parseFloat (field_value "homeAppreciation" w)
  /\ Some (Params.filingStatus params) = field_value "filingStatus" w
  /\ Params.downPaymentPercent params
     = option_map parseFloat (field_value "downPayment" w)
  /\ Params.opportunityCostRate params
     = option_map parseFloat (field_value "opportunityCost" w)
  /\ Params.maintenanceCostRate params
     = option_map parseFloat (field_value "maintenanceCost" w)
  /\ Params.propertyTaxRate params
     = option_map parseFloat (field_value "propertyTaxRate" w)
  /\ insurance params = Params.housePrice params * lit 0.005
  /\ closingCosts params = Params.housePrice params * lit 0.03
  /\ mortgageYears params = lit 30.
Proof. apply formParams_reads. Qed.

(** X13: the handler builds its argument, leaving the document as it was,
    exactly when the document has an element for each of the nine fields
    that the handler reads. *)
Theorem form_params_complete (w : window) :
  (exists params, formParams w = (normal params, w))
  <-> Forall (fun id => getElementById id w <> None) form_fields.
Proof.
  unfold form_fields. split.
  - intros [params E]. revert E. unfold formParams, bind.
    repeat (read_field; [|discriminate]). intros _.
    unfold field_value in *.
    repeat constructor;
      match goal with
      | |- getElementById ?id w <> None =>
          destruct (getElementById id w); [discriminate|]
      end; discriminate.
  - intros Hall.
    repeat match goal with
    | Hf : Forall _ (_ :: _) |- _ => inversion_clear Hf
    end.
    unfold formParams, bind.
    repeat (read_field;
            [|unfold field_value in *;
              match goal with
              | Hn : option_map _ (getElementById ?id w) = None |- _ =>
                  destruct (getElementById id w); [discriminate|contradiction]
              end]).
    eexists. reflexivity.
Qed.

(** X14: when one of the nine fields is missing from the document, the
    handler ends with a [TypeError] after [preventDefault] and leaves the
    window otherwise as it was: nothing is calculated or displayed, and the
    form is not submitted either. *)
Theorem missing_field_aborts (w : window) (id : string) :
  In id form_fields ->
  getElementById id (preventDefault w) = None ->
  onSubmit w = (TypeError, preventDefault w).
Proof.
  intros Hin Hnone. unfold onSubmit, bind at 1, effect.
  generalize dependent (preventDefault w). clear w. intros w Hnone.
  assert (Hf : field_value id w = None)
    by (unfold field_value; now rewrite Hnone).
  unfold bind at 1.
  assert (Hp : formParams w = (TypeError, w)).
  { unfold formParams, bind. unfold form_fields in Hin. cbn [In] in Hin.
    repeat (read_field; [|reflexivity]).
    repeat (destruct Hin as [<- | Hin]; [congruence|]). contradiction. }
  now rewrite Hp.
Qed.
End FormFacts.

(** * The script as a sequence of steps *)

Section ScriptFacts.
Context {window node : Type} {D : Dom window node}.
Context {X Y : Type}.

(** The steps of a script, one equation for each kind of statement. *)
Lemma bind_element (id : string) (k : node -> Script window Y) (w : window) :
  bind (element id) k w
  = match getElementById id w with
    | Some n => k n w
    | None => (TypeError, w)
    end.
Proof.
  unfold element, bind, document_getElementById, object.
  destruct (getElementById id w); reflexivity.
Qed.

Lemma bind_effect (f : window -> window) (k : unit -> Script window Y)
    (w : window) :
  bind (effect f) k w = k tt (f w).
Proof. reflexivity. Qed.

Lemma bind_lookup (id : string) (k : option node -> Script window Y)
    (w : window) :
  bind (document_getElementById id) k w = k (getElementById id w) w.
Proof. reflexivity. Qed.

Lemma bind_object (x : option node) (k : node -> Script window Y)
    (w : window) :
  bind (object x) k w
  = match x with
    | Some n => k n w
    | None => (TypeError, w)
    end.
Proof. unfold bind, object. destruct x; reflexivity. Qed.

Lemma bind_assoc (m : Script window X) (f : X -> Script window Y)
    {Z : Type} (k : Y -> Script window Z) (w : window) :
  bind (bind m f) k w = bind m (fun x => bind (f x) k) w.
Proof. unfold bind. destruct (m w) as [[x|] w']; reflexivity. Qed.

(** A loop whose body always completes normally runs as a fold. *)
Lemma bind_forEach (callback : X -> Script window unit)
    (step : X -> window -> window) (array : list X)
    (k : unit -> Script window Y) (w : window) :
  (forall x w, callback x w = (normal tt, step x w)) ->
  bind (forEach array callback) k w
  = k tt (fold_left (fun w x => step x w) array w).
Proof.
  intros E. unfold bind at 1.
  replace (forEach array callback w)
    with (normal tt, fold_left (fun w x => step x w) array w); [reflexivity|].
  revert w. induction array as [|x array IH]; intros w; cbn [forEach fold_left].
  - reflexivity.
  - unfold bind. rewrite E. apply IH.
Qed.
End ScriptFacts.

Section HandlerFacts.
Context {num : Type} {A : Arith num} {H : Host num}.
Context {B : Builtins num} {I : Intl num}.
Context {window node : Type} {D : Dom window node}.

(** The handler: [preventDefault], the argument, the calculation and the
    display. *)
Lemma onSubmit_steps (w : window) :
  onSubmit w
  = match formParams (preventDefault w) with
    | (normal params, w') => displayResults (calculateHomeNetCost params) w'
    | (TypeError, w') => (TypeError, w')
    end.
Proof. reflexivity. Qed.
End HandlerFacts.

(** * The script on the reference page *)

Module PageFacts.
Local Open Scope string_scope.

(** The lookup by [id] depends on the ids of the handles in use only. *)
Lemma find_seq_ext (f g : nat -> bool) (s n : nat) :
  (forall k, s <= k < s + n -> f k = g k)%nat ->
  find f (seq s n) = find g (seq s n).
Proof.
  revert s. induction n as [|n IH]; intros s E; cbn [seq find].
  - reflexivity.
  - rewrite (E s) by lia. destruct (g s); [reflexivity|].
    apply IH. intros k Hk. apply E. lia.
Qed.

Lemma find_seq_last (f : nat -> bool) (n : nat) :
  f n = false -> find f (seq 0 (S n)) = find f (seq 0 n).
Proof.
  intros E. rewrite seq_S. cbn [Nat.add].
  induction (seq 0 n) as [|x l IH]; cbn [app find].
  - now rewrite E.
  - destruct (f x); [reflexivity|exact IH].
Qed.

(** A window with the same elements under the same [id]s finds the same
    ones. *)
Lemma getElementById_same_ids (i : string) (w w' : Page.t) :
  Page.count w' = Page.count w ->
  (forall k, Page.id (Page.element_at w' k) = Page.id (Page.element_at w k)) ->
  getElementById i w' = getElementById i w.
Proof.
  intros Ec Eid. cbn [getElementById page_dom]. unfold Page.getElementById.
  destruct (String.eqb i ""); trivial.
  rewrite Ec. apply find_seq_ext. intros k _. now rewrite Eid.
Qed.

(** No statement of the script changes an [id], so every lookup gives the
    same element throughout. *)
Lemma getElementById_update (i : string) (n : nat)
    (f : Page.element -> Page.element) (w : Page.t) :
  (forall e, Page.id (f e) = Page.id e) ->
  getElementById i (Page.update n f w) = getElementById i w.
Proof.
  intros Ef. apply getElementById_same_ids; [reflexivity|].
  intros k. cbn. destruct (Nat.eqb k n); [apply Ef|reflexivity].
Qed.

Lemma lookup_set_style_display (i : string) (n : nat) (d : string)
    (w : Page.t) :
  getElementById i (set_style_display n d w) = getElementById i w.
Proof. now apply getElementById_update. Qed.

Lemma lookup_set_className (i : string) (n : nat) (c : string) (w : Page.t) :
  getElementById i (set_className n c w) = getElementById i w.
Proof. now apply getElementById_update. Qed.

Lemma lookup_set_textContent (i : string) (n : nat) (s : string)
    (w : Page.t) :
  getElementById i (set_textContent n s w) = getElementById i w.
Proof. now apply getElementById_update. Qed.

Lemma lookup_set_innerHTML (i : string) (n : nat) (s : string) (w : Page.t) :
  getElementById i (set_innerHTML n s w) = getElementById i w.
Proof. now apply getElementById_update. Qed.

Lemma lookup_appendChild (i : string) (parent c : nat) (w : Page.t) :
  getElementById i (appendChild parent c w) = getElementById i w.
Proof.
  cbn [appendChild page_dom]. unfold Page.appendChild.
  rewrite getElementById_update by reflexivity.
  now apply getElementById_same_ids.
Qed.

Lemma lookup_scrollIntoView (i : string) (n : nat) (b : string)
    (w : Page.t) :
  getElementById i (scrollIntoView n b w) = getElementById i w.
Proof. now apply getElementById_same_ids. Qed.

Lemma lookup_createElement (i tag : string) (w : Page.t) :
  getElementById i (snd (createElement tag w)) = getElementById i w.
Proof.
  cbn [getElementById createElement page_dom].
  unfold Page.getElementById, Page.createElement.
  cbn [snd Page.count Page.element_at].
  destruct (String.eqb i "") eqn:Ei; [reflexivity|].
  rewrite find_seq_last.
  - apply find_seq_ext. intros k Hk.
    replace (Nat.eqb k (Page.count w)) with false; [reflexivity|].
    symmetry. apply Nat.eqb_neq. lia.
  - rewrite Nat.eqb_refl. cbn [Page.blank Page.id]. now rewrite String.eqb_sym.
Qed.

Lemma lookup_fold {X : Type} (step : X -> Page.t -> Page.t) (array : list X)
    (i : string) (w : Page.t) :
  (forall x w, getElementById i (step x w) = getElementById i w) ->
  getElementById i (fold_left (fun w x => step x w) array w)
  = getElementById i w.
Proof.
  intros E. revert w. induction array as [|x array IH]; intros w;
    cbn [fold_left]; [reflexivity|].
  now rewrite IH.
Qed.

(** An element that was looked up is in use and has the [id]; elements
    found under different ids differ. *)
Lemma getElementById_found (i : string) (w : Page.t) (n : nat) :
  getElementById i w = Some n ->
  (n < Page.count w)%nat /\ Page.id (Page.element_at w n) = i /\ i <> "".
Proof.
  cbn [getElementById page_dom]. unfold Page.getElementById.
  destruct (String.eqb i "") eqn:Ei; [discriminate|].
  intros E. apply find_some in E as [Hin E].
  apply in_seq in Hin. apply String.eqb_eq in E.
  apply String.eqb_neq in Ei. repeat split; trivial; lia.
Qed.

Lemma distinct_elements (i j : string) (w : Page.t) (n m : nat) :
  getElementById i w = Some n -> getElementById j w = Some m ->
  i <> j -> n <> m.
Proof.
  intros Hi Hj Hij ->.
  apply getElementById_found in Hi as (_ & Hi & _).
  apply getElementById_found in Hj as (_ & Hj & _). congruence.
Qed.

(** Detaching a child keeps the handles of the children below a bound. *)
Lemma filter_children_below (n c : nat) (l : list Page.child) :
  Forall (fun c => match c with
                   | Page.node k => (k < n)%nat
                   | _ => True
                   end) l ->
  (n <= c)%nat ->
  filter (fun x => negb (Page.is_node c x)) l = l.
Proof.
  intros Hall Hc. induction Hall as [|x l Hx Hall IH]; cbn [filter].
  - reflexivity.
  - rewrite IH. destruct x as [s|s|k]; cbn [Page.is_node negb]; trivial.
    replace (Nat.eqb k c) with false; [reflexivity|].
    symmetry. apply Nat.eqb_neq. lia.
Qed.

(** Detaching a new element changes no element whose children are older. *)
Lemma without_child_below (n c : nat) (e : Page.element) :
  children_below n e -> (n <= c)%nat -> Page.without_child c e = e.
Proof.
  intros Hall Hc. unfold Page.without_child.
  rewrite (filter_children_below Hall Hc). now destruct e.
Qed.

Lemma children_below_le (n m : nat) (e : Page.element) :
  children_below n e -> (n <= m)%nat -> children_below m e.
Proof.
  unfold children_below. intros Hall Hnm.
  eapply Forall_impl; [|exact Hall].
  intros [s|s|k]; trivial. cbv beta iota. lia.
Qed.
(** *** Loops that append new elements to a container *)

Section Loop.
Local Open Scope list_scope.
Variables (X : Type) (step : nat -> X -> Page.t -> Page.t).
Variable make : X -> Page.element.
Hypothesis step_count : forall c x w,
  Page.count (step c x w) = S (Page.count w).
Hypothesis step_new : forall c x w,
  (c < Page.count w)%nat ->
  Page.element_at (step c x w) (Page.count w) = make x.
Hypothesis step_other : forall c x w k,
  k <> c -> (k < Page.count w)%nat ->
  children_below (Page.count w) (Page.element_at w k) ->
  Page.element_at (step c x w) k = Page.element_at w k.
Hypothesis step_container : forall c x w,
  (c < Page.count w)%nat ->
  children_below (Page.count w) (Page.element_at w c) ->
  Page.childNodes (Page.element_at (step c x w) c)
  = Page.childNodes (Page.element_at w c) ++ [Page.node (Page.count w)].
Hypothesis make_leaf : forall x n, children_below n (make x).

(** A loop that appends one new element in each round: the container gets
    the new handles as its last children, the new elements are as made, and
    the other elements are as before. *)
Lemma loop_spec (array : list X) (c : nat) (w : Page.t) :
  (c < Page.count w)%nat ->
  children_below (Page.count w) (Page.element_at w c) ->
  let w' := fold_left (fun w x => step c x w) array w in
  Page.count w' = (Page.count w + List.length array)%nat
  /\ Page.childNodes (Page.element_at w' c)
     = Page.childNodes (Page.element_at w c)
       ++ map Page.node (seq (Page.count w) (List.length array))
  /\ (forall j x, nth_error array j = Some x ->
        Page.element_at w' (Page.count w + j) = make x)
  /\ (forall k, k <> c -> (k < Page.count w)%nat ->
        children_below (Page.count w) (Page.element_at w k) ->
        Page.element_at w' k = Page.element_at w k).
Proof.
  revert w. induction array as [|x array IH]; intros w Hc Hall;
    cbn [fold_left List.length seq map].
  - rewrite Nat.add_0_r, app_nil_r. repeat split; trivial.
    intros [|j] y; discriminate.
  - set (w1 := step c x w).
    assert (Hcount : Page.count w1 = S (Page.count w)) by apply step_count.
    assert (Hc1 : (c < Page.count w1)%nat) by lia.
    assert (Hall1 : children_below (Page.count w1) (Page.element_at w1 c)).
    { unfold children_below. subst w1. rewrite step_container by trivial.
      rewrite Hcount. apply Forall_app. split.
      - apply (children_below_le Hall). lia.
      - repeat constructor. }
    destruct (IH w1 Hc1 Hall1) as (IHcount & IHchildren & IHnew & IHother).
    cbv zeta in *. rewrite Hcount in *. repeat split.
    + lia.
    + rewrite IHchildren. subst w1. rewrite step_container by trivial.
      rewrite <- app_assoc. reflexivity.
    + intros [|j] y Hy; cbn [nth_error] in Hy.
      * injection Hy as <-. rewrite Nat.add_0_r.
        rewrite IHother; [now apply step_new| | |]; try lia.
        subst w1. rewrite step_new by trivial. apply make_leaf.
      * replace (Page.count w + S j)%nat with (S (Page.count w) + j)%nat
          by lia.
        now apply IHnew.
    + intros k Hk Hlt Hallk.
      assert (E : Page.element_at w1 k = Page.element_at w k)
        by now apply step_other.
      rewrite IHother; trivial; try lia.
      rewrite E. apply (children_below_le Hallk). lia.
Qed.

(** The children that a loop on an empty container leaves are the new
    elements. *)
Lemma loop_content (array : list X) (c : nat) (w : Page.t) :
  (c < Page.count w)%nat ->
  Page.childNodes (Page.element_at w c) = [] ->
  Page.content (fold_left (fun w x => step c x w) array w) c
  = map (fun x => inr (make x)) array.
Proof.
  intros Hc Hnil.
  assert (Hall : children_below (Page.count w) (Page.element_at w c))
    by (unfold children_below; rewrite Hnil; constructor).
  destruct (@loop_spec array c w Hc Hall) as (_ & Hchildren & Hnew & _).
  cbv zeta in *. unfold Page.content. rewrite Hchildren, Hnil. cbn [app].
  rewrite map_map.
  generalize dependent (fold_left (fun w x => step c x w) array w).
  intros w' _. generalize (Page.count w). clear.
  induction array as [|x array IH]; intros s Hnew; cbn [List.length seq map].
  - reflexivity.
  - f_equal.
    + specialize (Hnew 0%nat x eq_refl). rewrite Nat.add_0_r in Hnew.
      now rewrite Hnew.
    + apply IH. intros j y Hy.
      replace (S s + j)%nat with (s + S j)%nat by lia. now apply Hnew.
Qed.
End Loop.

(** One round of a loop, as updates of the store. *)
Ltac open_round :=
  unfold add_row, add_warning, Page.createElement; cbv iota beta;
  unfold Page.appendChild, Page.set_innerHTML, Page.set_className,
    Page.set_textContent, Page.update, Page.with_elements;
  cbn [Page.element_at Page.count].

(** The test of two handles that differ. *)
Ltac unequal a b :=
  replace (Nat.eqb a b) with false
    by (symmetry; apply Nat.eqb_neq; first [assumption | lia]).

Section Display.
Context {num : Type} {A : Arith num} {H : Host num}.
Context {B : Builtins num} {I : Intl num}.

(** The rounds of the loops do not change the lookups. *)
Lemma lookup_add_row (i : string) (container : nat) (item : Item.t num)
    (w : Page.t) :
  getElementById i (add_row container item w) = getElementById i w.
Proof.
  unfold add_row.
  change (Page.createElement "div" w)
    with (Page.count w, snd (createElement "div" w)).
  cbv iota beta.
  etransitivity; [apply lookup_appendChild|].
  etransitivity; [apply lookup_set_innerHTML|].
  etransitivity; [apply lookup_set_className|].
  apply lookup_createElement.
Qed.

Lemma lookup_add_warning (i : string) (ul : nat) (warning : string)
    (w : Page.t) :
  getElementById i (add_warning ul warning w) = getElementById i w.
Proof.
  unfold add_warning.
  change (Page.createElement "li" w)
    with (Page.count w, snd (createElement "li" w)).
  cbv iota beta.
  etransitivity; [apply lookup_appendChild|].
  etransitivity; [apply lookup_set_textContent|].
  apply lookup_createElement.
Qed.

Local Open Scope script_scope.

(** The two loops of [displayResults] run as folds of their rounds. *)
Lemma bind_rows {Y : Type} (container : nat) (items : list (Item.t num))
    (k : unit -> Script Page.t Y) (w : Page.t) :
  bind (forEach items (fun item =>
          div <- document_createElement "div";;
          effect (set_className div ("breakdown-item " ++ Item.type item));;
          effect (set_innerHTML div (item_markup item));;
          effect (appendChild container div)))
       k w
  = k tt (fold_left (fun w item => add_row container item w) items w).
Proof. apply bind_forEach. reflexivity. Qed.

Lemma bind_warnings {Y : Type} (ul : nat) (warnings : list string)
    (k : unit -> Script Page.t Y) (w : Page.t) :
  bind (forEach warnings (fun warning =>
          li <- document_createElement "li";;
          effect (set_textContent li warning);;
          effect (appendChild ul li)))
       k w
  = k tt (fold_left (fun w warning => add_warning ul warning w) warnings w).
Proof. apply bind_forEach. reflexivity. Qed.

(** Runs the straight-line statements at the head of the script in the
    goal, up to the next lookup whose result is dereferenced. *)
Ltac run :=
  repeat match goal with
  | |- context [bind (forEach ?l
                        (fun _ => bind (document_createElement "div") _))
                  ?k ?w] =>
      rewrite bind_rows
  | |- context [bind (forEach ?l
                        (fun _ => bind (document_createElement "li") _))
                  ?k ?w] =>
      rewrite bind_warnings
  | |- context [bind (bind ?m ?f) ?k ?w] => rewrite (bind_assoc m f k w)
  | |- context [bind (effect ?f) ?k ?w] => rewrite (bind_effect f k w)
  | |- context [bind (document_getElementById ?i) ?k ?w] =>
      rewrite (bind_lookup i k w)
  | |- context [bind (element ?i) ?k ?w] => rewrite (bind_element i k w)
  | |- context [bind (object ?x) ?k ?w] => rewrite (bind_object x k w)
  | |- context [getElementById ?i (fold_left (fun w0 x => add_row ?c x w0)
                                     ?l ?w)] =>
      rewrite (lookup_fold (add_row c) l i w)
        by (intros; apply lookup_add_row)
  | |- context [getElementById ?i (fold_left (fun w0 x => add_warning ?c x w0)
                                     ?l ?w)] =>
      rewrite (lookup_fold (add_warning c) l i w)
        by (intros; apply lookup_add_warning)
  | |- context [getElementById ?i (set_style_display ?n ?d ?w)] =>
      rewrite (lookup_set_style_display i n d w)
  | |- context [getElementById ?i (set_className ?n ?c ?w)] =>
      rewrite (lookup_set_className i n c w)
  | |- context [getElementById ?i (set_textContent ?n ?s ?w)] =>
      rewrite (lookup_set_textContent i n s w)
  | |- context [getElementById ?i (set_innerHTML ?n ?s ?w)] =>
      rewrite (lookup_set_innerHTML i n s w)
  | |- context [getElementById ?i (scrollIntoView ?n ?b ?w)] =>
      rewrite (lookup_scrollIntoView i n b w)
  end.

(** The next lookup in the goal, found or not. *)
Ltac found_or_not :=
  match goal with
  | |- context [match getElementById ?id ?w with _ => _ end] =>
      destruct (getElementById id w) eqn:?; [|reflexivity]
  end.

(** On a page of this model, where a lookup searches every element of the
    store, [displayResults] completes exactly when the elements it uses
    are among them. *)
Lemma completed_displayResults (result : Result.t num) (w : Page.t) :
  completed (displayResults result w) = forallb (present w) (required result).
Proof.
  unfold displayResults, required, present. cbn [app forallb].
  run. found_or_not. run. found_or_not. run. found_or_not.
  run. found_or_not. run. found_or_not.
  assert (Hend : forall (s : nat) (w' : Page.t),
            getElementById "results" w = Some s ->
            completed
              (match getElementById "results" w with
               | Some n => effect (scrollIntoView n "smooth") w'
               | None => (TypeError, w')
               end) = true)
    by (intros s w' E; rewrite E; reflexivity).
  destruct (Result.isAffordable result); run; found_or_not; run;
    found_or_not; run;
    (destruct (Result.warnings result) as [|warning warnings];
     cbn [List.length Nat.ltb Nat.leb forallb andb]; run; found_or_not; run;
     [|found_or_not; run]);
    cbn [andb]; eapply Hend; eassumption.
Qed.

(** *** The rounds of the two loops *)

Lemma add_row_count (container : nat) (item : Item.t num) (w : Page.t) :
  Page.count (add_row container item w) = S (Page.count w).
Proof. reflexivity. Qed.

Lemma add_warning_count (ul : nat) (warning : string) (w : Page.t) :
  Page.count (add_warning ul warning w) = S (Page.count w).
Proof. reflexivity. Qed.

(** The new element of a round. *)
Lemma add_row_new (container : nat) (item : Item.t num) (w : Page.t) :
  (container < Page.count w)%nat ->
  Page.element_at (add_row container item w) (Page.count w) = row item.
Proof.
  intros Hc. open_round. rewrite Nat.eqb_refl.
  unequal (Page.count w) container. reflexivity.
Qed.

Lemma add_warning_new (ul : nat) (warning : string) (w : Page.t) :
  (ul < Page.count w)%nat ->
  Page.element_at (add_warning ul warning w) (Page.count w)
  = warning_item warning.
Proof.
  intros Hc. open_round. rewrite Nat.eqb_refl.
  unequal (Page.count w) ul.
  unfold warning_item. destruct (String.eqb warning ""); reflexivity.
Qed.

(** A round leaves the elements other than the container as they were. *)
Lemma add_row_other (container : nat) (item : Item.t num) (w : Page.t)
    (k : nat) :
  k <> container -> (k < Page.count w)%nat ->
  children_below (Page.count w) (Page.element_at w k) ->
  Page.element_at (add_row container item w) k = Page.element_at w k.
Proof.
  intros Hk Hlt Hall. open_round.
  unequal k container. unequal k (Page.count w).
  now apply without_child_below with (n := Page.count w).
Qed.

Lemma add_warning_other (ul : nat) (warning : string) (w : Page.t)
    (k : nat) :
  k <> ul -> (k < Page.count w)%nat ->
  children_below (Page.count w) (Page.element_at w k) ->
  Page.element_at (add_warning ul warning w) k = Page.element_at w k.
Proof.
  intros Hk Hlt Hall. open_round.
  unequal k ul. unequal k (Page.count w).
  now apply without_child_below with (n := Page.count w).
Qed.

(** A round appends the new element to the container. *)
Lemma add_row_container (container : nat) (item : Item.t num) (w : Page.t) :
  (container < Page.count w)%nat ->
  children_below (Page.count w) (Page.element_at w container) ->
  Page.childNodes (Page.element_at (add_row container item w) container)
  = (Page.childNodes (Page.element_at w container)
     ++ [Page.node (Page.count w)])%list.
Proof.
  intros Hlt Hall. open_round. rewrite Nat.eqb_refl.
  unequal container (Page.count w).
  now rewrite (without_child_below Hall (Nat.le_refl _)).
Qed.

Lemma add_warning_container (ul : nat) (warning : string) (w : Page.t) :
  (ul < Page.count w)%nat ->
  children_below (Page.count w) (Page.element_at w ul) ->
  Page.childNodes (Page.element_at (add_warning ul warning w) ul)
  = (Page.childNodes (Page.element_at w ul)
     ++ [Page.node (Page.count w)])%list.
Proof.
  intros Hlt Hall. open_round. rewrite Nat.eqb_refl.
  unequal ul (Page.count w).
  now rewrite (without_child_below Hall (Nat.le_refl _)).
Qed.

(** The new elements have no element children. *)
Lemma row_leaf (item : Item.t num) (n : nat) : children_below n (row item).
Proof. repeat constructor. Qed.

Lemma warning_item_leaf (warning : string) (n : nat) :
  children_below n (warning_item warning).
Proof.
  unfold children_below, warning_item. cbn [Page.childNodes].
  destruct (String.eqb warning ""); repeat constructor.
Qed.

(** The loop over [breakdownItems]. *)
Lemma rows_spec (items : list (Item.t num)) (c : nat) (w : Page.t) :
  (c < Page.count w)%nat ->
  children_below (Page.count w) (Page.element_at w c) ->
  let w' := fold_left (fun w item => add_row c item w) items w in
  Page.count w' = (Page.count w + List.length items)%nat
  /\ Page.childNodes (Page.element_at w' c)
     = (Page.childNodes (Page.element_at w c)
        ++ map Page.node (seq (Page.count w) (List.length items)))%list
  /\ (forall j item, nth_error items j = Some item ->
        Page.element_at w' (Page.count w + j) = row item)
  /\ (forall k, k <> c -> (k < Page.count w)%nat ->
        children_below (Page.count w) (Page.element_at w k) ->
        Page.element_at w' k = Page.element_at w k).
Proof.
  apply (loop_spec (fun c (item : Item.t num) w => add_row c item w) row
           add_row_count add_row_new add_row_other add_row_container
           row_leaf).
Qed.

(** The loop over the warnings. *)
Lemma warnings_spec (warnings : list string) (ul : nat) (w : Page.t) :
  (ul < Page.count w)%nat ->
  children_below (Page.count w) (Page.element_at w ul) ->
  let w' := fold_left (fun w warning => add_warning ul warning w) warnings w in
  Page.count w' = (Page.count w + List.length warnings)%nat
  /\ Page.childNodes (Page.element_at w' ul)
     = (Page.childNodes (Page.element_at w ul)
        ++ map Page.node (seq (Page.count w) (List.length warnings)))%list
  /\ (forall j warning, nth_error warnings j = Some warning ->
        Page.element_at w' (Page.count w + j) = warning_item warning)
  /\ (forall k, k <> ul -> (k < Page.count w)%nat ->
        children_below (Page.count w) (Page.element_at w k) ->
        Page.element_at w' k = Page.element_at w k).
Proof.
  apply (loop_spec add_warning warning_item
           add_warning_count add_warning_new add_warning_other
           add_warning_container warning_item_leaf).
Qed.

(** The content of an element is the same in a window where the element and
    its element children are the same. *)
Lemma content_unchanged (w1 w2 : Page.t) (c : nat) :
  Page.element_at w2 c = Page.element_at w1 c ->
  (forall h, In (Page.node h) (Page.childNodes (Page.element_at w1 c)) ->
     Page.element_at w2 h = Page.element_at w1 h) ->
  Page.content w2 c = Page.content w1 c.
Proof.
  intros Ec Eh. unfold Page.content. rewrite Ec.
  apply map_ext_in. intros [s|s|h] Hin; trivial. now rewrite Eh.
Qed.

(** The warnings part changes the warnings section and the list only. *)
Lemma after_warnings_other (warnings : list string) (section ul : nat)
    (w : Page.t) (k : nat) :
  (warnings <> [] -> (ul < Page.count w)%nat /\ k <> ul) ->
  k <> section -> (k < Page.count w)%nat ->
  children_below (Page.count w) (Page.element_at w k) ->
  Page.element_at (after_warnings warnings section ul w) k
  = Page.element_at w k.
Proof.
  intros Hul Hs Hk Hall. unfold after_warnings.
  assert (E : forall d, Page.element_at (Page.set_style_display section d w) k
                        = Page.element_at w k).
  { intros d. cbn. now unequal k section. }
  destruct warnings as [|warning warnings]; [apply E|].
  destruct Hul as [Hul Hu]; [discriminate|].
  set (w1 := Page.set_innerHTML ul ""
               (Page.set_style_display section "block" w)).
  assert (E1 : Page.element_at w1 k = Page.element_at w k).
  { subst w1. cbn. unequal k ul. now unequal k section. }
  assert (Hc1 : Page.count w1 = Page.count w) by reflexivity.
  assert (Hall1 : children_below (Page.count w1) (Page.element_at w1 ul)).
  { subst w1. unfold children_below. cbn. rewrite Nat.eqb_refl. constructor. }
  destruct (@warnings_spec (warning :: warnings) ul w1) as (_ & _ & _ & Ho);
    [lia|exact Hall1|].
  cbv zeta in Ho. rewrite Ho; trivial; try lia.
  rewrite E1, Hc1. exact Hall.
Qed.

(** The main results and the status create no element, and change only the
    elements they name. *)
Lemma after_main_results_count (result : Result.t num)
    (n n0 n1 n2 n3 n4 : nat) (w : Page.t) :
  Page.count (after_main_results result n n0 n1 n2 n3 n4 w) = Page.count w.
Proof.
  unfold after_main_results. now destruct (Result.isAffordable result).
Qed.

Lemma after_main_results_other (result : Result.t num)
    (n n0 n1 n2 n3 n4 : nat) (w : Page.t) (k : nat) :
  k <> n -> k <> n0 -> k <> n1 -> k <> n2 -> k <> n3 -> k <> n4 ->
  Page.element_at (after_main_results result n n0 n1 n2 n3 n4 w) k
  = Page.element_at w k.
Proof.
  intros. unfold after_main_results.
  destruct (Result.isAffordable result); cbn;
    unequal k n4; unequal k n3; unequal k n2; unequal k n1; unequal k n0;
    now unequal k n.
Qed.

(** In a well-formed page every element child is in use. *)
Lemma well_formed_children (w : Page.t) (k : nat) :
  Page.well_formed w = true -> (k < Page.count w)%nat ->
  children_below (Page.count w) (Page.element_at w k).
Proof.
  unfold Page.well_formed, children_below. intros Hwf Hk.
  rewrite forallb_forall in Hwf.
  specialize (Hwf k ltac:(apply in_seq; lia)).
  rewrite forallb_forall in Hwf. apply Forall_forall.
  intros [s|s|h] Hin; trivial.
  apply Nat.ltb_lt. exact (Hwf _ Hin).
Qed.

(** Runs the script past a lookup that is known to succeed. *)
Ltac run_found :=
  repeat (run;
          match goal with
          | E : getElementById ?i ?w = Some _
            |- context [match getElementById ?i ?w with _ => _ end] =>
              rewrite E
          end).

(** The window that [displayResults] leaves when it finds its elements. *)
Lemma displayResults_window (result : Result.t num) (w : Page.t)
    (results totalCost monthlyPayment frontEndRatio downPaymentResult
       statusElement container section ul : nat) :
  getElementById "results" w = Some results ->
  getElementById "totalCost" w = Some totalCost ->
  getElementById "monthlyPayment" w = Some monthlyPayment ->
  getElementById "frontEndRatio" w = Some frontEndRatio ->
  getElementById "downPaymentResult" w = Some downPaymentResult ->
  getElementById "affordabilityStatus" w = Some statusElement ->
  getElementById "breakdown" w = Some container ->
  getElementById "warnings" w = Some section ->
  (Result.warnings result <> [] ->
   getElementById "warningsList" w = Some ul) ->
  displayResults result w
  = (normal tt,
     after_displayResults result results totalCost monthlyPayment
       frontEndRatio downPaymentResult statusElement container section ul w).
Proof.
  intros E0 E1 E2 E3 E4 E5 E6 E7 E8.
  unfold displayResults, after_displayResults, after_main_results,
    after_warnings.
  destruct (Result.isAffordable result);
    (destruct (Result.warnings result) as [|warning warnings];
     [|specialize (E8 ltac:(discriminate))];
     cbn [List.length Nat.ltb Nat.leb]; run_found; reflexivity).
Qed.

(** The window that [displayResults] leaves when it completes. *)
Lemma displayResults_completed (result : Result.t num) (w : Page.t) :
  completed (displayResults result w) = true ->
  exists results totalCost monthlyPayment frontEndRatio downPaymentResult
         statusElement container section ul,
    getElementById "results" w = Some results
    /\ getElementById "totalCost" w = Some totalCost
    /\ getElementById "monthlyPayment" w = Some monthlyPayment
    /\ getElementById "frontEndRatio" w = Some frontEndRatio
    /\ getElementById "downPaymentResult" w = Some downPaymentResult
    /\ getElementById "affordabilityStatus" w = Some statusElement
    /\ getElementById "breakdown" w = Some container
    /\ getElementById "warnings" w = Some section
    /\ (Result.warnings result <> [] ->
        getElementById "warningsList" w = Some ul)
    /\ snd (displayResults result w)
       = after_displayResults result results totalCost monthlyPayment
           frontEndRatio downPaymentResult statusElement container section
           ul w.
Proof.
  intros Hc. rewrite completed_displayResults in Hc.
  unfold required, present in Hc. cbn [app forallb] in Hc.
  repeat match type of Hc with
  | (match getElementById ?i w with _ => _ end && _)%bool = true =>
      let H := fresh "Hp" in
      apply andb_prop in Hc as [H Hc];
      destruct (getElementById i w) eqn:?; [clear H | discriminate H]
  end.
  assert (Hul : exists ul, Result.warnings result <> [] ->
                           getElementById "warningsList" w = Some ul).
  { destruct (Result.warnings result) as [|warning warnings].
    - exists 0%nat. intros Hn. now contradiction Hn.
    - cbn [forallb] in Hc.
      destruct (getElementById "warningsList" w) as [ul|];
        [|discriminate Hc].
      now exists ul. }
  destruct Hul as [ul Hul].
  do 9 eexists. repeat (split; [eassumption || reflexivity|]).
  erewrite displayResults_window by eassumption. reflexivity.
Qed.

(** X15: [displayResults] runs to its end only if the document has the
    elements [results], [totalCost], [monthlyPayment], [frontEndRatio],
    [downPaymentResult], [affordabilityStatus], [breakdown] and [warnings],
    and, if the result carries a warning, [warningsList]: when one of them
    is missing, it stops with a [TypeError]. *)
Theorem displayResults_needs_elements (result : Result.t num) (w : Page.t) :
  (completed (displayResults result w) = true ->
   forallb (present w) (required result) = true)
  /\ (forall id : string,
        In id (required result) -> getElementById id w = None ->
        fst (displayResults result w) = TypeError).
Proof.
  split.
  - intros Hc. now rewrite <- completed_displayResults.
  - intros id Hin Hnone.
    assert (Hc : completed (displayResults result w) = false).
    { rewrite completed_displayResults.
      apply not_true_is_false. intros Hall.
      rewrite forallb_forall in Hall. specialize (Hall id Hin).
      unfold present in Hall. rewrite Hnone in Hall. discriminate. }
    destruct (displayResults result w) as [[x|] w']; [discriminate|].
    reflexivity.
Qed.

(** X16: when [displayResults] completes, the content of the [breakdown]
    container is exactly the rows of the nine entries of [breakdownItems],
    in that order, whatever the container held before: each row is a [div]
    of class ["breakdown-item "] followed by the type of the entry, with the
    markup of the entry as its content. *)
Theorem breakdown_rows (result : Result.t num) (w : Page.t) :
  completed (displayResults result w) = true ->
  exists container,
    getElementById "breakdown" w = Some container
    /\ Page.content (snd (displayResults result w)) container
       = map (fun item => inr (row item)) (breakdownItems result).
Proof.
  intros Hc.
  destruct (displayResults_completed _ _ Hc)
    as (n & n0 & n1 & n2 & n3 & n4 & c & s & ul
        & E & E0 & E1 & E2 & E3 & E4 & Ec & Es & Eul & ->).
  exists c. split; [exact Ec|].
  unfold after_displayResults. cbv zeta.
  set (w0 := after_main_results result n n0 n1 n2 n3 n4 w).
  set (wc := Page.set_innerHTML c "" w0).
  set (wb := fold_left (fun w item => add_row c item w)
               (breakdownItems result) wc).
  assert (Hcount : Page.count wc = Page.count w)
    by apply after_main_results_count.
  destruct (getElementById_found _ _ Ec) as (Hc_lt & _).
  destruct (getElementById_found _ _ Es) as (Hs_lt & _).
  assert (Hnil : Page.childNodes (Page.element_at wc c) = []).
  { subst wc. cbn. now rewrite Nat.eqb_refl. }
  assert (Hallc : children_below (Page.count wc) (Page.element_at wc c))
    by (unfold children_below; rewrite Hnil; constructor).
  destruct (@rows_spec (breakdownItems result) c wc)
    as (Hcountb & Hchildren & Hnew & _); [lia|exact Hallc|].
  fold wb in Hcountb, Hchildren, Hnew. rewrite Hnil in Hchildren.
  cbn [app] in Hchildren.
  assert (Hframe : forall k, k <> s -> (k < Page.count wb)%nat ->
            (Result.warnings result <> [] -> k <> ul) ->
            children_below (Page.count wb) (Page.element_at wb k) ->
            Page.element_at
              (Page.scrollIntoView n "smooth"
                 (after_warnings (Result.warnings result) s ul wb)) k
            = Page.element_at wb k).
  { intros k Hks Hk Hkul Hall.
    change (Page.element_at (Page.scrollIntoView n "smooth" ?x) k)
      with (Page.element_at x k).
    apply after_warnings_other; trivial.
    intros Hw. split; [|now apply Hkul].
    destruct (getElementById_found _ _ (Eul Hw)) as (Hul & _). lia. }
  transitivity (Page.content wb c).
  - apply content_unchanged.
    + apply Hframe.
      * apply (@distinct_elements "breakdown" "warnings" w c s Ec Es).
        discriminate.
      * lia.
      * intros Hw.
        apply (@distinct_elements "breakdown" "warningsList" w c ul Ec
                 (Eul Hw)).
        discriminate.
      * unfold children_below. rewrite Hchildren. apply Forall_forall.
        intros x Hin. apply in_map_iff in Hin as (h & <- & Hin).
        apply in_seq in Hin. lia.
    + intros h Hin. rewrite Hchildren in Hin.
      apply in_map_iff in Hin as (h' & Eh & Hin). injection Eh as ->.
      apply in_seq in Hin.
      assert (Hrow : exists item, Page.element_at wb h = row item).
      { destruct (nth_error (breakdownItems result) (h - Page.count wc))
          as [item|] eqn:En.
        - exists item. rewrite <- (Hnew _ _ En). f_equal. lia.
        - apply nth_error_None in En. lia. }
      destruct Hrow as [item Hrow].
      apply Hframe; try lia.
      * intros Hw. destruct (getElementById_found _ _ (Eul Hw)) as (? & _).
        lia.
      * rewrite Hrow. apply row_leaf.
  - apply (loop_content (fun c (item : Item.t num) w => add_row c item w) row
             add_row_count add_row_new add_row_other add_row_container
             row_leaf); [lia|exact Hnil].
Qed.

(** X17: when [displayResults] completes on a well-formed page, the
    [warnings] section is displayed as ["block"] if the result carries
    warnings and as ["none"] if not.  With warnings, the content of
    [warningsList] is exactly one [li] for each warning, in order, each with
    the warning as its text; without warnings [warningsList] is left as it
    was, so the items of an earlier run stay in the hidden list. *)
Theorem warnings_panel (result : Result.t num) (w : Page.t) :
  completed (displayResults result w) = true ->
  Page.well_formed w = true ->
  let w' := snd (displayResults result w) in
  exists section,
    getElementById "warnings" w = Some section
    /\ Page.display (Page.element_at w' section)
       = match Result.warnings result with
         | [] => "none"
         | _ :: _ => "block"
         end
    /\ match Result.warnings result with
       | [] =>
           forall ul, getElementById "warningsList" w = Some ul ->
             Page.element_at w' ul = Page.element_at w ul
       | _ :: _ =>
           exists ul,
             getElementById "warningsList" w = Some ul
             /\ Page.content w' ul
                = map (fun warning => inr (warning_item warning))
                    (Result.warnings result)
       end.
Proof.
  intros Hc Hwf.
  destruct (displayResults_completed _ _ Hc)
    as (n & n0 & n1 & n2 & n3 & n4 & c & s & ul
        & E & E0 & E1 & E2 & E3 & E4 & Ec & Es & Eul & ->).
  cbv zeta. exists s. split; [exact Es|].
  unfold after_displayResults. cbv zeta.
  set (w0 := after_main_results result n n0 n1 n2 n3 n4 w).
  set (wc := Page.set_innerHTML c "" w0).
  set (wb := fold_left (fun w item => add_row c item w)
               (breakdownItems result) wc).
  assert (Hcount : Page.count wc = Page.count w)
    by apply after_main_results_count.
  destruct (getElementById_found _ _ Ec) as (Hc_lt & _).
  destruct (getElementById_found _ _ Es) as (Hs_lt & _).
  assert (Hallc : children_below (Page.count wc) (Page.element_at wc c)).
  { subst wc. unfold children_below. cbn. rewrite Nat.eqb_refl.
    constructor. }
  destruct (@rows_spec (breakdownItems result) c wc)
    as (Hcountb & _ & _ & Hother); [lia|exact Hallc|].
  fold wb in Hcountb, Hother.
  (* an element of the page that the first parts do not name is as it was *)
  assert (Hold : forall (i : string) (k : nat),
            getElementById i w = Some k ->
            i <> "results" -> i <> "totalCost" -> i <> "monthlyPayment" ->
            i <> "frontEndRatio" -> i <> "downPaymentResult" ->
            i <> "affordabilityStatus" -> i <> "breakdown" ->
            Page.element_at wb k = Page.element_at w k).
  { intros i k Ek D D0 D1 D2 D3 D4 Dc.
    destruct (getElementById_found _ _ Ek) as (Hk & _).
    assert (Ew0 : Page.element_at w0 k = Page.element_at w k).
    { apply after_main_results_other;
        eapply (@distinct_elements i _ w k _ Ek); eassumption. }
    assert (Hkc : k <> c)
      by (eapply (@distinct_elements i _ w k _ Ek); eassumption).
    assert (Ewc : Page.element_at wc k = Page.element_at w k).
    { rewrite <- Ew0. subst wc. cbn. now unequal k c. }
    rewrite Hother; trivial; try lia.
    rewrite Ewc, Hcount. now apply well_formed_children. }
  assert (Hs : Page.element_at wb s = Page.element_at w s)
    by (apply (Hold "warnings"); trivial; discriminate).
  clearbody wb. clear Hother Hallc. clearbody wc. clearbody w0.
  destruct (Result.warnings result) as [|warning warnings] eqn:Ew.
  - unfold after_warnings. split.
    + cbn. now rewrite Nat.eqb_refl.
    + intros ul' Eul'.
      assert (Hne : ul' <> s).
      { apply (@distinct_elements "warningsList" "warnings" w ul' s Eul' Es).
        discriminate. }
      cbn. unequal ul' s.
      apply (Hold "warningsList"); trivial; discriminate.
  - specialize (Eul ltac:(discriminate)).
    destruct (getElementById_found _ _ Eul) as (Hul & _).
    assert (Hne : s <> ul).
    { apply (@distinct_elements "warnings" "warningsList" w s ul Es Eul).
      discriminate. }
    unfold after_warnings.
    set (w1 := Page.set_innerHTML ul ""
                 (Page.set_style_display s "block" wb)).
    assert (Hc1 : Page.count w1 = Page.count wb) by reflexivity.
    assert (Hnil : Page.childNodes (Page.element_at w1 ul) = []).
    { subst w1. cbn. now rewrite Nat.eqb_refl. }
    assert (Hs1 : Page.element_at w1 s
                  = Page.with_display "block" (Page.element_at w s)).
    { subst w1. cbn. unequal s ul. now rewrite Nat.eqb_refl, Hs. }
    destruct (@warnings_spec (warning :: warnings) ul w1)
      as (_ & _ & _ & Ho).
    { lia. }
    { unfold children_below. rewrite Hnil. constructor. }
    cbv zeta in Ho. split.
    + change (Page.element_at (Page.scrollIntoView n "smooth" ?x) s)
        with (Page.element_at x s).
      rewrite Ho; trivial; try lia.
      * now rewrite Hs1.
      * rewrite Hs1. unfold children_below. cbn [Page.with_display
          Page.childNodes].
        apply (children_below_le (n := Page.count w)); [|lia].
        now apply well_formed_children.
    + exists ul. split; [exact Eul|].
      change (Page.content (Page.scrollIntoView n "smooth" ?x) ul)
        with (Page.content x ul).
      apply (loop_content add_warning warning_item
               add_warning_count add_warning_new add_warning_other
               add_warning_container warning_item_leaf); [lia|exact Hnil].
Qed.
End Display.
End PageFacts.

(** * An empty form *)

Module BlankForm.
Import Binary64 PageFacts.

Local Open Scope string_scope.

(** [preventDefault] does not change the form. *)
Lemma field_value_preventDefault (i : string) (w : Page.t) :
  field_value i (preventDefault w) = field_value i w.
Proof.
  unfold field_value.
  replace (getElementById i (preventDefault w)) with (getElementById i w)
    by (symmetry; now apply getElementById_same_ids).
  reflexivity.
Qed.

(** X18: submitting the form with the five validated fields present but
    not numeric ([parseFloat] gives NaN for each, as for empty fields) shows
    no warning at all: when the handler completes, the [warnings] section
    is hidden, and the status reads ["Above 28% Rule"] with class
    ["status unaffordable"]. *)
Theorem blank_form_is_silent (H : Host float) (B : Builtins float)
    (I : Intl float) (w : Page.t) :
  Forall (fun i => exists v, field_value i w = Some v /\ parseFloat v = NaN)
    validated_fields ->
  completed (onSubmit w) = true ->
  let w' := snd (onSubmit w) in
  (exists section,
     getElementById "warnings" w = Some section
     /\ Page.display (Page.element_at w' section) = "none")
  /\ (exists statusElement,
        getElementById "affordabilityStatus" w = Some statusElement
        /\ Page.className (Page.element_at w' statusElement)
           = "status unaffordable"
        /\ Page.childNodes (Page.element_at w' statusElement)
           = [Page.text "Above 28% Rule"]).
Proof.
  intros Hblank Hc. cbv zeta. rewrite onSubmit_steps in *.
  destruct (formParams (preventDefault w)) as [[params|] w1] eqn:Ep;
    [|discriminate Hc].
  destruct (formParams_reads _ Ep)
    as (-> & Ehp & Eui & Emr & Eha & _ & Edp & _).
  rewrite !field_value_preventDefault in *.
  unfold validated_fields in Hblank.
  repeat match goal with
  | Hf : Forall _ (_ :: _) |- _ => inversion_clear Hf
  | Hf : Forall _ [] |- _ => clear Hf
  | He : exists v, _ /\ _ |- _ => destruct He as (? & ? & ?)
  end.
  repeat match goal with
  | Ef : field_value ?i w = Some _, Eo : context [field_value ?i w] |- _ =>
      rewrite Ef in Eo; cbn [option_map] in Eo
  end.
  repeat match goal with
  | En : parseFloat ?v = NaN, Eo : context [parseFloat ?v] |- _ =>
      rewrite En in Eo
  end.
  injection Ehp as Ehp. injection Eui as Eui. injection Emr as Emr.
  injection Eha as Eha.
  assert (Hw : Result.warnings (calculateHomeNetCost params) = []).
  { cbn [calculateHomeNetCost Result.warnings].
    unfold warnings, downPaymentPercent, housePrice, userIncome, mortgageRate,
      homeAppreciation.
    rewrite Ehp, Eui, Emr, Eha, Edp. reflexivity. }
  assert (Ha : Result.isAffordable (calculateHomeNetCost params) = false).
  { cbn [calculateHomeNetCost Result.isAffordable].
    now apply Binary64Edge.nan_price_results. }
  set (result := calculateHomeNetCost params) in *. clearbody result.
  destruct (displayResults_completed _ _ Hc)
    as (n & n0 & n1 & n2 & n3 & n4 & c & s & ul
        & E & E0 & E1 & E2 & E3 & E4 & Ec & Es & _ & ->).
  assert (Hsame : forall i, getElementById i (preventDefault w)
                            = getElementById i w)
    by (intros i; now apply getElementById_same_ids).
  rewrite Hsame in *.
  unfold after_displayResults. cbv zeta. rewrite Hw.
  unfold after_warnings.
  set (w0 := after_main_results result n n0 n1 n2 n3 n4 (preventDefault w)).
  set (wc := Page.set_innerHTML c "" w0).
  set (wb := fold_left (fun w item => add_row c item w)
               (breakdownItems result) wc).
  split.
  - exists s. split; [exact Es|].
    clearbody wb. cbn. now rewrite Nat.eqb_refl.
  - exists n4. split; [exact E4|].
    assert (Hcount : Page.count wc = Page.count w)
      by exact (after_main_results_count result n n0 n1 n2 n3 n4
                  (preventDefault w)).
    destruct (getElementById_found _ _ Ec) as (Hc_lt & _).
    destruct (getElementById_found _ _ E4) as (H4_lt & _).
    assert (H4c : n4 <> c).
    { apply (@distinct_elements "affordabilityStatus" "breakdown" w n4 c
               E4 Ec).
      discriminate. }
    assert (H4s : n4 <> s).
    { apply (@distinct_elements "affordabilityStatus" "warnings" w n4 s
               E4 Es).
      discriminate. }
    assert (Hstatus : Page.element_at wc n4
              = Page.with_className "status unaffordable"
                  (Page.with_childNodes [Page.text "Above 28% Rule"]
                     (Page.element_at
                        (Page.set_textContent n3
                           (formatCurrency
                              (Breakdown.downPayment
                                 (Result.breakdown result)))
                           (Page.set_textContent n2
                              (formatPercentage (Result.frontEndRatio result))
                              (Page.set_textContent n1
                                 (formatCurrency
                                    (Result.monthlyPayment result))
                                 (Page.set_textContent n0
                                    (formatCurrency
                                       (Result.totalNetCost result))
                                    (Page.set_style_display n "block"
                                       (preventDefault w))))))
                        n4))).
    { subst wc w0. unfold after_main_results. rewrite Ha. cbv zeta.
      unfold Page.set_innerHTML at 1. unfold Page.update at 1.
      unfold Page.with_elements at 1. cbn [Page.element_at].
      unequal n4 c.
      unfold Page.set_className at 1. unfold Page.update at 1.
      unfold Page.with_elements at 1. cbn [Page.element_at].
      rewrite Nat.eqb_refl.
      unfold Page.set_textContent at 1. unfold Page.update at 1.
      unfold Page.with_elements at 1. cbn [Page.element_at].
      rewrite Nat.eqb_refl. reflexivity. }
    assert (Hallc : children_below (Page.count wc) (Page.element_at wc c)).
    { subst wc. unfold children_below. cbn. rewrite Nat.eqb_refl.
      constructor. }
    destruct (rows_spec (breakdownItems result) (c := c) wc)
      as (_ & _ & _ & Hother); [lia|exact Hallc|].
    fold wb in Hother.
    assert (Hb : Page.element_at wb n4 = Page.element_at wc n4).
    { apply Hother; trivial; try lia.
      rewrite Hstatus. repeat constructor. }
    clearbody wb.
    change (Page.element_at
              (Page.scrollIntoView n "smooth"
                 (Page.set_style_display s "none" wb)) n4)
      with (if Nat.eqb n4 s
            then Page.with_display "none" (Page.element_at wb n4)
            else Page.element_at wb n4).
    unequal n4 s. rewrite Hb, Hstatus. split; reflexivity.
Qed.
End BlankForm.

(** * The statements at concrete inputs *)

Module Checks.
Import Binary64.
Local Open Scope string_scope.

(** X4 (witness): an income of 50000, filing jointly. *)
Lemma joint_rate_at_most_single_witness :
  leb (getFederalTaxRate (lit 50000 : float)
         FilingStatus.MARRIED_FILING_JOINTLY)
      (getFederalTaxRate (lit 50000) FilingStatus.SINGLE) = true.
Proof. apply Binary64Edge.joint_rate_at_most_single. discriminate. Defined.

(** X9 (witness): the scenario of the specification. *)
Lemma tax_savings_bounded_witness :
  let scenario : Params.t float := spec_scenario in
  (propertyTaxTaxSavings scenario <= lit 3700)%js = true
  /\ (mortgageInterestTaxSavings scenario
      <= lit 750000 * mortgageRateDecimal scenario * lit 0.37)%js = true.
Proof.
  intros scenario.
  destruct (Binary64Bounds.tax_savings_bounded scenario) as [Htax Hint].
  split.
  - assert (Hf : is_finite (propertyTax scenario) = true)
      by (vm_compute; reflexivity).
    apply Htax; [vm_compute; reflexivity|].
    intros E. rewrite E in Hf. discriminate Hf.
  - apply Hint; vm_compute; reflexivity.
Defined.

(** X10 (witness): a front-end ratio of 0.2802. *)
Lemma shown_28_yet_above_witness :
  formatPercentage (lit 0.2802 : float) = "28.0%"
  /\ leb (lit 0.2802 : float) (lit 0.28) = false.
Proof. apply Shown.shown_28_yet_above; vm_compute; reflexivity. Defined.

(** X12 (witness): the filled form. *)
Lemma form_params_witness :
  exists params : Params.t float,
    formParams filled_page = (normal params, filled_page)
    /\ insurance params = mul (Params.housePrice params) (lit 0.005).
Proof.
  assert (E : exists params : Params.t float,
            formParams filled_page = (normal params, filled_page))
    by (eexists; vm_compute; reflexivity).
  destruct E as [params E].
  exists params. split; [exact E|]. apply (form_params _ E).
Defined.

(** X14 (witness): the page without the income field. *)
Lemma missing_field_aborts_witness :
  onSubmit (num := float) page_without_income
  = (TypeError, preventDefault page_without_income).
Proof.
  apply (missing_field_aborts (num := float) page_without_income
           (id := "userIncome")).
  - cbn. tauto.
  - vm_compute. reflexivity.
Defined.

(** X15 (witness): a document without elements. *)
Lemma displayResults_needs_elements_witness :
  fst (displayResults
         (calculateHomeNetCost (interest_free : Params.t float))
         (Page.of_list [])) = TypeError.
Proof.
  apply (proj2 (PageFacts.displayResults_needs_elements
                  (calculateHomeNetCost (interest_free : Params.t float))
                  (Page.of_list [])) "results").
  - unfold required. apply in_or_app. left. now left.
  - reflexivity.
Defined.

(** X16 (witness): the result of the interest-free loan shown on the
    filled page. *)
Lemma breakdown_rows_witness :
  let result : Result.t float := calculateHomeNetCost interest_free in
  exists container,
    getElementById "breakdown" filled_page = Some container
    /\ Page.content (snd (displayResults result filled_page)) container
       = map (fun item => inr (row item)) (breakdownItems result).
Proof.
  apply PageFacts.breakdown_rows. vm_compute. reflexivity.
Defined.

(** X17 (witness): a result with a warning, for a house price of zero. *)
Lemma warnings_panel_witness :
  let result : Result.t float :=
    calculateHomeNetCost (with_housePrice interest_free (lit 0)) in
  exists section,
    getElementById "warnings" filled_page = Some section
    /\ Page.display
         (Page.element_at (snd (displayResults result filled_page)) section)
       = "block".
Proof.
  intros result.
  assert (Hc : completed (displayResults result filled_page) = true)
    by (vm_compute; reflexivity).
  assert (Hwf : Page.well_formed filled_page = true)
    by (vm_compute; reflexivity).
  destruct (PageFacts.warnings_panel result filled_page Hc Hwf)
    as (section & E & Hd & _).
  exists section. split; [exact E|]. exact Hd.
Defined.

(** X18 (witness): the page with the validated fields left empty. *)
Lemma blank_form_is_silent_witness :
  exists section,
    getElementById "warnings" blank_page = Some section
    /\ Page.display
         (Page.element_at (snd (onSubmit (num := float) blank_page)) section)
       = "none".
Proof.
  apply (BlankForm.blank_form_is_silent ReferenceHost.host builtins intl
           blank_page).
  - unfold validated_fields.
    repeat (apply Forall_cons; [exists ""; split; vm_compute; reflexivity|]).
    apply Forall_nil.
  - vm_compute. reflexivity.
Defined.
End Checks.
